(** * Moonfish position core and transposition table: a shallow embedding

    The development follows [src/position.cpp] and [src/tt.cpp].  Integers
    of the C++ code are modelled as [Z]; fixed-width conversions
    ([uint8_t(..)], [int16_t(..)], ...) are written out as explicit
    wrap-arounds.  Arrays are lists indexed by [Z]; bitboards are 64-bit
    sets of squares represented by non-negative [Z] and manipulated with
    [Z.land], [Z.lor], [Z.lxor] and [Z.testbit]. *)

From Stdlib Require Import String Ascii DecimalString ZArith List Bool Lia.
Set Warnings "-register-all".
Set Warnings "-notation-incompatible-prefix".
Import ListNotations.
Open Scope Z_scope.


(* ===================================================================== *)
(** * Fixed-width integers *)
(* ===================================================================== *)

Definition uint8_t  (x : Z) : Z := x mod 256.
Definition uint16_t (x : Z) : Z := x mod 65536.
Definition uint32_t (x : Z) : Z := x mod 4294967296.
Definition uint64_t (x : Z) : Z := x mod 18446744073709551616.
Definition int8_t   (x : Z) : Z := (x + 128) mod 256 - 128.
Definition int16_t  (x : Z) : Z := (x + 32768) mod 65536 - 32768.

(** C++ [bool(x)] for an integer [x]. *)
Definition to_bool (x : Z) : bool := negb (x =? 0).
Definition of_bool (b : bool) : Z := if b then 1 else 0.

(* ===================================================================== *)
(** * Arrays *)
(* ===================================================================== *)

(** A C array is a list; an index is an [int].  Reading or writing out of
    range is undefined behaviour in the source; the model reads the default
    and leaves the array unchanged, and the theorems carry the hypotheses
    that keep every access in range. *)

Fixpoint upd {A : Type} (l : list A) (n : nat) (v : A) : list A :=
  match l, n with
  | [], _ => []
  | _ :: r, O => v :: r
  | x :: r, S k => x :: upd r k v
  end.

Definition aget {A : Type} (d : A) (l : list A) (i : Z) : A :=
  if i <? 0 then d else nth (Z.to_nat i) l d.

Definition aset {A : Type} (l : list A) (i : Z) (v : A) : list A :=
  if i <? 0 then l else upd l (Z.to_nat i) v.

Notation "a .[ i ]" := (aget 0 a i) (at level 1, left associativity, format "a .[ i ]").

(* ===================================================================== *)
(** * Transposition table (tt.cpp) *)
(* ===================================================================== *)

Inductive Bound := BOUND_NONE | BOUND_UPPER | BOUND_LOWER | BOUND_EXACT.

Definition Bound_code (b : Bound) : Z :=
  match b with
  | BOUND_NONE => 0 | BOUND_UPPER => 1 | BOUND_LOWER => 2 | BOUND_EXACT => 3
  end.

Definition Bound_eqb (a b : Bound) : bool := Bound_code a =? Bound_code b.

(** [struct TTEntry]: ten bytes, [key16]/[move16] unsigned, [value16]/[eval16]
    signed, [genBound8] unsigned, [depth8] signed. *)
Record TTEntry := mkTTEntry {
  key16     : Z;
  move16    : Z;
  value16   : Z;
  eval16    : Z;
  genBound8 : Z;
  depth8    : Z
}.

Definition ClusterSize : nat := 3.

Record Cluster := mkCluster { entry : list TTEntry }.

Record TranspositionTable := mkTT {
  clusterCount : Z;
  table        : list Cluster;
  generation8  : Z
}.

Definition TTEntry_zero : TTEntry := mkTTEntry 0 0 0 0 0 0.
Definition Cluster_zero : Cluster := mkCluster (repeat TTEntry_zero ClusterSize).

(** Modelled from the spec: [TranspositionTable::first_entry] of tt.h, absent
    from the sources at hand.  The cluster is addressed by the low 32 bits of
    the key multiplied with [clusterCount]; the result is the cluster index. *)
Definition first_entry (tt : TranspositionTable) (key : Z) : nat :=
  Z.to_nat (Z.shiftr (uint32_t key * uint64_t (clusterCount tt)) 32).

(** Modelled from the spec: [TranspositionTable::clear] zero-fills the table
    (the threads that share the work are not modelled). *)
Definition TT_clear (tt : TranspositionTable) : TranspositionTable :=
  mkTT (clusterCount tt) (repeat Cluster_zero (length (table tt))) (generation8 tt).

(** Modelled from the spec: [TranspositionTable::new_search] of tt.h:
    [generation8 += 8]. *)
Definition new_search (tt : TranspositionTable) : TranspositionTable :=
  mkTT (clusterCount tt) (table tt) (uint8_t (generation8 tt + 8)).

(** The replacement score of [probe]: depth minus eight times the relative
    age, [depth8 - ((263 + generation8 - genBound8) & 0xF8)]. *)
Definition replace_value (gen8 : Z) (e : TTEntry) : Z :=
  depth8 e - Z.land (263 + gen8 - genBound8 e) 248.

(** First loop of [probe]: [for (i = 0; i < ClusterSize; ++i)], looking for
    an entry that is empty or holds the key.  [i] is the index of the head
    of [tte]. *)
Fixpoint probe_scan (k16 : Z) (tte : list TTEntry) (i : nat) : option nat :=
  match tte with
  | [] => None
  | e :: rest =>
      if negb (to_bool (key16 e)) || (key16 e =? k16) then Some i
      else probe_scan k16 rest (S i)
  end.

(** Second loop of [probe]: [for (i = 1; i < ClusterSize; ++i)], [replace]
    being the index of the candidate kept so far and [n] the number of
    iterations left. *)
Fixpoint probe_replace (gen8 : Z) (tte : list TTEntry) (replace : nat)
         (i n : nat) : nat :=
  match n with
  | O => replace
  | S n' =>
      let replace' :=
        if replace_value gen8 (nth replace tte TTEntry_zero)
           >? replace_value gen8 (nth i tte TTEntry_zero)
        then i else replace in
      probe_replace gen8 tte replace' (S i) n'
  end.

Definition refresh (gen8 : Z) (e : TTEntry) : TTEntry :=
  mkTTEntry (key16 e) (move16 e) (value16 e) (eval16 e)
            (uint8_t (Z.lor gen8 (Z.land (genBound8 e) 7))) (depth8 e).

(** [probe] on the three entries of one cluster.  The result is [found], the
    index of the returned entry in the cluster and the cluster after the
    call. *)
Definition probe_cluster (gen8 : Z) (k16 : Z) (tte : list TTEntry)
  : bool * nat * list TTEntry :=
  match probe_scan k16 (firstn ClusterSize tte) 0 with
  | Some i =>
      let e := nth i tte TTEntry_zero in
      (to_bool (key16 e), i, upd tte i (refresh gen8 e))
  | None =>
      (false, probe_replace gen8 tte 0 1 (ClusterSize - 1), tte)
  end.

(** [TTEntry* TranspositionTable::probe(const Key key, bool& found) const].
    The returned pointer is the pair (cluster index, entry index). *)
Definition probe (tt : TranspositionTable) (key : Z)
  : bool * (nat * nat) * TranspositionTable :=
  let c := first_entry tt key in
  let k16 := uint16_t (Z.shiftr key 48) in
  let '(found, i, tte') := probe_cluster (generation8 tt) k16
                             (entry (nth c (table tt) Cluster_zero)) in
  (found, (c, i),
   mkTT (clusterCount tt) (upd (table tt) c (mkCluster tte')) (generation8 tt)).

(** [void TTEntry::save(Key k, Value v, bool pv, Bound b, Depth d, Move m,
    Value ev)]; [gen8] is the global [TT.generation8] that the method reads. *)
Definition save (gen8 : Z) (e : TTEntry) (k v : Z) (pv : bool) (b : Bound)
           (d m ev : Z) : TTEntry :=
  let newKey := uint16_t (Z.shiftr k 48) in
  let e1 :=
    if to_bool m || negb (newKey =? key16 e)
    then mkTTEntry (key16 e) (uint16_t m) (value16 e) (eval16 e)
                   (genBound8 e) (depth8 e)
    else e in
  if negb (newKey =? key16 e1) || (d >? depth8 e1 - 4) || Bound_eqb b BOUND_EXACT
  then mkTTEntry newKey (move16 e1) (int16_t v) (int16_t ev)
         (uint8_t (Z.lor (Z.lor gen8 (Z.shiftl (uint8_t (of_bool pv)) 2))
                         (Bound_code b)))
         (int8_t d)
  else e1.

(** [save] applied to the entry a pointer returned by [probe] designates. *)
Definition TT_save (tt : TranspositionTable) (p : nat * nat)
           (k v : Z) (pv : bool) (b : Bound) (d m ev : Z) : TranspositionTable :=
  let c := nth (fst p) (table tt) Cluster_zero in
  let e := nth (snd p) (entry c) TTEntry_zero in
  mkTT (clusterCount tt)
       (upd (table tt) (fst p)
            (mkCluster (upd (entry c) (snd p)
                            (save (generation8 tt) e k v pv b d m ev))))
       (generation8 tt).

(** An entry answers a probe for [k16] when it is empty or holds [k16]. *)
Definition tt_match (k16 : Z) (e : TTEntry) : Prop :=
  key16 e = 0 \/ key16 e = k16.

(** The integers [lo], [lo+1], ..., [lo+n-1]: the index range of a [for] loop. *)
Definition zrange (lo : Z) (n : nat) : list Z :=
  map (fun i => lo + Z.of_nat i) (seq 0 n).

Arguments uint8_t : simpl never.
Arguments uint16_t : simpl never.
Arguments uint32_t : simpl never.
Arguments uint64_t : simpl never.
Arguments int8_t : simpl never.
Arguments int16_t : simpl never.

(* ===================================================================== *)
(** * Basic chess types (types.h) *)
(* ===================================================================== *)

(** Modelled from the spec: the enumerations of types.h, absent from the
    sources at hand.  Squares are 0..63, file-major with A1 = 0 and H8 = 63;
    a piece packs colour and type; a move packs from-square (6 bits),
    to-square (6 bits), promotion type (2 bits) and move type (2 bits). *)

Definition WHITE : Z := 0.
Definition BLACK : Z := 1.

Definition NO_PIECE_TYPE : Z := 0.
Definition ALL_PIECES : Z := 0.
Definition PAWN   : Z := 1.
Definition KNIGHT : Z := 2.
Definition BISHOP : Z := 3.
Definition ROOK   : Z := 4.
Definition QUEEN  : Z := 5.
Definition KING   : Z := 6.

Definition NO_PIECE : Z := 0.
Definition W_PAWN   : Z := 1.
Definition W_KNIGHT : Z := 2.
Definition W_BISHOP : Z := 3.
Definition W_ROOK   : Z := 4.
Definition W_QUEEN  : Z := 5.
Definition W_KING   : Z := 6.
Definition B_PAWN   : Z := 9.
Definition B_KNIGHT : Z := 10.
Definition B_BISHOP : Z := 11.
Definition B_ROOK   : Z := 12.
Definition B_QUEEN  : Z := 13.
Definition B_KING   : Z := 14.

Definition SQ_A1 : Z := 0.
Definition SQ_C1 : Z := 2.
Definition SQ_D1 : Z := 3.
Definition SQ_F1 : Z := 5.
Definition SQ_G1 : Z := 6.
Definition SQ_H1 : Z := 7.
Definition SQ_A8 : Z := 56.
Definition SQ_H8 : Z := 63.
Definition SQ_NONE : Z := 64.

Definition NORTH : Z := 8.
Definition EAST  : Z := 1.
Definition SOUTH : Z := -8.
Definition WEST  : Z := -1.

Definition FILE_A : Z := 0.
Definition FILE_H : Z := 7.
Definition RANK_1 : Z := 0.
Definition RANK_2 : Z := 1.
Definition RANK_6 : Z := 5.
Definition RANK_8 : Z := 7.

Definition NORMAL    : Z := 0.
Definition PROMOTION : Z := 16384.
Definition ENPASSANT : Z := 32768.
Definition CASTLING  : Z := 49152.

Definition NO_CASTLING  : Z := 0.
Definition WHITE_OO     : Z := 1.
Definition WHITE_OOO    : Z := 2.
Definition BLACK_OO     : Z := 4.
Definition BLACK_OOO    : Z := 8.
Definition KING_SIDE    : Z := 5.
Definition QUEEN_SIDE   : Z := 10.
Definition WHITE_CASTLING : Z := 3.
Definition BLACK_CASTLING : Z := 12.
Definition ANY_CASTLING : Z := 15.

Definition VALUE_ZERO : Z := 0.

(** [~c] on colours. *)
Definition flip_color (c : Z) : Z := Z.lxor c BLACK.

Definition make_piece (c pt : Z) : Z := Z.shiftl c 3 + pt.
Definition type_of (pc : Z) : Z := Z.land pc 7.
Definition color_of (pc : Z) : Z := Z.shiftr pc 3.

Definition make_square (f r : Z) : Z := Z.shiftl r 3 + f.
Definition file_of (s : Z) : Z := Z.land s 7.
Definition rank_of (s : Z) : Z := Z.shiftr s 3.
Definition relative_square (c s : Z) : Z := Z.lxor s (c * 56).
Definition relative_rank (c r : Z) : Z := Z.lxor r (c * 7).
Definition relative_rank_sq (c s : Z) : Z := relative_rank c (rank_of s).
Definition pawn_push (c : Z) : Z := if c =? WHITE then NORTH else SOUTH.
Definition is_ok_sq (s : Z) : bool := (SQ_A1 <=? s) && (s <=? SQ_H8).

Definition from_sq (m : Z) : Z := Z.land (Z.shiftr m 6) 63.
Definition to_sq (m : Z) : Z := Z.land m 63.
Definition type_of_move (m : Z) : Z := Z.land m 49152.
Definition promotion_type (m : Z) : Z := Z.land (Z.shiftr m 12) 3 + KNIGHT.
Definition make_move (from to : Z) : Z := Z.shiftl from 6 + to.
(** [make<T>(from, to, pt)] of types.h. *)
Definition make_move_of (T from to pt : Z) : Z :=
  T + Z.shiftl (pt - KNIGHT) 12 + Z.shiftl from 6 + to.
Definition is_ok_move (m : Z) : bool := negb (from_sq m =? to_sq m).

(** [CastlingRights operator&(Color c, CastlingRights cr)]. *)
Definition color_castling (c cr : Z) : Z :=
  Z.land (if c =? WHITE then WHITE_CASTLING else BLACK_CASTLING) cr.

(** Modelled from the spec: the middle-game row of [PieceValue] (types.h and
    psqt.cpp), indexed by piece; both colours carry the same values and the
    king is worth nothing. *)
Definition PieceValueMG : list Z :=
  [0; 128; 781; 825; 1276; 2538; 0; 0;
   0; 128; 781; 825; 1276; 2538; 0; 0].

(* ===================================================================== *)
(** * Bitboards (bitboard.h) *)
(* ===================================================================== *)

(** Modelled from the spec: the bitboard primitives of bitboard.h and
    bitboard.cpp, absent from the sources at hand: [square_bb], [lsb],
    [pop_lsb], [more_than_one], [popcount], the attack sets of each piece,
    [between_bb] and [aligned].  Sliding attacks walk each ray up to and
    including the first occupied square. *)

Definition AllSquares : Z := 18446744073709551615.

Definition square_bb (s : Z) : Z := Z.shiftl 1 s.

(** [b & s], [b | s], [b ^ s] for a bitboard and a square. *)
Definition bb_has (b s : Z) : bool := Z.testbit b s.

Fixpoint ctz (p : positive) : Z :=
  match p with
  | xO q => 1 + ctz q
  | _ => 0
  end.

Definition lsb (b : Z) : Z :=
  match b with
  | Zpos p => ctz p
  | _ => 0
  end.

(** [pop_lsb(&b)] returns [lsb(b)] and clears that bit: [b &= b - 1]. *)
Definition pop_lsb (b : Z) : Z * Z := (lsb b, Z.land b (b - 1)).

Definition more_than_one (b : Z) : bool := to_bool (Z.land b (b - 1)).

Fixpoint popcount_pos (p : positive) : Z :=
  match p with
  | xH => 1
  | xO q => popcount_pos q
  | xI q => 1 + popcount_pos q
  end.

Definition popcount (b : Z) : Z :=
  match b with
  | Zpos p => popcount_pos p
  | _ => 0
  end.

(** Chebyshev distance between two squares. *)
Definition distance (a b : Z) : Z :=
  Z.max (Z.abs (file_of a - file_of b)) (Z.abs (rank_of a - rank_of b)).

(** Leaper attacks: the targets [s + d] that stay on the board and within
    distance 2 of [s]. *)
Definition step_attacks (steps : list Z) (s : Z) : Z :=
  fold_left (fun acc d =>
               let t := s + d in
               if is_ok_sq t && (distance s t <? 3)
               then Z.lor acc (square_bb t) else acc)
            steps 0.

Definition PawnAttacks (c s : Z) : Z :=
  step_attacks (if c =? WHITE then [7; 9] else [-7; -9]) s.

Definition KnightAttacks (s : Z) : Z :=
  step_attacks [6; 10; 15; 17; -6; -10; -15; -17] s.

Definition KingAttacks (s : Z) : Z :=
  step_attacks [1; 7; 8; 9; -1; -7; -8; -9] s.

(** One ray of a slider from [s] in direction [d]: at most seven steps. *)
Fixpoint ray_attack (n : nat) (d s occupied : Z) : Z :=
  match n with
  | O => 0
  | S n' =>
      let t := s + d in
      if is_ok_sq t && (distance t s =? 1)
      then if bb_has occupied t then square_bb t
           else Z.lor (square_bb t) (ray_attack n' d t occupied)
      else 0
  end.

Definition sliding_attack (dirs : list Z) (s occupied : Z) : Z :=
  fold_left (fun acc d => Z.lor acc (ray_attack 7 d s occupied)) dirs 0.

Definition RookDirections : list Z := [NORTH; EAST; SOUTH; WEST].
Definition BishopDirections : list Z := [9; 7; -7; -9].

(** [attacks_bb<Pt>(s, occupied)] and [attacks_bb(pt, s, occupied)]. *)
Definition attacks_bb (pt s occupied : Z) : Z :=
  if pt =? BISHOP then sliding_attack BishopDirections s occupied
  else if pt =? ROOK then sliding_attack RookDirections s occupied
  else if pt =? QUEEN then Z.lor (sliding_attack BishopDirections s occupied)
                                  (sliding_attack RookDirections s occupied)
  else if pt =? KNIGHT then KnightAttacks s
  else if pt =? KING then KingAttacks s
  else 0.

(** [PseudoAttacks[pt][s]]: the attacks on an empty board. *)
Definition PseudoAttacks (pt s : Z) : Z := attacks_bb pt s 0.

(** The squares strictly between [s] and [t] along ray [d], when the ray
    from [s] reaches [t]. *)
Fixpoint ray_between (n : nat) (d s t acc : Z) : option Z :=
  match n with
  | O => None
  | S n' =>
      let u := s + d in
      if is_ok_sq u && (distance u s =? 1)
      then if u =? t then Some acc
           else ray_between n' d u t (Z.lor acc (square_bb u))
      else None
  end.

Definition between_bb (s t : Z) : Z :=
  fold_left (fun acc d =>
               match ray_between 7 d s t 0 with
               | Some b => b
               | None => acc
               end)
            (RookDirections ++ BishopDirections) 0.

(** [LineBB[s][t]]: the whole line through two squares on a common rank,
    file or diagonal, both included; empty otherwise. *)
Definition LineBB (s t : Z) : Z :=
  fold_left (fun acc pt =>
               if bb_has (PseudoAttacks pt s) t
               then Z.lor (Z.lor (Z.land (PseudoAttacks pt s) (PseudoAttacks pt t))
                                 (square_bb s)) (square_bb t)
               else acc)
            [BISHOP; ROOK] 0.

Definition aligned (s1 s2 s3 : Z) : bool := bb_has (LineBB s1 s2) s3.

Definition Rank1BB : Z := 255.
Definition Rank8BB : Z := Z.shiftl 255 56.

(* ===================================================================== *)
(** * Zobrist keys (position.cpp, namespace Zobrist and Position::init) *)
(* ===================================================================== *)

(** Modelled from the spec: the pseudo-random generator [PRNG] of misc.h,
    absent from the sources at hand: a xorshift64star generator seeded with a
    fixed constant.  [rand64] returns the draw and the next state, all
    arithmetic being modulo 2^64. *)
Definition rand64 (s : Z) : Z * Z :=
  let s1 := Z.lxor s (Z.shiftr s 12) in
  let s2 := Z.lxor s1 (uint64_t (Z.shiftl s1 25)) in
  let s3 := Z.lxor s2 (Z.shiftr s2 27) in
  (uint64_t (s3 * 2685821657736338717), s3).

Record ZobristKeys := mkZobrist {
  Z_psq       : list (list Z);   (* [PIECE_NB][SQUARE_NB] *)
  Z_enpassant : list Z;          (* [FILE_NB] *)
  Z_castling  : list Z;          (* [CASTLING_RIGHT_NB] *)
  Z_noPawns   : Z;
  Z_side      : Z
}.

Definition Pieces : list Z :=
  [W_PAWN; W_KNIGHT; W_BISHOP; W_ROOK; W_QUEEN; W_KING;
   B_PAWN; B_KNIGHT; B_BISHOP; B_ROOK; B_QUEEN; B_KING].

(** [n] successive draws, first draw first, and the generator state after
    them. *)
Fixpoint draws (n : nat) (s : Z) : list Z * Z :=
  match n with
  | O => ([], s)
  | S n' => let '(r, s1) := rand64 s in
            let '(rs, s2) := draws n' s1 in
            (r :: rs, s2)
  end.

(** Inner loop of [init] for one castling mask [cr]: [while (b)], with [acc]
    the value of [castling[cr]] so far.  A 64-bit [b] has at most 64 bits to
    pop. *)
Fixpoint init_castling_bits (n : nat) (cr : Z) (b : Z) (tbl : list Z) (s : Z)
  : list Z * Z :=
  match n with
  | O => (tbl, s)
  | S n' =>
      if b =? 0 then (tbl, s)
      else
        let '(i, b') := pop_lsb b in
        let k := aget 0 tbl (Z.shiftl 1 i) in
        let '(x, s') := if to_bool k then (k, s) else rand64 s in
        init_castling_bits n' cr b' (aset tbl cr (Z.lxor (aget 0 tbl cr) x)) s'
  end.

(** Outer loop: [for (cr = NO_CASTLING; cr <= ANY_CASTLING; ++cr)]. *)
Definition init_castling (tbl : list Z) (s : Z) : list Z * Z :=
  fold_left (fun '(tbl, s) cr =>
               init_castling_bits 64 cr cr (aset tbl cr 0) s)
            (zrange NO_CASTLING 16) (tbl, s).

(** Fill one row [psq[pc][SQ_A1..SQ_H8]]. *)
Definition init_psq (tbl : list (list Z)) (s : Z) : list (list Z) * Z :=
  fold_left (fun '(tbl, s) pc =>
               let '(row, s') := draws 64 s in
               (aset tbl pc row, s'))
            Pieces (tbl, s).

(** [void Position::init()], started from zero-initialised tables. *)
Definition Position_init : ZobristKeys :=
  let s0 := 1070372 in
  let '(psq, s1) := init_psq (repeat (repeat 0 64%nat) 16%nat) s0 in
  let '(ep, s2) := draws 8 s1 in
  let '(cas, s3) := init_castling (repeat 0 16%nat) s2 in
  let '(np, s4) := rand64 s3 in
  let '(sd, s5) := rand64 s4 in
  mkZobrist psq ep cas np sd.

(** The tables as the rest of the program sees them after start-up. *)
Definition Zobrist : ZobristKeys := Eval vm_compute in Position_init.

Definition Zobrist_psq (pc s : Z) : Z := aget 0 (aget [] (Z_psq Zobrist) pc) s.
Definition Zobrist_enpassant (f : Z) : Z := aget 0 (Z_enpassant Zobrist) f.
Definition Zobrist_castling (cr : Z) : Z := aget 0 (Z_castling Zobrist) cr.
Definition Zobrist_noPawns : Z := Z_noPawns Zobrist.
Definition Zobrist_side : Z := Z_side Zobrist.

(* ===================================================================== *)
(** * Position and StateInfo (position.h) *)
(* ===================================================================== *)

(** Modelled from the spec: [struct StateInfo] of position.h.  The first
    seven fields are the prefix that [do_move] copies ([offsetof(StateInfo,
    key)]); [previous] is the back link, [None] standing for the null
    pointer. *)
Inductive StateInfo := mkStateInfo {
  pawnKey         : Z;
  materialKey     : Z;
  nonPawnMaterial : list Z;      (* [COLOR_NB] *)
  castlingRights  : Z;
  rule50          : Z;
  pliesFromNull   : Z;
  epSquare        : Z;
  key             : Z;
  checkersBB      : Z;
  capturedPiece   : Z;
  previous        : option StateInfo;
  blockersForKing : list Z;      (* [COLOR_NB] *)
  pinners         : list Z;      (* [COLOR_NB] *)
  checkSquares    : list Z;      (* [PIECE_TYPE_NB] *)
  repetition      : Z
}.

(** [std::memset(si, 0, sizeof(StateInfo))]. *)
Definition StateInfo_zero : StateInfo :=
  mkStateInfo 0 0 [0; 0] 0 0 0 0 0 0 0 None [0; 0] [0; 0]
              (repeat 0 8%nat) 0.

(** Modelled from the spec: the data members of [class Position] of
    position.h.  [thisThread] is left out: the position only uses it to bump
    the node counter and to prefetch, neither of which changes the
    position. *)
Record Position := mkPosition {
  board              : list Z;          (* [SQUARE_NB] *)
  byTypeBB           : list Z;          (* [PIECE_TYPE_NB] *)
  byColorBB          : list Z;          (* [COLOR_NB] *)
  pieceCount         : list Z;          (* [PIECE_NB] *)
  pieceList          : list (list Z);   (* [PIECE_NB][16] *)
  index              : list Z;          (* [SQUARE_NB] *)
  castlingRightsMask : list Z;          (* [SQUARE_NB] *)
  castlingRookSquare : list Z;          (* [CASTLING_RIGHT_NB] *)
  castlingPath       : list Z;          (* [CASTLING_RIGHT_NB] *)
  gamePly            : Z;
  sideToMove         : Z;
  st                 : StateInfo;
  chess960           : bool
}.

(** ** Field updates *)

Definition set_pawnKey (v : Z) (s : StateInfo) : StateInfo :=
  mkStateInfo v (materialKey s) (nonPawnMaterial s) (castlingRights s)
    (rule50 s) (pliesFromNull s) (epSquare s) (key s) (checkersBB s)
    (capturedPiece s) (previous s) (blockersForKing s) (pinners s)
    (checkSquares s) (repetition s).
Definition set_materialKey (v : Z) (s : StateInfo) : StateInfo :=
  mkStateInfo (pawnKey s) v (nonPawnMaterial s) (castlingRights s)
    (rule50 s) (pliesFromNull s) (epSquare s) (key s) (checkersBB s)
    (capturedPiece s) (previous s) (blockersForKing s) (pinners s)
    (checkSquares s) (repetition s).
Definition set_nonPawnMaterial (v : list Z) (s : StateInfo) : StateInfo :=
  mkStateInfo (pawnKey s) (materialKey s) v (castlingRights s)
    (rule50 s) (pliesFromNull s) (epSquare s) (key s) (checkersBB s)
    (capturedPiece s) (previous s) (blockersForKing s) (pinners s)
    (checkSquares s) (repetition s).
Definition set_castlingRights (v : Z) (s : StateInfo) : StateInfo :=
  mkStateInfo (pawnKey s) (materialKey s) (nonPawnMaterial s) v
    (rule50 s) (pliesFromNull s) (epSquare s) (key s) (checkersBB s)
    (capturedPiece s) (previous s) (blockersForKing s) (pinners s)
    (checkSquares s) (repetition s).
Definition set_rule50 (v : Z) (s : StateInfo) : StateInfo :=
  mkStateInfo (pawnKey s) (materialKey s) (nonPawnMaterial s) (castlingRights s)
    v (pliesFromNull s) (epSquare s) (key s) (checkersBB s)
    (capturedPiece s) (previous s) (blockersForKing s) (pinners s)
    (checkSquares s) (repetition s).
Definition set_pliesFromNull (v : Z) (s : StateInfo) : StateInfo :=
  mkStateInfo (pawnKey s) (materialKey s) (nonPawnMaterial s) (castlingRights s)
    (rule50 s) v (epSquare s) (key s) (checkersBB s)
    (capturedPiece s) (previous s) (blockersForKing s) (pinners s)
    (checkSquares s) (repetition s).
Definition set_epSquare (v : Z) (s : StateInfo) : StateInfo :=
  mkStateInfo (pawnKey s) (materialKey s) (nonPawnMaterial s) (castlingRights s)
    (rule50 s) (pliesFromNull s) v (key s) (checkersBB s)
    (capturedPiece s) (previous s) (blockersForKing s) (pinners s)
    (checkSquares s) (repetition s).
Definition set_key (v : Z) (s : StateInfo) : StateInfo :=
  mkStateInfo (pawnKey s) (materialKey s) (nonPawnMaterial s) (castlingRights s)
    (rule50 s) (pliesFromNull s) (epSquare s) v (checkersBB s)
    (capturedPiece s) (previous s) (blockersForKing s) (pinners s)
    (checkSquares s) (repetition s).
Definition set_checkersBB (v : Z) (s : StateInfo) : StateInfo :=
  mkStateInfo (pawnKey s) (materialKey s) (nonPawnMaterial s) (castlingRights s)
    (rule50 s) (pliesFromNull s) (epSquare s) (key s) v
    (capturedPiece s) (previous s) (blockersForKing s) (pinners s)
    (checkSquares s) (repetition s).
Definition set_capturedPiece (v : Z) (s : StateInfo) : StateInfo :=
  mkStateInfo (pawnKey s) (materialKey s) (nonPawnMaterial s) (castlingRights s)
    (rule50 s) (pliesFromNull s) (epSquare s) (key s) (checkersBB s)
    v (previous s) (blockersForKing s) (pinners s)
    (checkSquares s) (repetition s).
Definition set_previous (v : option StateInfo) (s : StateInfo) : StateInfo :=
  mkStateInfo (pawnKey s) (materialKey s) (nonPawnMaterial s) (castlingRights s)
    (rule50 s) (pliesFromNull s) (epSquare s) (key s) (checkersBB s)
    (capturedPiece s) v (blockersForKing s) (pinners s)
    (checkSquares s) (repetition s).
Definition set_checkInfo (b p c : list Z) (s : StateInfo) : StateInfo :=
  mkStateInfo (pawnKey s) (materialKey s) (nonPawnMaterial s) (castlingRights s)
    (rule50 s) (pliesFromNull s) (epSquare s) (key s) (checkersBB s)
    (capturedPiece s) (previous s) b p c (repetition s).
Definition set_repetition (v : Z) (s : StateInfo) : StateInfo :=
  mkStateInfo (pawnKey s) (materialKey s) (nonPawnMaterial s) (castlingRights s)
    (rule50 s) (pliesFromNull s) (epSquare s) (key s) (checkersBB s)
    (capturedPiece s) (previous s) (blockersForKing s) (pinners s)
    (checkSquares s) v.

Definition set_board (v : list Z) (p : Position) : Position :=
  mkPosition v (byTypeBB p) (byColorBB p) (pieceCount p) (pieceList p)
    (index p) (castlingRightsMask p) (castlingRookSquare p) (castlingPath p)
    (gamePly p) (sideToMove p) (st p) (chess960 p).
Definition set_gamePly (v : Z) (p : Position) : Position :=
  mkPosition (board p) (byTypeBB p) (byColorBB p) (pieceCount p) (pieceList p)
    (index p) (castlingRightsMask p) (castlingRookSquare p) (castlingPath p)
    v (sideToMove p) (st p) (chess960 p).
Definition set_sideToMove (v : Z) (p : Position) : Position :=
  mkPosition (board p) (byTypeBB p) (byColorBB p) (pieceCount p) (pieceList p)
    (index p) (castlingRightsMask p) (castlingRookSquare p) (castlingPath p)
    (gamePly p) v (st p) (chess960 p).
Definition set_st (v : StateInfo) (p : Position) : Position :=
  mkPosition (board p) (byTypeBB p) (byColorBB p) (pieceCount p) (pieceList p)
    (index p) (castlingRightsMask p) (castlingRookSquare p) (castlingPath p)
    (gamePly p) (sideToMove p) v (chess960 p).
(** [st->field = ...]: an update of the current state object. *)
Definition with_st (f : StateInfo -> StateInfo) (p : Position) : Position :=
  set_st (f (st p)) p.

(* ===================================================================== *)
(** * Position queries and piece bookkeeping (position.h) *)
(* ===================================================================== *)

(** Modelled from the spec: the inline accessors of position.h and the three
    bookkeeping helpers [put_piece], [remove_piece] and [move_piece], absent
    from the sources at hand.  [pieceList] and [index] form the reverse index
    that lets a piece be removed without scanning: the last square of the
    piece's list takes the place of the removed one.  As position.cpp notes
    at its two call sites, [remove_piece] does not clear [board]. *)

Definition piece_on (p : Position) (s : Z) : Z := aget 0 (board p) s.
Definition empty (p : Position) (s : Z) : bool := piece_on p s =? NO_PIECE.
Definition moved_piece (p : Position) (m : Z) : Z := piece_on p (from_sq m).

Definition pieces (p : Position) : Z := aget 0 (byTypeBB p) ALL_PIECES.
Definition pieces_pt (p : Position) (pt : Z) : Z := aget 0 (byTypeBB p) pt.
Definition pieces_pt2 (p : Position) (pt1 pt2 : Z) : Z :=
  Z.lor (aget 0 (byTypeBB p) pt1) (aget 0 (byTypeBB p) pt2).
Definition pieces_c (p : Position) (c : Z) : Z := aget 0 (byColorBB p) c.
Definition pieces_c_pt (p : Position) (c pt : Z) : Z :=
  Z.land (aget 0 (byColorBB p) c) (aget 0 (byTypeBB p) pt).
Definition pieces_c_pt2 (p : Position) (c pt1 pt2 : Z) : Z :=
  Z.land (aget 0 (byColorBB p) c)
         (Z.lor (aget 0 (byTypeBB p) pt1) (aget 0 (byTypeBB p) pt2)).

(** [square<Pt>(c)]: the square of the only piece of that kind. *)
Definition square_of (p : Position) (pt c : Z) : Z :=
  aget 0 (aget [] (pieceList p) (make_piece c pt)) 0.

Definition ep_square (p : Position) : Z := epSquare (st p).
Definition rule50_count (p : Position) : Z := rule50 (st p).
Definition can_castle (p : Position) (cr : Z) : bool :=
  to_bool (Z.land (castlingRights (st p)) cr).
Definition castling_rook_square (p : Position) (cr : Z) : Z :=
  aget 0 (castlingRookSquare p) cr.
Definition checkers (p : Position) : Z := checkersBB (st p).
Definition blockers_for_king (p : Position) (c : Z) : Z :=
  aget 0 (blockersForKing (st p)) c.
Definition Position_key (p : Position) : Z := key (st p).
Definition pawn_key (p : Position) : Z := pawnKey (st p).
Definition material_key (p : Position) : Z := materialKey (st p).

(** [attacks_from<Pt>(s)] and [attacks_from<PAWN>(s, c)]. *)
Definition attacks_from (p : Position) (pt s : Z) : Z :=
  if (pt =? BISHOP) || (pt =? ROOK) || (pt =? QUEEN)
  then attacks_bb pt s (pieces p)
  else PseudoAttacks pt s.
Definition attacks_from_pawn (s c : Z) : Z := PawnAttacks c s.

Definition put_piece (p : Position) (pc s : Z) : Position :=
  let board1 := aset (board p) s pc in
  let bt1 := aset (byTypeBB p) ALL_PIECES
                  (Z.lor (aget 0 (byTypeBB p) ALL_PIECES) (square_bb s)) in
  let bt2 := aset bt1 (type_of pc)
                  (Z.lor (aget 0 bt1 (type_of pc)) (square_bb s)) in
  let bc1 := aset (byColorBB p) (color_of pc)
                  (Z.lor (aget 0 (byColorBB p) (color_of pc)) (square_bb s)) in
  (* index[s] = pieceCount[pc]++ *)
  let i := aget 0 (pieceCount p) pc in
  let index1 := aset (index p) s i in
  let pcnt1 := aset (pieceCount p) pc (i + 1) in
  (* pieceList[pc][index[s]] = s *)
  let plist1 := aset (pieceList p) pc (aset (aget [] (pieceList p) pc) i s) in
  (* pieceCount[make_piece(color_of(pc), ALL_PIECES)]++ *)
  let all := make_piece (color_of pc) ALL_PIECES in
  let pcnt2 := aset pcnt1 all (aget 0 pcnt1 all + 1) in
  mkPosition board1 bt2 bc1 pcnt2 plist1 index1 (castlingRightsMask p)
    (castlingRookSquare p) (castlingPath p) (gamePly p) (sideToMove p) (st p)
    (chess960 p).

Definition remove_piece (p : Position) (pc s : Z) : Position :=
  let bt1 := aset (byTypeBB p) ALL_PIECES
                  (Z.lxor (aget 0 (byTypeBB p) ALL_PIECES) (square_bb s)) in
  let bt2 := aset bt1 (type_of pc)
                  (Z.lxor (aget 0 bt1 (type_of pc)) (square_bb s)) in
  let bc1 := aset (byColorBB p) (color_of pc)
                  (Z.lxor (aget 0 (byColorBB p) (color_of pc)) (square_bb s)) in
  (* Square lastSquare = pieceList[pc][--pieceCount[pc]] *)
  let n := aget 0 (pieceCount p) pc - 1 in
  let pcnt1 := aset (pieceCount p) pc n in
  let lastSquare := aget 0 (aget [] (pieceList p) pc) n in
  (* index[lastSquare] = index[s] *)
  let index1 := aset (index p) lastSquare (aget 0 (index p) s) in
  (* pieceList[pc][index[lastSquare]] = lastSquare *)
  let row1 := aset (aget [] (pieceList p) pc) (aget 0 index1 lastSquare) lastSquare in
  (* pieceList[pc][pieceCount[pc]] = SQ_NONE *)
  let row2 := aset row1 n SQ_NONE in
  let plist1 := aset (pieceList p) pc row2 in
  (* pieceCount[make_piece(color_of(pc), ALL_PIECES)]-- *)
  let all := make_piece (color_of pc) ALL_PIECES in
  let pcnt2 := aset pcnt1 all (aget 0 pcnt1 all - 1) in
  mkPosition (board p) bt2 bc1 pcnt2 plist1 index1 (castlingRightsMask p)
    (castlingRookSquare p) (castlingPath p) (gamePly p) (sideToMove p) (st p)
    (chess960 p).

Definition move_piece (p : Position) (pc from to : Z) : Position :=
  let fromTo := Z.lor (square_bb from) (square_bb to) in
  let bt1 := aset (byTypeBB p) ALL_PIECES
                  (Z.lxor (aget 0 (byTypeBB p) ALL_PIECES) fromTo) in
  let bt2 := aset bt1 (type_of pc) (Z.lxor (aget 0 bt1 (type_of pc)) fromTo) in
  let bc1 := aset (byColorBB p) (color_of pc)
                  (Z.lxor (aget 0 (byColorBB p) (color_of pc)) fromTo) in
  let board1 := aset (aset (board p) from NO_PIECE) to pc in
  (* index[to] = index[from]; index[from] is left stale *)
  let index1 := aset (index p) to (aget 0 (index p) from) in
  let plist1 := aset (pieceList p) pc
                     (aset (aget [] (pieceList p) pc) (aget 0 index1 to) to) in
  mkPosition board1 bt2 bc1 (pieceCount p) plist1 index1 (castlingRightsMask p)
    (castlingRookSquare p) (castlingPath p) (gamePly p) (sideToMove p) (st p)
    (chess960 p).

(* ===================================================================== *)
(** * Attackers, blockers, check info (position.cpp) *)
(* ===================================================================== *)

(** [Bitboard Position::attackers_to(Square s, Bitboard occupied) const]. *)
Definition attackers_to (p : Position) (s occupied : Z) : Z :=
  Z.lor (Z.lor (Z.lor (Z.lor (Z.lor
    (Z.land (attacks_from_pawn s BLACK) (pieces_c_pt p WHITE PAWN))
    (Z.land (attacks_from_pawn s WHITE) (pieces_c_pt p BLACK PAWN)))
    (Z.land (attacks_from p KNIGHT s) (pieces_pt p KNIGHT)))
    (Z.land (attacks_bb ROOK s occupied) (pieces_pt2 p ROOK QUEEN)))
    (Z.land (attacks_bb BISHOP s occupied) (pieces_pt2 p BISHOP QUEEN)))
    (Z.land (attacks_from p KING s) (pieces_pt p KING)).

(** [attackers_to(s)] with the board's own occupancy. *)
Definition attackers_to_sq (p : Position) (s : Z) : Z :=
  attackers_to p s (pieces p).

(** The loop [while (snipers)] of [slider_blockers]; a 64-bit set is empty
    after 64 pops. *)
Fixpoint slider_blockers_loop (n : nat) (p : Position) (s occupancy : Z)
         (snipers blockers pinners : Z) : Z * Z :=
  match n with
  | O => (blockers, pinners)
  | S n' =>
      if snipers =? 0 then (blockers, pinners)
      else
        let '(sniperSq, snipers') := pop_lsb snipers in
        let b := Z.land (between_bb s sniperSq) occupancy in
        if to_bool b && negb (more_than_one b)
        then
          let blockers' := Z.lor blockers b in
          let pinners' :=
            if to_bool (Z.land b (pieces_c p (color_of (piece_on p s))))
            then Z.lor pinners (square_bb sniperSq) else pinners in
          slider_blockers_loop n' p s occupancy snipers' blockers' pinners'
        else slider_blockers_loop n' p s occupancy snipers' blockers pinners
  end.

(** [Bitboard Position::slider_blockers(Bitboard sliders, Square s,
    Bitboard& pinners) const]: the result and the pinners. *)
Definition slider_blockers (p : Position) (sliders s : Z) : Z * Z :=
  let snipers :=
    Z.land (Z.lor (Z.land (PseudoAttacks ROOK s) (pieces_pt2 p QUEEN ROOK))
                  (Z.land (PseudoAttacks BISHOP s) (pieces_pt2 p QUEEN BISHOP)))
           sliders in
  let occupancy := Z.lxor (pieces p) snipers in
  slider_blockers_loop 64 p s occupancy snipers 0 0.

(** [void Position::set_check_info(StateInfo* si) const]. *)
Definition set_check_info (p : Position) (si : StateInfo) : StateInfo :=
  let '(bw, pb) := slider_blockers p (pieces_c p BLACK) (square_of p KING WHITE) in
  let '(bb, pw) := slider_blockers p (pieces_c p WHITE) (square_of p KING BLACK) in
  let blockers := aset (aset (blockersForKing si) WHITE bw) BLACK bb in
  let pinners_ := aset (aset (pinners si) BLACK pb) WHITE pw in
  let ksq := square_of p KING (flip_color (sideToMove p)) in
  let cs1 := aset (checkSquares si) PAWN
                  (attacks_from_pawn ksq (flip_color (sideToMove p))) in
  let cs2 := aset cs1 KNIGHT (attacks_from p KNIGHT ksq) in
  let cs3 := aset cs2 BISHOP (attacks_from p BISHOP ksq) in
  let cs4 := aset cs3 ROOK (attacks_from p ROOK ksq) in
  let cs5 := aset cs4 QUEEN (Z.lor (aget 0 cs4 BISHOP) (aget 0 cs4 ROOK)) in
  let cs6 := aset cs5 KING 0 in
  set_checkInfo blockers pinners_ cs6 si.

(** The squares of a bitboard in the order [pop_lsb] yields them:
    [for (Bitboard b = ...; b; ) { Square s = pop_lsb(&b); ... }]. *)
Fixpoint bitboard_squares (n : nat) (b : Z) : list Z :=
  match n with
  | O => []
  | S n' =>
      if b =? 0 then []
      else let '(s, b') := pop_lsb b in s :: bitboard_squares n' b'
  end.

(** Body of the piece loop of [set_state]. *)
Definition set_state_piece (p : Position) (si : StateInfo) (s : Z) : StateInfo :=
  let pc := piece_on p s in
  let si1 := set_key (Z.lxor (key si) (Zobrist_psq pc s)) si in
  if type_of pc =? PAWN
  then set_pawnKey (Z.lxor (pawnKey si1) (Zobrist_psq pc s)) si1
  else if negb (type_of pc =? KING)
  then set_nonPawnMaterial
         (aset (nonPawnMaterial si1) (color_of pc)
               (aget 0 (nonPawnMaterial si1) (color_of pc)
                + aget 0 PieceValueMG pc)) si1
  else si1.

(** Body of the material loop of [set_state]:
    [for (cnt = 0; cnt < pieceCount[pc]; ++cnt)]. *)
Definition set_state_material (p : Position) (mk : Z) (pc : Z) : Z :=
  fold_left (fun acc cnt => Z.lxor acc (Zobrist_psq pc cnt))
            (zrange 0 (Z.to_nat (aget 0 (pieceCount p) pc))) mk.

(** [void Position::set_state(StateInfo* si) const]. *)
Definition set_state (p : Position) (si : StateInfo) : StateInfo :=
  let si1 := set_materialKey 0 (set_key 0 si) in
  let si2 := set_pawnKey Zobrist_noPawns si1 in
  let si3 := set_nonPawnMaterial
               (aset (aset (nonPawnMaterial si2) BLACK VALUE_ZERO) WHITE VALUE_ZERO)
               si2 in
  let si4 := set_checkersBB
               (Z.land (attackers_to_sq p (square_of p KING (sideToMove p)))
                       (pieces_c p (flip_color (sideToMove p)))) si3 in
  let si5 := set_check_info p si4 in
  let si6 := fold_left (set_state_piece p) (bitboard_squares 64 (pieces p)) si5 in
  let si7 := if negb (epSquare si6 =? SQ_NONE)
             then set_key (Z.lxor (key si6)
                                  (Zobrist_enpassant (file_of (epSquare si6)))) si6
             else si6 in
  let si8 := if sideToMove p =? BLACK
             then set_key (Z.lxor (key si7) Zobrist_side) si7 else si7 in
  let si9 := set_key (Z.lxor (key si8) (Zobrist_castling (castlingRights si8))) si8 in
  set_materialKey (fold_left (set_state_material p) Pieces (materialKey si9)) si9.

(* ===================================================================== *)
(** * FEN codec (position.cpp) *)
(* ===================================================================== *)

Definition PieceToChar : list ascii :=
  list_ascii_of_string " PNBRQK  pnbrqk"%string.

Definition char_code (c : ascii) : Z := Z.of_N (N_of_ascii c).
Definition char_of_code (z : Z) : ascii := ascii_of_N (Z.to_N z).

Definition isspace (c : ascii) : bool :=
  let n := char_code c in (n =? 32) || ((9 <=? n) && (n <=? 13)).
Definition isdigit (c : ascii) : bool :=
  let n := char_code c in (48 <=? n) && (n <=? 57).
Definition islower (c : ascii) : bool :=
  let n := char_code c in (97 <=? n) && (n <=? 122).
Definition toupper (c : ascii) : ascii :=
  if islower c then char_of_code (char_code c - 32) else c.

(** [PieceToChar.find(token)]: the first index holding [token], if any. *)
Fixpoint string_find (l : list ascii) (c : ascii) (i : Z) : option Z :=
  match l with
  | [] => None
  | x :: r => if Ascii.eqb x c then Some i else string_find r c (i + 1)
  end.

(** [void Position::set_castling_right(Color c, Square rfrom)]. *)
Definition set_castling_right (p : Position) (c rfrom : Z) : Position :=
  let kfrom := square_of p KING c in
  let cr := color_castling c (if kfrom <? rfrom then KING_SIDE else QUEEN_SIDE) in
  let st1 := set_castlingRights (Z.lor (castlingRights (st p)) cr) (st p) in
  let m1 := aset (castlingRightsMask p) kfrom
                 (Z.lor (aget 0 (castlingRightsMask p) kfrom) cr) in
  let m2 := aset m1 rfrom (Z.lor (aget 0 m1 rfrom) cr) in
  let rsq := aset (castlingRookSquare p) cr rfrom in
  let kto := relative_square c (if to_bool (Z.land cr KING_SIDE) then SQ_G1 else SQ_C1) in
  let rto := relative_square c (if to_bool (Z.land cr KING_SIDE) then SQ_F1 else SQ_D1) in
  let path :=
    Z.land (Z.lor (Z.lor (Z.lor (between_bb rfrom rto) (between_bb kfrom kto))
                         (square_bb rto)) (square_bb kto))
           (Z.lnot (Z.lor (square_bb kfrom) (square_bb rfrom))) in
  mkPosition (board p) (byTypeBB p) (byColorBB p) (pieceCount p) (pieceList p)
    (index p) m2 rsq (aset (castlingPath p) cr path)
    (gamePly p) (sideToMove p) st1 (chess960 p).

(** [std::memset(this, 0, sizeof(Position))] followed by the [fill_n] of
    [pieceList] with [SQ_NONE], and [st = si] for a zeroed [si]. *)
Definition Position_zero : Position :=
  mkPosition (repeat 0 64%nat) (repeat 0 8%nat) (repeat 0 2%nat)
    (repeat 0 16%nat) (repeat (repeat SQ_NONE 16%nat) 16%nat) (repeat 0 64%nat)
    (repeat 0 64%nat) (repeat 0 16%nat) (repeat 0 16%nat)
    0 WHITE StateInfo_zero false.

(** 1. Piece placement:
    [while ((ss >> token) && !isspace(token))].  The result is the position
    and the unread rest of the stream. *)
Fixpoint set_placement (ss : list ascii) (p : Position) (sq : Z)
  : Position * list ascii :=
  match ss with
  | [] => (p, [])
  | token :: rest =>
      if isspace token then (p, rest)
      else if isdigit token
      then set_placement rest p (sq + (char_code token - 48) * EAST)
      else if Ascii.eqb token "/"
      then set_placement rest p (sq + 2 * SOUTH)
      else match string_find PieceToChar token 0 with
           | Some idx => set_placement rest (put_piece p idx sq) (sq + 1)
           | None => set_placement rest p sq
           end
  end.

(** [for (rsq = ...; piece_on(rsq) != rook; rsq += step) {}]: the scan for
    the castling rook.  The source loops until it meets a rook; the scan here
    gives up after a whole board. *)
Fixpoint find_rook (n : nat) (p : Position) (rook rsq step : Z) : Z :=
  match n with
  | O => rsq
  | S n' => if piece_on p rsq =? rook then rsq
            else find_rook n' p rook (rsq + step) step
  end.

(** 3. Castling availability. *)
Fixpoint set_castling (ss : list ascii) (p : Position) : Position * list ascii :=
  match ss with
  | [] => (p, [])
  | token0 :: rest =>
      if isspace token0 then (p, rest)
      else
        let c := if islower token0 then BLACK else WHITE in
        let rook := make_piece c ROOK in
        let token := toupper token0 in
        if Ascii.eqb token "K"
        then set_castling rest
               (set_castling_right p c
                  (find_rook 64 p rook (relative_square c SQ_H1) (-1)))
        else if Ascii.eqb token "Q"
        then set_castling rest
               (set_castling_right p c
                  (find_rook 64 p rook (relative_square c SQ_A1) 1))
        else if (65 <=? char_code token) && (char_code token <=? 72)
        then set_castling rest
               (set_castling_right p c
                  (make_square (char_code token - 65) (relative_rank c RANK_1)))
        else set_castling rest p
  end.

(** 4. En passant square: the two reads, short-circuited as in the source.
    The result is the parsed square, if both characters fit, and the rest of
    the stream. *)
Definition set_ep_read (ss : list ascii) : option Z * list ascii :=
  match ss with
  | [] => (None, [])
  | col :: rest =>
      if (97 <=? char_code col) && (char_code col <=? 104)
      then match rest with
           | [] => (None, [])
           | row :: rest2 =>
               if Ascii.eqb row "3" || Ascii.eqb row "6"
               then (Some (make_square (char_code col - 97) (char_code row - 49)),
                     rest2)
               else (None, rest2)
           end
      else (None, rest)
  end.

Fixpoint skip_ws (ss : list ascii) : list ascii :=
  match ss with
  | c :: rest => if isspace c then skip_ws rest else ss
  | [] => []
  end.

Fixpoint read_digits (ss : list ascii) (acc : Z) : Z * list ascii :=
  match ss with
  | c :: rest => if isdigit c then read_digits rest (10 * acc + (char_code c - 48))
                 else (acc, ss)
  | [] => (acc, [])
  end.

(** [ss >> std::skipws >> n] for an [int]: blanks, an optional sign, digits.
    [None] is a failed extraction.  Numbers are assumed to fit an [int]. *)
Definition read_int (ss : list ascii) : option (Z * list ascii) :=
  let ss1 := skip_ws ss in
  let '(neg, ss2) :=
    match ss1 with
    | c :: rest => if Ascii.eqb c "-" then (true, rest)
                   else if Ascii.eqb c "+" then (false, rest)
                   else (false, ss1)
    | [] => (false, [])
    end in
  match ss2 with
  | c :: _ =>
      if isdigit c
      then let '(n, rest) := read_digits ss2 0 in
           Some (if neg then - n else n, rest)
      else None
  | [] => None
  end.

(** [Position& Position::set(const string& fenStr, bool isChess960,
    StateInfo* si, Thread* th)]. *)
Definition Position_set (fenStr : string) (isChess960 : bool) : Position :=
  let ss := list_ascii_of_string fenStr in
  let p0 := Position_zero in
  (* 1. Piece placement *)
  let '(p1, ss1) := set_placement ss p0 SQ_A8 in
  (* 2. Active color *)
  let '(stm, ss2) :=
    match ss1 with
    | token :: rest => (if Ascii.eqb token "w" then WHITE else BLACK, rest)
    | [] => (BLACK, [])
    end in
  let p2 := set_sideToMove stm p1 in
  let ss3 := match ss2 with _ :: rest => rest | [] => [] end in
  (* 3. Castling availability *)
  let '(p3, ss4) := set_castling ss3 p2 in
  (* 4. En passant square *)
  let '(epo, ss5) := set_ep_read ss4 in
  let ep :=
    match epo with
    | Some sq =>
        if negb (to_bool (Z.land (attackers_to_sq p3 sq) (pieces_c_pt p3 stm PAWN)))
           || negb (to_bool (Z.land (pieces_c_pt p3 (flip_color stm) PAWN)
                                    (square_bb (sq + pawn_push (flip_color stm)))))
        then SQ_NONE else sq
    | None => SQ_NONE
    end in
  let p4 := with_st (set_epSquare ep) p3 in
  (* 5-6. Halfmove clock and fullmove number *)
  let '(r50, ply) :=
    match read_int ss5 with
    | Some (a, ss6) =>
        match read_int ss6 with
        | Some (b, _) => (a, b)
        | None => (a, 0)
        end
    | None => (0, 0)
    end in
  let p5 := with_st (set_rule50 r50) p4 in
  let gp := Z.max (2 * (Z.max ply (Z.quot r50 2 + 1) - 1)) 0
            + (if stm =? BLACK then 1 else 0) in
  let p6 := set_gamePly gp p5 in
  let p7 := mkPosition (board p6) (byTypeBB p6) (byColorBB p6) (pieceCount p6)
              (pieceList p6) (index p6) (castlingRightsMask p6)
              (castlingRookSquare p6) (castlingPath p6) (gamePly p6)
              (sideToMove p6) (st p6) isChess960 in
  set_st (set_state p7 (st p7)) p7.

(** [UCI::square(s)]: file letter and rank digit. *)
Definition UCI_square (s : Z) : string :=
  String (char_of_code (97 + file_of s))
         (String (char_of_code (49 + rank_of s)) EmptyString).

(** An [int] written to an [ostream]. *)
Definition string_of_int (z : Z) : string := NilZero.string_of_int (Z.to_int z).

(** One rank of [fen()]: the loop over files with its inner count of empty
    squares ([n] bounds the two loops together: eight files and the exit). *)
Fixpoint fen_rank (n : nat) (p : Position) (r f emptyCnt : Z) : string :=
  let flush := if emptyCnt >? 0 then string_of_int emptyCnt else EmptyString in
  match n with
  | O => flush
  | S n' =>
      if f >? FILE_H then flush
      else if empty p (make_square f r)
      then fen_rank n' p r (f + 1) (emptyCnt + 1)
      else append flush
             (String (nth (Z.to_nat (piece_on p (make_square f r))) PieceToChar " "%char)
                     (fen_rank n' p r (f + 1) 0))
  end.

(** [const string Position::fen() const]. *)
Definition fen (p : Position) : string :=
  let ranks :=
    fold_left (fun acc r =>
                 append acc (append (fen_rank 9 p r FILE_A 0)
                                    (if r >? RANK_1 then "/" else "")%string))
              (map (fun i => RANK_8 - i) (zrange 0 8)) EmptyString in
  let side := if sideToMove p =? WHITE then " w "%string else " b "%string in
  let rook_char (base : Z) (cr : Z) (std : ascii) : string :=
    if can_castle p cr
    then String (if chess960 p
                 then char_of_code (base + file_of (castling_rook_square p cr))
                 else std) EmptyString
    else EmptyString in
  let castle :=
    append (rook_char 65 WHITE_OO "K"%char)
      (append (rook_char 65 WHITE_OOO "Q"%char)
         (append (rook_char 97 BLACK_OO "k"%char)
            (append (rook_char 97 BLACK_OOO "q"%char)
               (if negb (can_castle p ANY_CASTLING) then "-"%string else ""%string)))) in
  let ep := if ep_square p =? SQ_NONE then " - "%string
            else append " "%string (append (UCI_square (ep_square p)) " "%string) in
  append ranks
    (append side
       (append castle
          (append ep
             (append (string_of_int (rule50 (st p)))
                (append " "%string
                   (string_of_int
                      (1 + Z.quot (gamePly p - (if sideToMove p =? BLACK then 1 else 0)) 2))))))).

(* ===================================================================== *)
(** * Move mechanics (position.cpp) *)
(* ===================================================================== *)

(** [template<bool Do> void Position::do_castling(Color us, Square from,
    Square& to, Square& rfrom, Square& rto)].  The three reference
    parameters come back with the position: king destination, rook origin,
    rook destination. *)
Definition do_castling (Do : bool) (p : Position) (us from to : Z)
  : Position * Z * Z * Z :=
  let kingSide := to >? from in
  let rfrom := to in
  let rto := relative_square us (if kingSide then SQ_F1 else SQ_D1) in
  let to' := relative_square us (if kingSide then SQ_G1 else SQ_C1) in
  (* Remove both pieces first since squares could overlap in Chess960 *)
  let p1 := remove_piece p (make_piece us KING) (if Do then from else to') in
  let p2 := remove_piece p1 (make_piece us ROOK) (if Do then rfrom else rto) in
  let p3 := set_board
              (aset (aset (board p2) (if Do then rfrom else rto) NO_PIECE)
                    (if Do then from else to') NO_PIECE) p2 in
  let p4 := put_piece p3 (make_piece us KING) (if Do then to' else from) in
  let p5 := put_piece p4 (make_piece us ROOK) (if Do then rto else rfrom) in
  (p5, to', rfrom, rto).

(** [stp->previous->previous]; [None] is a null pointer on the way. *)
Definition previous2 (s : StateInfo) : option StateInfo :=
  match previous s with
  | Some s1 => previous s1
  | None => None
  end.

(** The loop [for (int i = 4; i <= end; i += 2)] of [do_move].  A null
    [previous] cannot be met while [pliesFromNull] counts real states; the
    model answers 0 there. *)
Fixpoint repetition_loop (n : nat) (stp : StateInfo) (i end_ k : Z) : Z :=
  match n with
  | O => 0
  | S n' =>
      if i <=? end_
      then match previous2 stp with
           | Some stp' =>
               if key stp' =? k
               then (if to_bool (repetition stp') then - i else i)
               else repetition_loop n' stp' (i + 2) end_ k
           | None => 0
           end
      else 0
  end.

(** The repetition block that closes [do_move]. *)
Definition do_move_repetition (s : StateInfo) : StateInfo :=
  let s0 := set_repetition 0 s in
  let end_ := Z.min (rule50 s0) (pliesFromNull s0) in
  if end_ >=? 4
  then match previous2 s0 with
       | Some stp =>
           set_repetition (repetition_loop (Z.to_nat end_) stp 4 end_ (key s0)) s0
       | None => s0
       end
  else s0.

(** The block [if (captured) { ... }] of [do_move]: the position and the
    running key [k] after it. *)
Definition do_move_capture (p : Position) (m us them to captured k : Z)
  : Position * Z :=
  if to_bool captured
  then
    let capsq0 := to in
    let '(p1, capsq) :=
      if type_of captured =? PAWN
      then
        let '(pa, capsq) :=
          if type_of_move m =? ENPASSANT
          then let capsq := capsq0 - pawn_push us in
               (set_board (aset (board p) capsq NO_PIECE) p, capsq)
          else (p, capsq0) in
        (with_st (fun s => set_pawnKey
                    (Z.lxor (pawnKey s) (Zobrist_psq captured capsq)) s) pa,
         capsq)
      else
        (with_st (fun s => set_nonPawnMaterial
                    (aset (nonPawnMaterial s) them
                          (aget 0 (nonPawnMaterial s) them
                           - aget 0 PieceValueMG captured)) s) p,
         capsq0) in
    (* Update board and piece lists *)
    let p2 := remove_piece p1 captured capsq in
    (* Update material hash key *)
    let k1 := Z.lxor k (Zobrist_psq captured capsq) in
    let p3 := with_st (fun s => set_materialKey
                 (Z.lxor (materialKey s)
                    (Zobrist_psq captured (aget 0 (pieceCount p2) captured))) s) p2 in
    (* Reset rule 50 counter *)
    (with_st (set_rule50 0) p3, k1)
  else (p, k).

(** The block [if (type_of(pc) == PAWN) { ... }] of [do_move]. *)
Definition do_move_pawn (p : Position) (m us them from to pc k : Z)
  : Position * Z :=
  if type_of pc =? PAWN
  then
    let '(p1, k1) :=
      if (Z.lxor to from =? 16)
         && to_bool (Z.land (attacks_from_pawn (to - pawn_push us) us)
                            (pieces_c_pt p them PAWN))
      then
        let p1 := with_st (set_epSquare (to - pawn_push us)) p in
        (p1, Z.lxor k (Zobrist_enpassant (file_of (epSquare (st p1)))))
      else if type_of_move m =? PROMOTION
      then
        let promotion := make_piece us (promotion_type m) in
        let pa := remove_piece p pc to in
        let pb := put_piece pa promotion to in
        (* Update hash keys *)
        let k1 := Z.lxor k (Z.lxor (Zobrist_psq pc to) (Zobrist_psq promotion to)) in
        let pc1 := with_st (fun s => set_pawnKey
                      (Z.lxor (pawnKey s) (Zobrist_psq pc to)) s) pb in
        let pd := with_st (fun s => set_materialKey
                     (Z.lxor (materialKey s)
                        (Z.lxor (Zobrist_psq promotion
                                   (aget 0 (pieceCount pc1) promotion - 1))
                                (Zobrist_psq pc (aget 0 (pieceCount pc1) pc)))) s)
                    pc1 in
        (* Update material *)
        (with_st (fun s => set_nonPawnMaterial
                    (aset (nonPawnMaterial s) us
                          (aget 0 (nonPawnMaterial s) us
                           + aget 0 PieceValueMG promotion)) s) pd,
         k1)
      else (p, k) in
    (* Update pawn hash key *)
    let p2 := with_st (fun s => set_pawnKey
                 (Z.lxor (pawnKey s)
                         (Z.lxor (Zobrist_psq pc from) (Zobrist_psq pc to))) s) p1 in
    (* Reset rule 50 draw counter *)
    (with_st (set_rule50 0) p2, k1)
  else (p, k).

(** [void Position::do_move(Move m, StateInfo& newSt, bool givesCheck)].
    [newSt] is the caller's storage as it is before the call; the node
    counter of the owning thread is not part of the position. *)
Definition do_move (p : Position) (m : Z) (newSt : StateInfo)
           (givesCheck : bool) : Position :=
  let k0 := Z.lxor (key (st p)) Zobrist_side in
  (* std::memcpy(&newSt, st, offsetof(StateInfo, key));
     newSt.previous = st; st = &newSt *)
  let old := st p in
  let st0 :=
    mkStateInfo (pawnKey old) (materialKey old) (nonPawnMaterial old)
      (castlingRights old) (rule50 old) (pliesFromNull old) (epSquare old)
      (key newSt) (checkersBB newSt) (capturedPiece newSt) (Some old)
      (blockersForKing newSt) (pinners newSt) (checkSquares newSt)
      (repetition newSt) in
  let p0 := set_st st0 p in
  (* Increment ply counters *)
  let p1 := set_gamePly (gamePly p0 + 1) p0 in
  let p2 := with_st (fun s => set_rule50 (rule50 s + 1) s) p1 in
  let p3 := with_st (fun s => set_pliesFromNull (pliesFromNull s + 1) s) p2 in
  let us := sideToMove p3 in
  let them := flip_color us in
  let from := from_sq m in
  let to0 := to_sq m in
  let pc := piece_on p3 from in
  let captured0 := if type_of_move m =? ENPASSANT then make_piece them PAWN
                   else piece_on p3 to0 in
  let '(p4, to, k1, captured) :=
    if type_of_move m =? CASTLING
    then
      let '(q, to', rfrom, rto) := do_castling true p3 us from to0 in
      (q, to',
       Z.lxor k0 (Z.lxor (Zobrist_psq captured0 rfrom) (Zobrist_psq captured0 rto)),
       NO_PIECE)
    else (p3, to0, k0, captured0) in
  let '(p5, k2) := do_move_capture p4 m us them to captured k1 in
  (* Update hash key *)
  let k3 := Z.lxor k2 (Z.lxor (Zobrist_psq pc from) (Zobrist_psq pc to)) in
  (* Reset en passant square *)
  let '(p6, k4) :=
    if negb (epSquare (st p5) =? SQ_NONE)
    then (with_st (set_epSquare SQ_NONE) p5,
          Z.lxor k3 (Zobrist_enpassant (file_of (epSquare (st p5)))))
    else (p5, k3) in
  (* Update castling rights if needed *)
  let '(p7, k5) :=
    if to_bool (castlingRights (st p6))
       && to_bool (Z.lor (aget 0 (castlingRightsMask p6) from)
                         (aget 0 (castlingRightsMask p6) to))
    then
      let cr := Z.lor (aget 0 (castlingRightsMask p6) from)
                      (aget 0 (castlingRightsMask p6) to) in
      (with_st (fun s => set_castlingRights
                  (Z.land (castlingRights s) (Z.lnot cr)) s) p6,
       Z.lxor k4 (Zobrist_castling (Z.land (castlingRights (st p6)) cr)))
    else (p6, k4) in
  (* Move the piece. The tricky Chess960 castling is handled earlier *)
  let p8 := if negb (type_of_move m =? CASTLING)
            then move_piece p7 pc from to else p7 in
  (* If the moving piece is a pawn do some special extra work *)
  let '(p9, k6) := do_move_pawn p8 m us them from to pc k5 in
  (* Set capture piece; update the key with the final value *)
  let p10 := with_st (set_capturedPiece captured) p9 in
  let p11 := with_st (set_key k6) p10 in
  (* Calculate checkers bitboard (if move gives check) *)
  let p12 := with_st (set_checkersBB
                (if givesCheck
                 then Z.land (attackers_to_sq p11 (square_of p11 KING them))
                             (pieces_c p11 us)
                 else 0)) p11 in
  let p13 := set_sideToMove (flip_color (sideToMove p12)) p12 in
  (* Update king attacks used for fast check detection *)
  let p14 := with_st (set_check_info p13) p13 in
  (* Calculate the repetition info *)
  with_st do_move_repetition p14.

(** [void Position::undo_move(Move m)]. *)
Definition undo_move (p : Position) (m : Z) : Position :=
  let p0 := set_sideToMove (flip_color (sideToMove p)) p in
  let us := sideToMove p0 in
  let from := from_sq m in
  let to := to_sq m in
  let pc0 := piece_on p0 to in
  let '(p1, pc) :=
    if type_of_move m =? PROMOTION
    then
      let pa := remove_piece p0 pc0 to in
      let pc := make_piece us PAWN in
      (put_piece pa pc to, pc)
    else (p0, pc0) in
  let p2 :=
    if type_of_move m =? CASTLING
    then let '(q, _, _, _) := do_castling false p1 us from to in q
    else
      (* Put the piece back at the source square *)
      let pa := move_piece p1 pc to from in
      if to_bool (capturedPiece (st pa))
      then
        let capsq := if type_of_move m =? ENPASSANT then to - pawn_push us else to in
        (* Restore the captured piece *)
        put_piece pa (capturedPiece (st pa)) capsq
      else pa in
  (* Finally point our state pointer back to the previous state *)
  let p3 := match previous (st p2) with
            | Some s => set_st s p2
            | None => p2   (* null [previous]: no move to take back *)
            end in
  set_gamePly (gamePly p3 - 1) p3.

(** [void Position::do_null_move(StateInfo& newSt)]: every field of the
    state is copied ([sizeof(StateInfo)]). *)
Definition do_null_move (p : Position) (newSt : StateInfo) : Position :=
  let p0 := set_st (set_previous (Some (st p)) (st p)) p in
  let p1 :=
    if negb (epSquare (st p0) =? SQ_NONE)
    then with_st (fun s => set_epSquare SQ_NONE
                    (set_key (Z.lxor (key s)
                                (Zobrist_enpassant (file_of (epSquare s)))) s)) p0
    else p0 in
  let p2 := with_st (fun s => set_key (Z.lxor (key s) Zobrist_side) s) p1 in
  let p3 := with_st (fun s => set_rule50 (rule50 s + 1) s) p2 in
  let p4 := with_st (set_pliesFromNull 0) p3 in
  let p5 := set_sideToMove (flip_color (sideToMove p4)) p4 in
  let p6 := with_st (set_check_info p5) p5 in
  with_st (set_repetition 0) p6.

(** [void Position::undo_null_move()]. *)
Definition undo_null_move (p : Position) : Position :=
  let p1 := match previous (st p) with
            | Some s => set_st s p
            | None => p
            end in
  set_sideToMove (flip_color (sideToMove p1)) p1.

(** [Key Position::key_after(Move m) const]. *)
Definition key_after (p : Position) (m : Z) : Z :=
  let from := from_sq m in
  let to := to_sq m in
  let pc := piece_on p from in
  let captured := piece_on p to in
  let k := Z.lxor (key (st p)) Zobrist_side in
  let k1 := if to_bool captured then Z.lxor k (Zobrist_psq captured to) else k in
  Z.lxor (Z.lxor k1 (Zobrist_psq pc to)) (Zobrist_psq pc from).

(** [bool Position::is_draw(int ply) const]. *)
Definition is_draw (p : Position) (ply : Z) : bool :=
  to_bool (repetition (st p)) && (repetition (st p) <? ply).

(** The loop [while (end-- >= 4)] of [has_repeated]. *)
Fixpoint has_repeated_loop (n : nat) (stc : StateInfo) (end_ : Z) : bool :=
  match n with
  | O => false
  | S n' =>
      if end_ >=? 4
      then if to_bool (repetition stc) then true
           else match previous stc with
                | Some s => has_repeated_loop n' s (end_ - 1)
                | None => false
                end
      else false
  end.

(** [bool Position::has_repeated() const]. *)
Definition has_repeated (p : Position) : bool :=
  let end_ := Z.min (rule50 (st p)) (pliesFromNull (st p)) in
  has_repeated_loop (Z.to_nat end_) (st p) end_.

(* ===================================================================== *)
(** * Static exchange evaluation (position.cpp) *)
(* ===================================================================== *)

(** [for (Pt = PAWN; Pt <= KING; ++Pt)]: the least valuable type among
    [stmAttackers], with the bitboard [b] of its attackers; [KING] when no
    lesser piece attacks. *)
Fixpoint see_next_attacker (p : Position) (stmAttackers : Z) (pts : list Z)
  : Z * Z :=
  match pts with
  | [] => (KING, 0)
  | Pt :: rest =>
      let b := Z.land stmAttackers (aget 0 (byTypeBB p) Pt) in
      if to_bool b then (Pt, b) else see_next_attacker p stmAttackers rest
  end.

(** The loop [while (true)] of [see_ge].  Every turn that does not leave the
    loop takes one piece out of [occupied]; [n] bounds the number of turns
    and [None] stands for a loop that has not left after [n] turns. *)
Fixpoint see_ge_loop (n : nat) (p : Position) (to stm occupied attackers
                     balance result : Z) : option bool :=
  match n with
  | O => None
  | S n' =>
      let stm := flip_color stm in
      let attackers := Z.land attackers occupied in
      let stmAttackers := Z.land attackers (pieces_c p stm) in
      (* 1st check: if stm has no more attackers, stm loses! *)
      if negb (to_bool stmAttackers) then Some (to_bool result)
      else
        let stmAttackers :=
          if to_bool (Z.land (aget 0 (pinners (st p)) (flip_color stm)) occupied)
          then Z.land stmAttackers
                      (Z.lnot (aget 0 (blockersForKing (st p)) stm))
          else stmAttackers in
        (* 2nd check *)
        if negb (to_bool stmAttackers) then Some (to_bool result)
        else
          let result := Z.lxor result 1 in
          let '(Pt, b) :=
            see_next_attacker p stmAttackers [PAWN; KNIGHT; BISHOP; ROOK; QUEEN] in
          if Pt =? KING
          then Some (to_bool
                       (if to_bool (Z.land attackers (pieces_c p (flip_color stm)))
                        then Z.lxor result 1 else result))
          else
            let balance := - balance - aget 0 PieceValueMG Pt - 1 in
            if balance >=? VALUE_ZERO then Some (to_bool result)
            else
              let occupied := Z.lxor occupied (square_bb (lsb b)) in
              let attackers :=
                if (Pt =? PAWN) || (Pt =? BISHOP) || (Pt =? QUEEN)
                then Z.lor attackers
                       (Z.land (attacks_bb BISHOP to occupied)
                               (Z.lor (aget 0 (byTypeBB p) BISHOP)
                                      (aget 0 (byTypeBB p) QUEEN)))
                else attackers in
              let attackers :=
                if (Pt =? ROOK) || (Pt =? QUEEN)
                then Z.lor attackers
                       (Z.land (attacks_bb ROOK to occupied)
                               (Z.lor (aget 0 (byTypeBB p) ROOK)
                                      (aget 0 (byTypeBB p) QUEEN)))
                else attackers in
              see_ge_loop n' p to stm occupied attackers balance result
  end.

(** [bool Position::see_ge(Move m, Value threshold) const].  A board of 64
    squares lets the loop turn at most 65 times; [None] would be a loop that
    is still running then. *)
Definition see_ge (p : Position) (m threshold : Z) : option bool :=
  (* Only deal with normal moves, assume others pass a simple see *)
  if negb (type_of_move m =? NORMAL) then Some (VALUE_ZERO >=? threshold)
  else
    let from := from_sq m in
    let to := to_sq m in
    let balance := aget 0 PieceValueMG (piece_on p to) - threshold in
    if balance <? VALUE_ZERO then Some false
    else
      let balance := balance - aget 0 PieceValueMG (piece_on p from) in
      if balance >=? VALUE_ZERO then Some true
      else
        let stm := color_of (piece_on p from) in
        let occupied := Z.lxor (Z.lxor (pieces p) (square_bb from)) (square_bb to) in
        let attackers := attackers_to p to occupied in
        see_ge_loop 65 p to stm occupied attackers balance 1.

(* ===================================================================== *)
(** * Concrete positions and moves used by the examples *)
(* ===================================================================== *)

Definition StartFEN : string :=
  "rnbqkbnr/pppppppp/8/8/8/8/PPPPPPPP/RNBQKBNR w KQkq - 0 1"%string.

Definition StartPos : Position := Position_set StartFEN false.

Definition SQ_E2 : Z := 12.
Definition SQ_E3 : Z := 20.
Definition SQ_E4 : Z := 28.
Definition SQ_D5 : Z := 35.
Definition SQ_D7 : Z := 51.
Definition SQ_F3 : Z := 21.
Definition SQ_G8 : Z := 62.
Definition SQ_F6 : Z := 45.
Definition FILE_E : Z := 4.

Definition move_e2e4 : Z := make_move SQ_E2 SQ_E4.
Definition move_d7d5 : Z := make_move SQ_D7 SQ_D5.
Definition move_e4d5 : Z := make_move SQ_E4 SQ_D5.

(** A line of play: each move is made into fresh zeroed storage, with the
    check flag the caller passes. *)
Definition play (p : Position) (ms : list (Z * bool)) : Position :=
  fold_left (fun q mg => do_move q (fst mg) StateInfo_zero (snd mg)) ms p.

(** Nf3 Nf6 Ng1 Ng8, twice. *)
Definition knight_dance : list (Z * bool) :=
  let four := [(make_move SQ_G1 SQ_F3, false); (make_move SQ_G8 SQ_F6, false);
               (make_move SQ_F3 SQ_G1, false); (make_move SQ_F6 SQ_G8, false)] in
  four ++ four.

(** [s] ends with [suffix]. *)
Definition ends_with (s suffix : string) : bool :=
  let n := String.length s in
  let k := String.length suffix in
  (k <=? n)%nat && String.eqb (substring (n - k) k s) suffix.

(* ===================================================================== *)
(** * Well-formedness predicates used by the theorems *)
(* ===================================================================== *)

(** A bitboard is a 64-bit unsigned value. *)
Definition bitboard_ok (b : Z) : Prop := 0 <= b < 2 ^ 64.

(** The number of squares of a bitboard, counted square by square. *)
Definition bb_size (b : Z) : nat :=
  length (filter (Z.testbit b) (zrange 0 64)).

(** No square beyond H8. *)
Definition hi_clear (b : Z) : Prop := forall i, 64 <= i -> Z.testbit b i = false.

(** A pawn takes a pawn that another pawn defends. *)
Definition SeePos : Position :=
  Position_set "4k3/8/2p5/3p4/4P3/8/8/4K3 w - - 0 1" false.

(* ===================================================================== *)
(** * Transposition table: clearing and occupancy (tt.cpp) *)
(* ===================================================================== *)

(** [std::memset(&table[start], 0, len * sizeof(Cluster))]: the clusters
    [start], ..., [start + len - 1] are zeroed. *)
Definition memset_clusters (t : list Cluster) (start len : Z) : list Cluster :=
  map (fun ic => if (start <=? fst ic) && (fst ic <? start + len)
                 then Cluster_zero else snd ic)
      (combine (zrange 0 (length t)) t).

(** The body of the thread [idx] of [TranspositionTable::clear]: it zeroes
    its stride of the table, the last thread taking the remainder too. *)
Definition clear_thread (clusterCount threadCount idx : Z) (t : list Cluster)
  : list Cluster :=
  let stride := clusterCount / threadCount in
  let start := stride * idx in
  let len := if negb (idx =? threadCount - 1) then stride
             else clusterCount - start in
  memset_clusters t start len.

(** [void TranspositionTable::clear()], [threadCount] being
    [Options["Threads"]].  The threads write disjoint parts of the table and
    are joined before the function returns; their effects are composed here
    in the order the threads are created. *)
Definition TranspositionTable_clear (tt : TranspositionTable) (threadCount : Z)
  : TranspositionTable :=
  mkTT (clusterCount tt)
       (fold_left (fun t idx => clear_thread (clusterCount tt) threadCount idx t)
                  (zrange 0 (Z.to_nat threadCount)) (table tt))
       (generation8 tt).

(** The test of [hashfull] on one entry:
    [(genBound8 & 0xF8) == generation8]. *)
Definition current_generation (gen8 : Z) (e : TTEntry) : bool :=
  Z.land (genBound8 e) 248 =? gen8.

(** [int TranspositionTable::hashfull() const]. *)
Definition hashfull (tt : TranspositionTable) : Z :=
  let samples := if clusterCount tt >? 64000000 then 10000 else 1000 in
  let stride := clusterCount tt / samples in
  let cnt :=
    fold_left
      (fun cnt i =>
         fold_left
           (fun cnt j =>
              cnt + of_bool (current_generation (generation8 tt)
                               (nth j (entry (aget Cluster_zero (table tt) (i * stride)))
                                    TTEntry_zero)))
           (seq 0 ClusterSize) cnt)
      (zrange 0 (Z.to_nat samples)) 0 in
  Z.quot (cnt * 1000) (samples * Z.of_nat ClusterSize).

(** The entry a pointer returned by [probe] designates. *)
Definition entry_at (tt : TranspositionTable) (p : nat * nat) : TTEntry :=
  nth (snd p) (entry (nth (fst p) (table tt) Cluster_zero)) TTEntry_zero.

(** A table as [resize] and [clear] leave it and [new_search] ages it:
    [clusterCount] clusters of three entries, a generation that is a multiple
    of 8 below 256. *)
Definition table_ok (tt : TranspositionTable) : Prop :=
  0 < clusterCount tt < 2 ^ 32
  /\ Z.of_nat (length (table tt)) = clusterCount tt
  /\ (forall c, In c (table tt) -> length (entry c) = ClusterSize)
  /\ 0 <= generation8 tt < 256 /\ Z.land (generation8 tt) 7 = 0.

(* ===================================================================== *)
(** * State history and hash keys: notions used by the theorems *)
(* ===================================================================== *)

(** The state [n] plies back: [st->previous->...->previous], [None] when the
    chain ends before. *)
Fixpoint nth_previous (n : nat) (s : StateInfo) : option StateInfo :=
  match n with
  | O => Some s
  | S k => match previous s with
           | Some s' => nth_previous k s'
           | None => None
           end
  end.

(** The hash keys kept in the current state are the ones [set_state]
    computes from scratch. *)
Definition keys_consistent (p : Position) : Prop :=
  key (st p) = key (set_state p (st p))
  /\ pawnKey (st p) = pawnKey (set_state p (st p))
  /\ materialKey (st p) = materialKey (set_state p (st p)).

(** [x] is the only occupied square strictly between [s] and [sq]. *)
Definition sole_blocker (s occupancy sq x : Z) : Prop :=
  Z.land (between_bb s sq) occupancy = square_bb x.

(** The snipers of [slider_blockers]: the rooks, bishops and queens among
    [sliders] that would attack [s] on an empty board. *)
Definition snipers_of (p : Position) (sliders s : Z) : Z :=
  Z.land (Z.lor (Z.land (PseudoAttacks ROOK s) (pieces_pt2 p QUEEN ROOK))
                (Z.land (PseudoAttacks BISHOP s) (pieces_pt2 p QUEEN BISHOP)))
         sliders.

(** Two positions that differ at most in the piece placement and in the
    state: castling descriptors, ply counter, side to move and the Chess960
    flag are the same. *)
Definition same_frame (p q : Position) : Prop :=
  castlingRightsMask q = castlingRightsMask p
  /\ castlingRookSquare q = castlingRookSquare p
  /\ castlingPath q = castlingPath p
  /\ gamePly q = gamePly p
  /\ sideToMove q = sideToMove p
  /\ chess960 q = chess960 p.



(* ===================================================================== *)
(** * Theorems: transposition table *)
(* ===================================================================== *)

Lemma tt_match_dec k16 e :
  negb (to_bool (key16 e)) || (key16 e =? k16) = true <-> tt_match k16 e.
Proof.
  unfold tt_match, to_bool. rewrite orb_true_iff, negb_involutive, !Z.eqb_eq.
  tauto.
Qed.

Lemma tt_match_dec_false k16 e :
  negb (to_bool (key16 e)) || (key16 e =? k16) = false <-> ~ tt_match k16 e.
Proof.
  rewrite <- tt_match_dec. destruct (_ || _); split; congruence.
Qed.

Lemma list3 {A : Type} (l : list A) :
  length l = 3%nat -> exists a b c, l = [a; b; c].
Proof.
  destruct l as [|a [|b [|c [|? ?]]]]; simpl; try discriminate.
  intros _. now exists a, b, c.
Qed.

Lemma zrange_forallb (P : Z -> bool) lo n :
  forallb P (zrange lo n) = true ->
  forall x, lo <= x < lo + Z.of_nat n -> P x = true.
Proof.
  intros H x Hx. rewrite forallb_forall in H. apply H.
  unfold zrange. apply in_map_iff. exists (Z.to_nat (x - lo)). split.
  - lia.
  - apply in_seq. lia.
Qed.

Lemma land7_range x : 0 <= Z.land x 7 < 8.
Proof.
  change 7 with (Z.ones 3). rewrite Z.land_ones by lia.
  apply Z.mod_pos_bound. reflexivity.
Qed.

Lemma refresh_low_bits gen8 e :
  0 <= gen8 < 256 -> Z.land gen8 7 = 0 ->
  Z.land (genBound8 (refresh gen8 e)) 7 = Z.land (genBound8 e) 7
  /\ Z.land (genBound8 (refresh gen8 e)) 248 = gen8.
Proof.
  intros Hr H7. unfold refresh; simpl.
  pose proof (land7_range (genBound8 e)) as Hb.
  set (r := Z.land (genBound8 e) 7) in *. clearbody r.
  pose (P := fun g => forallb (fun r =>
     implb (Z.land g 7 =? 0)
       ((Z.land (uint8_t (Z.lor g r)) 7 =? r)
        && (Z.land (uint8_t (Z.lor g r)) 248 =? g))) (zrange 0 8)).
  assert (HP : forallb P (zrange 0 256) = true) by (vm_compute; reflexivity).
  pose proof (zrange_forallb P 0 256 HP gen8 ltac:(lia)) as H1.
  unfold P in H1.
  pose proof (zrange_forallb _ 0 8 H1 r ltac:(lia)) as H2. simpl in H2.
  rewrite H7 in H2. simpl in H2.
  apply andb_true_iff in H2. rewrite !Z.eqb_eq in H2. exact H2.
Qed.

Lemma probe_cluster_spec gen8 k16 tte :
  length tte = ClusterSize ->
  0 <= gen8 < 256 -> Z.land gen8 7 = 0 ->
  let '(found, i, tte') := probe_cluster gen8 k16 tte in
  let e := nth i tte TTEntry_zero in
  (i < ClusterSize)%nat /\
  (   (tt_match k16 e
       /\ (forall j, (j < i)%nat -> ~ tt_match k16 (nth j tte TTEntry_zero))
       /\ found = negb (key16 e =? 0)
       /\ tte' = upd tte i (refresh gen8 e))
   \/ ((forall j, (j < ClusterSize)%nat -> ~ tt_match k16 (nth j tte TTEntry_zero))
       /\ found = false
       /\ tte' = tte
       /\ (forall j, (j < ClusterSize)%nat ->
             replace_value gen8 e <= replace_value gen8 (nth j tte TTEntry_zero))
       /\ (forall j, (j < i)%nat ->
             replace_value gen8 e < replace_value gen8 (nth j tte TTEntry_zero)))).
Proof.
  intros Hlen Hg H7.
  destruct (list3 tte Hlen) as (e0 & e1 & e2 & ->).
  unfold probe_cluster, ClusterSize in *. simpl firstn. unfold probe_scan.
  destruct (negb (to_bool (key16 e0)) || (key16 e0 =? k16)) eqn:M0.
  { simpl. split; [lia|]. left. apply tt_match_dec in M0.
    repeat split; auto. intros j Hj; lia. }
  destruct (negb (to_bool (key16 e1)) || (key16 e1 =? k16)) eqn:M1.
  { simpl. split; [lia|]. left. apply tt_match_dec in M1.
    apply tt_match_dec_false in M0.
    repeat split; auto. intros j Hj. assert (j = 0%nat) as -> by lia. exact M0. }
  destruct (negb (to_bool (key16 e2)) || (key16 e2 =? k16)) eqn:M2.
  { simpl. split; [lia|]. left. apply tt_match_dec in M2.
    apply tt_match_dec_false in M0, M1.
    repeat split; auto. intros j Hj.
    assert (j = 0 \/ j = 1)%nat as [-> | ->] by lia; assumption. }
  apply tt_match_dec_false in M0, M1, M2.
  assert (Hall : forall j, (j < 3)%nat ->
                   ~ tt_match k16 (nth j [e0; e1; e2] TTEntry_zero)).
  { intros j Hj.
    assert (j = 0 \/ j = 1 \/ j = 2)%nat as [-> | [-> | ->]] by lia; assumption. }
  simpl probe_replace.
  set (v0 := replace_value gen8 e0). set (v1 := replace_value gen8 e1).
  set (v2 := replace_value gen8 e2).
  destruct (Z.gtb_spec v0 v1) as [C1|C1]; simpl nth.
  - fold v1 v2. destruct (Z.gtb_spec v1 v2) as [C2|C2]; simpl nth;
      (split; [lia|]); right;
      (split; [exact Hall|]); (split; [reflexivity|]); (split; [reflexivity|]);
      split; intros j Hj;
      (assert (j = 0 \/ j = 1 \/ j = 2)%nat as [-> | [-> | ->]] by lia);
      simpl; fold v0 v1 v2; lia.
  - fold v0 v2. destruct (Z.gtb_spec v0 v2) as [C2|C2]; simpl nth;
      (split; [lia|]); right;
      (split; [exact Hall|]); (split; [reflexivity|]); (split; [reflexivity|]);
      split; intros j Hj;
      (assert (j = 0 \/ j = 1 \/ j = 2)%nat as [-> | [-> | ->]] by lia);
      simpl; fold v0 v1 v2; lia.
Qed.

Lemma byte_split x : 0 <= x < 256 -> x = Z.land x 248 + Z.land x 7.
Proof.
  intros Hx.
  pose (P := fun x => x =? Z.land x 248 + Z.land x 7).
  assert (HP : forallb P (zrange 0 256) = true) by (vm_compute; reflexivity).
  pose proof (zrange_forallb P 0 256 HP x ltac:(lia)) as HPx.
  apply Z.eqb_eq in HPx. exact HPx.
Qed.

(** C6.  [probe(key, found)] scans the three entries of the addressed cluster
    in order.  At the first entry that is empty ([key16 = 0]) or holds the
    high 16 bits of [key] it refreshes the generation in [genBound8], keeps
    the three low PV/bound bits, leaves every other field and every other
    entry alone, and returns that entry with [found = (key16 <> 0)].  When no
    entry matches it changes nothing and returns [found = false] with the
    entry of least replacement value
    [depth8 - ((263 + generation8 - genBound8) & 0xF8)], the earliest one
    among equals.  The table is assumed well formed: the addressed cluster
    has its three entries and [generation8] is a multiple of 8 below 256. *)
Theorem probe_spec (tt : TranspositionTable) (key : Z) :
  let c := first_entry tt key in
  let tte := entry (nth c (table tt) Cluster_zero) in
  let k16 := uint16_t (Z.shiftr key 48) in
  let gen8 := generation8 tt in
  (c < length (table tt))%nat ->
  length tte = ClusterSize ->
  0 <= gen8 < 256 -> Z.land gen8 7 = 0 ->
  let '(found, (c', i), tt') := probe tt key in
  let e := nth i tte TTEntry_zero in
  c' = c /\ (i < ClusterSize)%nat /\
  (   (tt_match k16 e
       /\ (forall j, (j < i)%nat -> ~ tt_match k16 (nth j tte TTEntry_zero))
       /\ found = negb (key16 e =? 0)
       /\ table tt' = upd (table tt) c (mkCluster (upd tte i (refresh gen8 e)))
       /\ refresh gen8 e =
            mkTTEntry (key16 e) (move16 e) (value16 e) (eval16 e)
                      (gen8 + Z.land (genBound8 e) 7) (depth8 e)
       /\ Z.land (genBound8 (refresh gen8 e)) 7 = Z.land (genBound8 e) 7
       /\ Z.land (genBound8 (refresh gen8 e)) 248 = gen8)
   \/ ((forall j, (j < ClusterSize)%nat -> ~ tt_match k16 (nth j tte TTEntry_zero))
       /\ found = false
       /\ table tt' = upd (table tt) c (mkCluster tte)
       /\ (forall j, (j < ClusterSize)%nat ->
             replace_value gen8 e <= replace_value gen8 (nth j tte TTEntry_zero))
       /\ (forall j, (j < i)%nat ->
             replace_value gen8 e < replace_value gen8 (nth j tte TTEntry_zero)))).
Proof.
  intros c tte k16 gen8 Hc Hlen Hg H7.
  unfold probe. fold c. fold tte. fold k16. fold gen8.
  pose proof (probe_cluster_spec gen8 k16 tte Hlen Hg H7) as H.
  destruct (probe_cluster gen8 k16 tte) as [[found i] tte'].
  simpl. destruct H as [Hi H]. split; [reflexivity|]. split; [exact Hi|].
  destruct H as [(Hm & Hfirst & Hf & Ht) | (Hn & Hf & Ht & Hmin & Htie)].
  - left. repeat split; auto.
    + now rewrite Ht.
    + pose proof (refresh_low_bits gen8 (nth i tte TTEntry_zero) Hg H7) as [H3 H8].
      assert (Hx : 0 <= genBound8 (refresh gen8 (nth i tte TTEntry_zero)) < 256)
        by (apply Z.mod_pos_bound; lia).
      apply byte_split in Hx. rewrite H8, H3 in Hx.
      unfold refresh in *. simpl in *. f_equal. exact Hx.
    + apply (refresh_low_bits gen8 _ Hg H7).
    + apply (refresh_low_bits gen8 _ Hg H7).
  - right. repeat split; auto. now rewrite Ht.
Qed.

(** Witness for C6: an empty three-entry cluster probed in generation 8. *)
Lemma probe_spec_witness :
  fst (fst (probe (mkTT 1 [Cluster_zero] 8) 5)) = false.
Proof.
  pose proof (probe_spec (mkTT 1 [Cluster_zero] 8) 5) as H.
  cbv zeta in H.
  specialize (H ltac:(vm_compute; lia) ltac:(reflexivity)
                ltac:(simpl; lia) ltac:(reflexivity)).
  vm_compute in H.
  destruct H as (_ & _ & [(_ & _ & H & _) | (_ & H & _)]); exact H.
Defined.

(** C7.  [TTEntry::save] writes [move16] exactly when the new move is not
    null or the entry holds another key, so that a move stored for the same
    position survives a null move; it overwrites [key16], [value16],
    [eval16], [genBound8] and [depth8] exactly when the key changed, or the
    new depth exceeds the stored depth minus 4, or the bound is exact, and
    leaves those five fields alone otherwise. *)
Theorem save_spec (gen8 : Z) (e : TTEntry) (k v : Z) (pv : bool) (b : Bound)
        (d m ev : Z) :
  let newKey := uint16_t (Z.shiftr k 48) in
  let e' := save gen8 e k v pv b d m ev in
  move16 e' = (if negb (m =? 0) || negb (newKey =? key16 e)
               then uint16_t m else move16 e)
  /\
  (if negb (newKey =? key16 e) || (d >? depth8 e - 4) || Bound_eqb b BOUND_EXACT
   then key16 e' = newKey
        /\ value16 e' = int16_t v
        /\ eval16 e' = int16_t ev
        /\ genBound8 e' =
             uint8_t (Z.lor (Z.lor gen8 (Z.shiftl (uint8_t (of_bool pv)) 2))
                            (Bound_code b))
        /\ depth8 e' = int8_t d
   else key16 e' = key16 e
        /\ value16 e' = value16 e
        /\ eval16 e' = eval16 e
        /\ genBound8 e' = genBound8 e
        /\ depth8 e' = depth8 e).
Proof.
  intros newKey e'. subst e'. unfold save. fold newKey. unfold to_bool.
  destruct (negb (m =? 0) || negb (newKey =? key16 e)) eqn:Hm;
    cbn [key16 move16 value16 eval16 genBound8 depth8];
    destruct (negb (newKey =? key16 e) || (d >? depth8 e - 4)
              || Bound_eqb b BOUND_EXACT) eqn:Hc;
    cbn [key16 move16 value16 eval16 genBound8 depth8];
    repeat split; reflexivity.
Qed.

(** The boolean tests of [save_spec] read as propositions. *)
Lemma Bound_eqb_eq a b : Bound_eqb a b = true <-> a = b.
Proof.
  destruct a, b; unfold Bound_eqb; simpl; split; intro H;
    try reflexivity; discriminate.
Qed.

Lemma save_keeps_move gen8 e k v pv b d :
  key16 e = uint16_t (Z.shiftr k 48) ->
  move16 (save gen8 e k v pv b d 0 v) = move16 e.
Proof.
  intros Hk. destruct (save_spec gen8 e k v pv b d 0 v) as [H _].
  cbv zeta in H. rewrite H, <- Hk, !Z.eqb_refl. reflexivity.
Qed.

Lemma probe_scan_some k16 l : forall n i,
  probe_scan k16 l n = Some i ->
  (n <= i)%nat /\ (i - n < length l)%nat
  /\ tt_match k16 (nth (i - n) l TTEntry_zero).
Proof.
  induction l as [|x l IH]; simpl; intros n i Hi; [discriminate|].
  destruct (negb (to_bool (key16 x)) || (key16 x =? k16)) eqn:Hx.
  - injection Hi as <-. rewrite Nat.sub_diag. apply tt_match_dec in Hx.
    repeat split; [lia|lia|exact Hx].
  - apply IH in Hi. destruct Hi as (Hle & Hlt & Hm).
    replace (i - n)%nat with (S (i - S n)) by lia.
    repeat split; [lia|lia|exact Hm].
Qed.

Lemma nth_firstn_lt {A : Type} (d : A) (l : list A) : forall n i,
  (i < length (firstn n l))%nat -> nth i (firstn n l) d = nth i l d.
Proof.
  induction l as [|x l IH]; intros n i Hlt.
  - rewrite firstn_nil in *. reflexivity.
  - destruct n; [simpl in Hlt; lia|]. destruct i; [reflexivity|].
    simpl in *. apply IH. lia.
Qed.

Lemma probe_cluster_found_key gen8 k16 tte :
  fst (fst (probe_cluster gen8 k16 tte)) = true -> k16 <> 0.
Proof.
  unfold probe_cluster.
  destruct (probe_scan k16 (firstn ClusterSize tte) 0) as [i|] eqn:Hs;
    cbn [fst]; [|discriminate].
  intros Hf Hk. subst k16.
  apply probe_scan_some in Hs. destruct Hs as (_ & Hlt & Hm).
  rewrite Nat.sub_0_r in *. rewrite nth_firstn_lt in Hm by exact Hlt.
  unfold to_bool in Hf. destruct Hm as [Hm|Hm]; rewrite Hm in Hf; discriminate.
Qed.

(** C10.  A key whose high 16 bits are zero is never reported as found:
    [probe] answers [found = false] for it on every table, and in particular
    on the table obtained by saving that very key into the entry a first
    probe returned. *)
Theorem probe_zero_key16_not_found (tt : TranspositionTable) (key : Z) :
  0 <= key < 2 ^ 64 ->
  Z.shiftr key 48 = 0 ->
  fst (fst (probe tt key)) = false
  /\ forall (v : Z) (pv : bool) (b : Bound) (d m ev : Z),
       let '(_, p, tt1) := probe tt key in
       fst (fst (probe (TT_save tt1 p key v pv b d m ev) key)) = false.
Proof.
  intros Hkey Hhi.
  assert (Hall : forall t, fst (fst (probe t key)) = false).
  { intros t. unfold probe.
    destruct (probe_cluster (generation8 t) (uint16_t (Z.shiftr key 48))
                (entry (nth (first_entry t key) (table t) Cluster_zero)))
      as [[found i] tte'] eqn:Hp.
    cbn [fst]. destruct found; [|reflexivity]. exfalso.
    apply (probe_cluster_found_key (generation8 t) (uint16_t (Z.shiftr key 48))
             (entry (nth (first_entry t key) (table t) Cluster_zero))).
    - rewrite Hp. reflexivity.
    - rewrite Hhi. reflexivity. }
  split; [apply Hall|].
  intros v pv b d m ev.
  destruct (probe tt key) as [[f p] tt1]. apply Hall.
Qed.

(** Witness for C10: key 5 is saved with an exact bound into an empty table
    and probed again. *)
Lemma probe_zero_key16_not_found_witness :
  fst (fst (probe (TT_save (snd (probe (mkTT 1 [Cluster_zero] 8) 5))
                           (snd (fst (probe (mkTT 1 [Cluster_zero] 8) 5)))
                           5 100 true BOUND_EXACT 7 77 50) 5)) = false.
Proof.
  pose proof (probe_zero_key16_not_found (mkTT 1 [Cluster_zero] 8) 5
                ltac:(vm_compute; split; [discriminate|reflexivity])
                ltac:(reflexivity)) as [_ H].
  specialize (H 100 true BOUND_EXACT 7 77 50).
  exact H.
Defined.


(* ===================================================================== *)
(** * Theorems: Zobrist tables, repetition draws, the first move *)
(* ===================================================================== *)

Lemma Zobrist_is_init : Zobrist = Position_init.
Proof. vm_compute. reflexivity. Qed.

Lemma Zobrist_castling_xor a b :
  0 <= a < 16 -> 0 <= b < 16 ->
  Z.lxor (Zobrist_castling a) (Zobrist_castling b) = Zobrist_castling (Z.lxor a b).
Proof.
  intros Ha Hb.
  pose (P := fun a => forallb (fun b =>
     Z.lxor (Zobrist_castling a) (Zobrist_castling b)
     =? Zobrist_castling (Z.lxor a b)) (zrange 0 16)).
  assert (HP : forallb P (zrange 0 16) = true) by (vm_compute; reflexivity).
  pose proof (zrange_forallb P 0 16 HP a ltac:(lia)) as H1. unfold P in H1.
  pose proof (zrange_forallb _ 0 16 H1 b ltac:(lia)) as H2. simpl in H2.
  apply Z.eqb_eq in H2. exact H2.
Qed.

(** C9.  After [Position::init()] the castling keys compose under XOR: the
    key of the empty mask is 0 and, for all 4-bit masks [a] and [b],
    [castling[a] ^ castling[b] = castling[a ^ b]]. *)
Theorem init_castling_xor_composable :
  aget 0 (Z_castling Position_init) NO_CASTLING = 0
  /\ forall a b, 0 <= a < 16 -> 0 <= b < 16 ->
       Z.lxor (aget 0 (Z_castling Position_init) a)
              (aget 0 (Z_castling Position_init) b)
       = aget 0 (Z_castling Position_init) (Z.lxor a b).
Proof.
  rewrite <- Zobrist_is_init. split.
  - vm_compute. reflexivity.
  - intros a b Ha Hb. apply (Zobrist_castling_xor a b Ha Hb).
Qed.

(** Witness for C9: white's two rights against black's king side. *)
Lemma init_castling_xor_composable_witness :
  Z.lxor (aget 0 (Z_castling Position_init) 3)
         (aget 0 (Z_castling Position_init) 5)
  = aget 0 (Z_castling Position_init) 6.
Proof.
  exact (proj2 init_castling_xor_composable 3 5
           ltac:(lia) ltac:(lia)).
Defined.

(** C4, the claim as stated fails: after Nf3 Nf6 Ng1 Ng8 played twice from
    the starting position the position has occurred three times,
    [repetition] is -4, and [is_draw(2)] answers true although
    [|repetition| = 4] is not below 2. *)
Lemma is_draw_abs_counterexample :
  ~ (forall (p : Position) (ply : Z),
       is_draw p ply = true
       <-> (repetition (st p) <> 0 /\ Z.abs (repetition (st p)) < ply)).
Proof.
  intros H.
  destruct (H (play StartPos knight_dance) 2) as [H1 _].
  assert (Hd : is_draw (play StartPos knight_dance) 2 = true)
    by (vm_compute; reflexivity).
  destruct (H1 Hd) as [_ Habs].
  assert (Hr : repetition (st (play StartPos knight_dance)) = -4)
    by (vm_compute; reflexivity).
  rewrite Hr in Habs. simpl in Habs. lia.
Qed.

(** C4, amended.  [is_draw(ply)] answers true exactly when [repetition] is
    not zero and, as a signed number, below [ply]; a negative [repetition]
    (a position met for the third time) is therefore a draw at every ply
    that is not below it. *)
Theorem is_draw_spec (p : Position) (ply : Z) :
  is_draw p ply = true
  <-> (repetition (st p) <> 0 /\ repetition (st p) < ply).
Proof.
  unfold is_draw, to_bool.
  rewrite andb_true_iff, negb_true_iff, Z.eqb_neq, Z.ltb_lt. tauto.
Qed.

(** C3, the claim as stated fails: after e2e4 from the starting position no
    black pawn can take on e3 and [ep_square()] is [SQ_NONE], not E3. *)
Lemma start_e2e4_ep_counterexample :
  ~ (let p := do_move StartPos move_e2e4 StateInfo_zero false in
     ep_square p = SQ_E3
     /\ rule50_count p = 0
     /\ ends_with (fen p) "e3 0 1" = true
     /\ Position_key p =
          Z.lxor (Z.lxor (Z.lxor (Z.lxor (Position_key StartPos)
                    (Zobrist_psq W_PAWN SQ_E2)) (Zobrist_psq W_PAWN SQ_E4))
                    Zobrist_side) (Zobrist_enpassant FILE_E)).
Proof.
  cbv zeta. intros [H _].
  assert (He : ep_square (do_move StartPos move_e2e4 StateInfo_zero false) = SQ_NONE)
    by (vm_compute; reflexivity).
  rewrite He in H. discriminate H.
Qed.

(** C3, amended.  From the starting position, after [do_move] of e2e4 (into
    any storage, with any check flag): [ep_square()] is [SQ_NONE] because no
    black pawn attacks e3, [rule50_count()] is 0, [fen()] ends with
    ["- 0 1"], and the key is the starting key XOR [psq[W_PAWN][e2]] XOR
    [psq[W_PAWN][e4]] XOR [side], with no en-passant term. *)
Theorem start_e2e4_spec (newSt : StateInfo) (givesCheck : bool) :
  let p := do_move StartPos move_e2e4 newSt givesCheck in
  ep_square p = SQ_NONE
  /\ rule50_count p = 0
  /\ fen p = "rnbqkbnr/pppppppp/8/8/4P3/8/PPPP1PPP/RNBQKBNR b KQkq - 0 1"%string
  /\ ends_with (fen p) "- 0 1" = true
  /\ Position_key p =
       Z.lxor (Z.lxor (Z.lxor (Position_key StartPos)
                 (Zobrist_psq W_PAWN SQ_E2)) (Zobrist_psq W_PAWN SQ_E4))
                 Zobrist_side.
Proof.
  destruct givesCheck; vm_compute; repeat split; reflexivity.
Qed.


(* ===================================================================== *)
(** * Theorems: static exchange evaluation *)
(* ===================================================================== *)

Section SeeLoop.

Variable p : Position.





End SeeLoop.

(** ** Bit-level facts *)

Lemma ctz_spec q : 0 <= ctz q /\ Z.testbit (Zpos q) (ctz q) = true.
Proof.
  induction q as [q IH|q IH|]; cbn [ctz].
  - split; [lia|reflexivity].
  - destruct IH as [IH0 IH1]. split; [lia|].
    change (Zpos q~0) with (2 * Zpos q).
    replace (1 + ctz q) with (Z.succ (ctz q)) by lia.
    rewrite Z.testbit_even_succ by exact IH0. exact IH1.
  - split; [lia|reflexivity].
Qed.

Lemma lsb_spec b : 0 < b -> 0 <= lsb b /\ Z.testbit b (lsb b) = true.
Proof.
  destruct b as [|q|q]; try lia. intros _. apply ctz_spec.
Qed.

Lemma bitboard_ok_hi_clear b : bitboard_ok b -> hi_clear b.
Proof.
  intros [H0 H1] i Hi.
  rewrite <- (Z.mod_small b (2 ^ 64)) by lia.
  apply Z.mod_pow2_bits_high. lia.
Qed.

Lemma hi_clear_nonneg b : hi_clear b -> 0 <= b.
Proof.
  intros H.
  apply (Z.bits_iff_nonneg b (Z.max 64 (Z.log2 (Z.abs b) + 1))); [lia|].
  apply H. lia.
Qed.

Lemma hi_clear_land_l a b : hi_clear a -> hi_clear (Z.land a b).
Proof. intros H i Hi. rewrite Z.land_spec, (H i Hi). reflexivity. Qed.

Lemma hi_clear_land_r a b : hi_clear b -> hi_clear (Z.land a b).
Proof. intros H i Hi. rewrite Z.land_spec, (H i Hi). apply andb_false_r. Qed.

Lemma testbit_square_bb s i :
  0 <= s -> Z.testbit (square_bb s) i = (s =? i).
Proof.
  intros Hs. unfold square_bb. rewrite Z.shiftl_1_l.
  apply Z.pow2_bits_eqb. exact Hs.
Qed.

Lemma in_zrange x lo n : In x (zrange lo n) <-> lo <= x < lo + Z.of_nat n.
Proof.
  unfold zrange. rewrite in_map_iff. split.
  - intros (i & <- & Hi). apply in_seq in Hi. lia.
  - intros Hx. exists (Z.to_nat (x - lo)). split; [lia|]. apply in_seq. lia.
Qed.

Lemma filter_length_lt {A : Type} (P Q : A -> bool) (l : list A) (x0 : A) :
  (forall x, In x l -> Q x = true -> P x = true) ->
  In x0 l -> P x0 = true -> Q x0 = false ->
  (length (filter Q l) < length (filter P l))%nat.
Proof.
  induction l as [|x l IH]; intros Hsub Hin HP HQ; [destruct Hin|].
  assert (Hle : forall l', (forall x, In x l' -> Q x = true -> P x = true) ->
                  (length (filter Q l') <= length (filter P l'))%nat).
  { induction l' as [|y l' IH']; intros Hs; [simpl; lia|].
    simpl. specialize (IH' (fun x Hx => Hs x (or_intror Hx))).
    pose proof (Hs y (or_introl eq_refl)) as Hy.
    destruct (Q y); destruct (P y); simpl; try lia.
    all: specialize (Hy eq_refl); discriminate. }
  simpl. destruct Hin as [-> | Hin].
  - rewrite HP, HQ. simpl.
    specialize (Hle l (fun x Hx => Hsub x (or_intror Hx))). lia.
  - specialize (IH (fun x Hx => Hsub x (or_intror Hx)) Hin HP HQ).
    pose proof (Hsub x (or_introl eq_refl)) as Hx.
    destruct (Q x); destruct (P x); simpl; try lia.
    all: specialize (Hx eq_refl); discriminate.
Qed.

(** Taking a square out of a bitboard makes it smaller. *)
Lemma bb_size_remove occ s :
  0 <= s < 64 -> Z.testbit occ s = true ->
  (bb_size (Z.lxor occ (square_bb s)) < bb_size occ)%nat.
Proof.
  intros Hs Hbit. unfold bb_size.
  apply filter_length_lt with (x0 := s).
  - intros x Hx. rewrite Z.lxor_spec, testbit_square_bb by lia.
    destruct (Z.eqb_spec s x) as [->|Hne].
    + rewrite Hbit. discriminate.
    + now rewrite xorb_false_r.
  - apply in_zrange. simpl. lia.
  - exact Hbit.
  - rewrite Z.lxor_spec, testbit_square_bb, Hbit, Z.eqb_refl by lia. reflexivity.
Qed.

Lemma bb_size_le_64 occ : (bb_size occ <= 64)%nat.
Proof.
  unfold bb_size.
  etransitivity; [apply filter_length_le|].
  unfold zrange. rewrite length_map, length_seq. lia.
Qed.

Lemma hi_clear_remove occ s :
  0 <= s < 64 -> hi_clear occ -> hi_clear (Z.lxor occ (square_bb s)).
Proof.
  intros Hs H i Hi. rewrite Z.lxor_spec, (H i Hi), testbit_square_bb by lia.
  destruct (Z.eqb_spec s i); [lia|reflexivity].
Qed.

Lemma to_bool_true x : to_bool x = true <-> x <> 0.
Proof. unfold to_bool. rewrite negb_true_iff, Z.eqb_neq. tauto. Qed.

Lemma to_bool_false x : to_bool x = false <-> x = 0.
Proof. unfold to_bool. rewrite negb_false_iff, Z.eqb_eq. tauto. Qed.

Section SeeTotal.

Variable p : Position.



End SeeTotal.












Example see_ge_pawn_takes_defended_pawn :
  see_ge SeePos move_e4d5 0 = Some true /\ see_ge SeePos move_e4d5 1 = Some false.
Proof. split; vm_compute; reflexivity. Qed.


(* ===================================================================== *)
(** * Arrays: reads after writes *)
(* ===================================================================== *)

Lemma length_upd {A : Type} (l : list A) : forall n v, length (upd l n v) = length l.
Proof.
  induction l as [|x l IH]; intros [|n] v; simpl; auto.
Qed.

Lemma nth_upd_eq {A : Type} (d : A) (l : list A) : forall n v,
  (n < length l)%nat -> nth n (upd l n v) d = v.
Proof.
  induction l as [|x l IH]; intros [|n] v H; simpl in *; try lia; auto.
  apply IH. lia.
Qed.

Lemma nth_upd_ne {A : Type} (d : A) (l : list A) : forall n k v,
  n <> k -> nth k (upd l n v) d = nth k l d.
Proof.
  induction l as [|x l IH]; intros [|n] [|k] v H; simpl in *; auto; try lia.
Qed.

Lemma upd_upd {A : Type} (l : list A) : forall n v w,
  upd (upd l n v) n w = upd l n w.
Proof.
  induction l as [|x l IH]; intros [|n] v w; simpl; auto. now rewrite IH.
Qed.

Lemma upd_nth {A : Type} (d : A) (l : list A) : forall n,
  upd l n (nth n l d) = l.
Proof.
  induction l as [|x l IH]; intros [|n]; simpl; auto. now rewrite IH.
Qed.

Lemma length_aset {A : Type} (l : list A) i v : length (aset l i v) = length l.
Proof. unfold aset. destruct (i <? 0); [reflexivity|apply length_upd]. Qed.

Lemma aget_aset_eq {A : Type} (d : A) (l : list A) i v :
  0 <= i < Z.of_nat (length l) -> aget d (aset l i v) i = v.
Proof.
  intros H. unfold aget, aset.
  destruct (Z.ltb_spec i 0); [lia|]. apply nth_upd_eq. lia.
Qed.

Lemma aget_aset_ne {A : Type} (d : A) (l : list A) i j v :
  i <> j -> aget d (aset l i v) j = aget d l j.
Proof.
  intros H. unfold aget, aset.
  destruct (Z.ltb_spec j 0); [reflexivity|].
  destruct (Z.ltb_spec i 0); [reflexivity|].
  apply nth_upd_ne. lia.
Qed.

Lemma aget_aset {A : Type} (d : A) (l : list A) i j v :
  0 <= i < Z.of_nat (length l) ->
  aget d (aset l i v) j = if i =? j then v else aget d l j.
Proof.
  intros H. destruct (Z.eqb_spec i j) as [->|Hne].
  - now apply aget_aset_eq.
  - now apply aget_aset_ne.
Qed.

Lemma aset_aset {A : Type} (l : list A) i v w :
  aset (aset l i v) i w = aset l i w.
Proof. unfold aset. destruct (i <? 0); [reflexivity|apply upd_upd]. Qed.

Lemma aset_aget {A : Type} (d : A) (l : list A) i :
  aset l i (aget d l i) = l.
Proof.
  unfold aset, aget. destruct (i <? 0); [reflexivity|apply upd_nth].
Qed.


(** Two bitboards with the same squares are equal. *)
Lemma bits_ext a b :
  (forall x, 0 <= x -> Z.testbit a x = Z.testbit b x) -> a = b.
Proof. intros H. apply Z.bits_inj'. exact H. Qed.

Lemma testbit_mask (c : bool) s x :
  0 <= s -> Z.testbit (if c then square_bb s else 0) x = c && (s =? x).
Proof.
  intros Hs. destruct c; [apply testbit_square_bb; exact Hs|apply Z.bits_0].
Qed.


(* ===================================================================== *)
(** * Transposition table: clearing, occupancy, probe and save together *)
(* ===================================================================== *)

Lemma zrange_S lo n : zrange lo (S n) = zrange lo n ++ [lo + Z.of_nat n].
Proof. unfold zrange. rewrite seq_S, map_app. reflexivity. Qed.

Lemma length_zrange lo n : length (zrange lo n) = n.
Proof. unfold zrange. now rewrite length_map, length_seq. Qed.

Lemma nth_zrange lo n i d :
  (i < n)%nat -> nth i (zrange lo n) d = lo + Z.of_nat i.
Proof.
  intros H. unfold zrange.
  rewrite (nth_indep _ d (lo + Z.of_nat 0)) by now rewrite length_map, length_seq.
  rewrite (map_nth (fun i => lo + Z.of_nat i)), seq_nth by exact H. reflexivity.
Qed.

Lemma length_memset_clusters t start len :
  length (memset_clusters t start len) = length t.
Proof.
  unfold memset_clusters.
  rewrite length_map, length_combine, length_zrange. apply Nat.min_id.
Qed.

Lemma nth_memset_clusters t start len i :
  (i < length t)%nat ->
  nth i (memset_clusters t start len) Cluster_zero =
  if (start <=? Z.of_nat i) && (Z.of_nat i <? start + len)
  then Cluster_zero else nth i t Cluster_zero.
Proof.
  intros Hi. unfold memset_clusters.
  set (f := fun ic : Z * Cluster => _).
  rewrite (nth_indep _ Cluster_zero (f (0, Cluster_zero)))
    by (rewrite length_map, length_combine, length_zrange; lia).
  rewrite (map_nth f), combine_nth by now rewrite length_zrange.
  rewrite nth_zrange by exact Hi. unfold f. cbn [fst snd]. reflexivity.
Qed.

(** The threads [0 .. k-1] of [clear] have zeroed the clusters below
    [stride * k], and the whole table once the last thread is among them. *)
Lemma clear_threads_prefix cc n (t : list Cluster) :
  1 <= n -> Z.of_nat (length t) = cc ->
  forall k, (k <= Z.to_nat n)%nat ->
  let tk := fold_left (fun t idx => clear_thread cc n idx t) (zrange 0 k) t in
  length tk = length t
  /\ forall i, (i < length t)%nat ->
       Z.of_nat i < (if Z.of_nat k =? n then cc else cc / n * Z.of_nat k) ->
       nth i tk Cluster_zero = Cluster_zero.
Proof.
  intros Hn Hlen. induction k as [|k IH]; intros Hk.
  - split; [reflexivity|]. intros i Hi Hb.
    assert (E : (Z.of_nat 0 =? n) = false) by (apply Z.eqb_neq; lia).
    rewrite E in Hb. lia.
  - specialize (IH ltac:(lia)). cbv zeta in IH. destruct IH as [IHl IHz].
    cbv zeta. rewrite zrange_S, fold_left_app. cbn [fold_left].
    set (tk := fold_left _ (zrange 0 k) t) in *.
    unfold clear_thread. split.
    + now rewrite length_memset_clusters.
    + intros i Hi Hb. rewrite nth_memset_clusters by lia.
      replace (0 + Z.of_nat k) with (Z.of_nat k) by lia.
      assert (Hs : 0 <= cc / n) by (apply Z.div_pos; lia).
      assert (Hm : n * (cc / n) <= cc) by (apply Z.mul_div_le; lia).
      destruct (Z.eqb_spec (Z.of_nat k) n) as [Ek|Ek]; [lia|].
      destruct (Z.leb_spec (cc / n * Z.of_nat k) (Z.of_nat i)) as [L|L].
      * cbn [andb].
        destruct (Z.eqb_spec (Z.of_nat k) (n - 1)) as [El|El]; cbn [negb].
        -- destruct (Z.eqb_spec (Z.of_nat (S k)) n); [|lia].
           destruct (Z.ltb_spec (Z.of_nat i)
                       (cc / n * Z.of_nat k + (cc - cc / n * Z.of_nat k)));
             [reflexivity|lia].
        -- destruct (Z.eqb_spec (Z.of_nat (S k)) n); [lia|].
           destruct (Z.ltb_spec (Z.of_nat i)
                       (cc / n * Z.of_nat k + cc / n)); [reflexivity|nia].
      * cbn [andb]. apply IHz; [exact Hi|exact L].
Qed.

Lemma nth_all_repeat {A : Type} (d : A) (l : list A) :
  (forall i, (i < length l)%nat -> nth i l d = d) -> l = repeat d (length l).
Proof.
  intros H. apply (nth_ext _ _ d d).
  - now rewrite repeat_length.
  - intros i Hi. rewrite H by exact Hi. now rewrite nth_repeat.
Qed.

Lemma clear_table (tt : TranspositionTable) (n : Z) :
  1 <= n -> Z.of_nat (length (table tt)) = clusterCount tt ->
  table (TranspositionTable_clear tt n)
  = repeat Cluster_zero (length (table tt)).
Proof.
  intros Hn Hlen. unfold TranspositionTable_clear. cbn [table].
  destruct (clear_threads_prefix (clusterCount tt) n (table tt) Hn Hlen
              (Z.to_nat n) (le_n _)) as [Hl Hz].
  cbv zeta in Hl, Hz. rewrite <- Hl. apply nth_all_repeat.
  intros i Hi. apply Hz; [lia|].
  rewrite Z2Nat.id by lia. rewrite Z.eqb_refl. lia.
Qed.

(** X1. [clear] zeroes the whole table whatever the number of threads, as
    long as there is one: the strides of the threads, with the remainder
    that the last thread takes over, cover every cluster.  With no thread
    nothing is written. *)
Theorem clear_zeroes_every_cluster (tt : TranspositionTable) (threadCount : Z) :
  Z.of_nat (length (table tt)) = clusterCount tt ->
  (1 <= threadCount ->
     TranspositionTable_clear tt threadCount
     = mkTT (clusterCount tt) (repeat Cluster_zero (length (table tt)))
            (generation8 tt))
  /\ (threadCount <= 0 -> TranspositionTable_clear tt threadCount = tt).
Proof.
  intros Hlen. split; intros Hn.
  - pose proof (clear_table tt threadCount Hn Hlen) as H.
    unfold TranspositionTable_clear in *. cbn [table] in H. now rewrite H.
  - unfold TranspositionTable_clear.
    replace (Z.to_nat threadCount) with 0%nat by lia. cbn.
    now destruct tt.
Qed.

(** Seven clusters cleared by three threads: strides of two, the last thread
    clearing three. *)
Lemma clear_zeroes_every_cluster_witness :
  TranspositionTable_clear
    (mkTT 7 (repeat (mkCluster (repeat (mkTTEntry 1 2 3 4 5 6) 3)) 7) 8) 3
  = mkTT 7 (repeat Cluster_zero 7) 8.
Proof.
  exact (proj1 (clear_zeroes_every_cluster
                  (mkTT 7 (repeat (mkCluster (repeat (mkTTEntry 1 2 3 4 5 6) 3)) 7) 8)
                  3 eq_refl) ltac:(lia)).
Defined.

(** ** Occupancy *)

Lemma fold_count_bounds {A : Type} (f : A -> Z) (l : list A) :
  (forall x, 0 <= f x <= 1) ->
  forall a, a <= fold_left (fun c x => c + f x) l a <= a + Z.of_nat (length l).
Proof.
  intros Hf. induction l as [|x l IH]; intros a; cbn [fold_left length].
  - lia.
  - specialize (IH (a + f x)). specialize (Hf x). lia.
Qed.

Lemma fold_step_bounds {A : Type} (g : Z -> A -> Z) (w : Z) (l : list A) :
  (forall c x, c <= g c x <= c + w) ->
  forall a, a <= fold_left g l a <= a + w * Z.of_nat (length l).
Proof.
  intros Hg. induction l as [|x l IH]; intros a; cbn [fold_left length].
  - lia.
  - specialize (IH (g a x)). specialize (Hg a x). lia.
Qed.

Lemma of_bool_bounds b : 0 <= of_bool b <= 1.
Proof. destruct b; simpl; lia. Qed.

(** X2. [hashfull] answers in permill: its result lies between 0 and 1000 on
    every table. *)
Theorem hashfull_permill (tt : TranspositionTable) :
  0 <= hashfull tt <= 1000.
Proof.
  unfold hashfull.
  set (samples := if clusterCount tt >? 64000000 then 10000 else 1000).
  set (cnt := fold_left _ (zrange 0 (Z.to_nat samples)) 0).
  assert (Hs : 0 < samples) by (unfold samples; destruct (_ >? _); lia).
  assert (Hc : 0 <= cnt <= 3 * samples).
  { unfold cnt.
    match goal with |- _ <= fold_left ?g _ _ <= _ =>
      pose proof (fold_step_bounds g 3 (zrange 0 (Z.to_nat samples))) as H end.
    rewrite length_zrange in H.
    lapply H.
    - intros H'. specialize (H' 0). lia.
    - intros c x.
      match goal with |- _ <= fold_left ?f _ _ <= _ =>
        pose proof (fold_count_bounds
                      (fun j => of_bool (current_generation (generation8 tt)
                         (nth j (entry (aget Cluster_zero (table tt)
                                   (x * (clusterCount tt / samples))))
                              TTEntry_zero)))
                      (seq 0 ClusterSize)
                      (fun j => of_bool_bounds _) c) as H2 end.
      rewrite length_seq in H2. unfold ClusterSize in *. exact H2. }
  change (Z.of_nat ClusterSize) with 3.
  split.
  - apply Z.quot_pos; lia.
  - apply Z.quot_le_upper_bound; lia.
Qed.

Lemma fold_const_step {A : Type} (w : Z) (l : list A) :
  forall a, fold_left (fun c (_ : A) => c + w) l a = a + w * Z.of_nat (length l).
Proof.
  induction l as [|x l IH]; intros a; cbn [fold_left length].
  - lia.
  - rewrite IH. lia.
Qed.

Lemma fold_left_eq {A B : Type} (f g : A -> B -> A) (l : list B) :
  (forall a x, f a x = g a x) ->
  forall a, fold_left f l a = fold_left g l a.
Proof.
  intros H. induction l as [|x l IH]; intros a; cbn [fold_left].
  - reflexivity.
  - rewrite H. apply IH.
Qed.

Lemma aget_repeat {A : Type} (d : A) n i : aget d (repeat d n) i = d.
Proof.
  unfold aget. destruct (i <? 0); [reflexivity|].
  destruct (Nat.lt_ge_cases (Z.to_nat i) n).
  - now apply nth_repeat_lt.
  - apply nth_overflow. now rewrite repeat_length.
Qed.

Lemma hashfull_zero_table cc n gen8 :
  hashfull (mkTT cc (repeat Cluster_zero n) gen8)
  = if gen8 =? 0 then 1000 else 0.
Proof.
  unfold hashfull. cbn [clusterCount table generation8].
  set (samples := if cc >? 64000000 then 10000 else 1000).
  assert (Hs : samples = 1000 \/ samples = 10000)
    by (unfold samples; destruct (_ >? _); auto).
  rewrite (fold_left_eq _ (fun c (_ : Z) => c + 3 * of_bool (0 =? gen8))).
  2:{ intros c i. rewrite aget_repeat. cbn [seq ClusterSize fold_left].
      change (entry Cluster_zero) with [TTEntry_zero; TTEntry_zero; TTEntry_zero].
      cbn [nth].
      change (current_generation gen8 TTEntry_zero) with (0 =? gen8). lia. }
  rewrite fold_const_step, length_zrange.
  change (Z.of_nat ClusterSize) with 3.
  rewrite (Z.eqb_sym gen8 0).
  destruct (0 =? gen8); cbn [of_bool].
  - destruct Hs as [-> | ->]; reflexivity.
  - destruct Hs as [-> | ->]; reflexivity.
Qed.

(** X3. on a table that [clear] has just zeroed, [hashfull] reports 1000
    permill when [generation8] is 0 and 0 permill otherwise: an empty entry
    carries generation 0 and is counted as one of the current search exactly
    when the current generation is 0 too. *)
Theorem hashfull_after_clear (tt : TranspositionTable) (threadCount : Z) :
  Z.of_nat (length (table tt)) = clusterCount tt ->
  1 <= threadCount ->
  hashfull (TranspositionTable_clear tt threadCount)
  = if generation8 tt =? 0 then 1000 else 0.
Proof.
  intros Hlen Hn.
  pose proof (clear_table tt threadCount Hn Hlen) as H.
  unfold TranspositionTable_clear in *. cbn [table] in H. rewrite H.
  apply hashfull_zero_table.
Qed.

(** A table of 2000 clusters, cleared by two threads before the first
    search: every sampled entry counts. *)
Lemma hashfull_after_clear_witness :
  hashfull (TranspositionTable_clear (mkTT 2000 (repeat Cluster_zero 2000) 0) 2)
  = 1000.
Proof.
  exact (hashfull_after_clear (mkTT 2000 (repeat Cluster_zero 2000) 0) 2
           eq_refl ltac:(lia)).
Defined.

(** ** Replacement age *)

(** X4. the age term of the replacement score is eight times the number of
    searches since the entry was written, counted cyclically over the 32
    generations a byte can hold: the three low bits of [genBound8] (PV flag
    and bound) have no influence, and an overflow of [generation8] into the
    next cycle is accounted for. *)
Theorem replace_value_relative_age (gen8 : Z) (e : TTEntry) :
  0 <= gen8 < 256 -> Z.land gen8 7 = 0 ->
  0 <= genBound8 e < 256 ->
  replace_value gen8 e
  = depth8 e - 8 * ((gen8 / 8 - genBound8 e / 8) mod 32).
Proof.
  intros Hg H7 Hb. unfold replace_value. f_equal.
  pose (P := fun g => forallb (fun gb =>
     implb (Z.land g 7 =? 0)
       (Z.land (263 + g - gb) 248 =? 8 * ((g / 8 - gb / 8) mod 32)))
     (zrange 0 256)).
  assert (HP : forallb P (zrange 0 256) = true) by (vm_compute; reflexivity).
  pose proof (zrange_forallb P 0 256 HP gen8 ltac:(lia)) as H1.
  unfold P in H1.
  pose proof (zrange_forallb _ 0 256 H1 (genBound8 e) ltac:(lia)) as H2.
  cbv beta in H2. rewrite H7 in H2. cbn [Z.eqb implb] in H2.
  apply Z.eqb_eq in H2. exact H2.
Qed.

(** An entry written with a lower bound in generation 248, seen from
    generation 8 after the counter has wrapped: two searches old. *)
Lemma replace_value_relative_age_witness :
  replace_value 8 (mkTTEntry 1 0 0 0 250 20) = 20 - 8 * 2.
Proof.
  exact (replace_value_relative_age 8 (mkTTEntry 1 0 0 0 250 20)
           ltac:(lia) eq_refl ltac:(cbn; lia)).
Defined.

(** ** A probe, a save, a probe *)

Lemma first_entry_in_table (tt : TranspositionTable) (key : Z) :
  table_ok tt -> (first_entry tt key < length (table tt))%nat.
Proof.
  intros (Hcc & Hlen & _). unfold first_entry, uint32_t, uint64_t.
  rewrite (Z.mod_small (clusterCount tt)) by lia.
  pose proof (Z.mod_pos_bound key 4294967296 ltac:(lia)) as Hk.
  rewrite Z.shiftr_div_pow2 by lia.
  assert (key mod 4294967296 * clusterCount tt / 2 ^ 32 < clusterCount tt).
  { apply Z.div_lt_upper_bound; [lia|]. change (2 ^ 32) with 4294967296. nia. }
  assert (0 <= key mod 4294967296 * clusterCount tt / 2 ^ 32)
    by (apply Z.div_pos; nia).
  lia.
Qed.

Lemma table_ok_cluster (tt : TranspositionTable) (c : nat) :
  table_ok tt -> (c < length (table tt))%nat ->
  length (entry (nth c (table tt) Cluster_zero)) = ClusterSize.
Proof.
  intros (_ & _ & Hall & _) Hc. apply Hall. now apply nth_In.
Qed.

(** The first entry that answers the probe is the one [probe] returns. *)
Lemma probe_cluster_hit gen8 k16 tte i :
  length tte = ClusterSize -> (i < ClusterSize)%nat ->
  tt_match k16 (nth i tte TTEntry_zero) ->
  (forall j, (j < i)%nat -> ~ tt_match k16 (nth j tte TTEntry_zero)) ->
  probe_cluster gen8 k16 tte
  = (negb (key16 (nth i tte TTEntry_zero) =? 0), i,
     upd tte i (refresh gen8 (nth i tte TTEntry_zero))).
Proof.
  intros Hlen Hi Hm Hfirst.
  destruct (list3 tte Hlen) as (e0 & e1 & e2 & ->).
  unfold ClusterSize in Hi.
  assert (Hcase : (i = 0 \/ i = 1 \/ i = 2)%nat) by lia.
  unfold probe_cluster, ClusterSize. cbn [firstn probe_scan].
  destruct Hcase as [-> | [-> | ->]].
  - apply tt_match_dec in Hm. cbn [nth] in *. rewrite Hm. reflexivity.
  - pose proof (Hfirst 0%nat ltac:(lia)) as H0.
    apply tt_match_dec_false in H0. apply tt_match_dec in Hm.
    cbn [nth] in *. rewrite H0, Hm. reflexivity.
  - pose proof (Hfirst 0%nat ltac:(lia)) as H0.
    pose proof (Hfirst 1%nat ltac:(lia)) as H1.
    apply tt_match_dec_false in H0, H1. apply tt_match_dec in Hm.
    cbn [nth] in *. rewrite H0, H1, Hm. reflexivity.
Qed.

(** Whatever [save] does with the other fields, the entry holds the new key
    afterwards. *)
Lemma save_key16 gen8 e k v pv b d m ev :
  key16 (save gen8 e k v pv b d m ev) = uint16_t (Z.shiftr k 48).
Proof.
  unfold save. set (newKey := uint16_t (Z.shiftr k 48)).
  destruct (to_bool m || negb (newKey =? key16 e));
    cbn [key16 depth8];
    destruct (Z.eqb_spec newKey (key16 e)) as [E|E]; cbn [negb orb];
    try reflexivity;
    destruct ((d >? depth8 e - 4) || Bound_eqb b BOUND_EXACT);
    cbn [key16]; congruence.
Qed.


(** The byte [save] packs: generation in the five high bits, PV flag in bit
    2, bound in the two low bits; refreshing it in its own generation leaves
    it alone. *)
Lemma genBound8_packing gen8 pv b :
  0 <= gen8 < 256 -> Z.land gen8 7 = 0 ->
  let gb := uint8_t (Z.lor (Z.lor gen8 (Z.shiftl (uint8_t (of_bool pv)) 2))
                           (Bound_code b)) in
  Z.land gb 3 = Bound_code b /\ Z.testbit gb 2 = pv /\ Z.land gb 248 = gen8
  /\ uint8_t (Z.lor gen8 (Z.land gb 7)) = gb.
Proof.
  intros Hg H7.
  pose (P := fun g =>
     implb (Z.land g 7 =? 0)
       (forallb (fun pv => forallb (fun b =>
          let gb := uint8_t (Z.lor (Z.lor g (Z.shiftl (uint8_t (of_bool pv)) 2))
                                   (Bound_code b)) in
          (Z.land gb 3 =? Bound_code b) && Bool.eqb (Z.testbit gb 2) pv
          && (Z.land gb 248 =? g) && (uint8_t (Z.lor g (Z.land gb 7)) =? gb))
          [BOUND_NONE; BOUND_UPPER; BOUND_LOWER; BOUND_EXACT]) [false; true])).
  assert (HP : forallb P (zrange 0 256) = true) by (vm_compute; reflexivity).
  pose proof (zrange_forallb P 0 256 HP gen8 ltac:(lia)) as H1.
  unfold P in H1. rewrite H7 in H1. cbn [Z.eqb implb] in H1.
  rewrite forallb_forall in H1. specialize (H1 pv ltac:(destruct pv; simpl; auto)).
  rewrite forallb_forall in H1.
  specialize (H1 b ltac:(destruct b; simpl; auto)).
  cbv zeta in H1. rewrite !andb_true_iff, !Z.eqb_eq in H1.
  destruct H1 as [[[A B] C] D]. apply Bool.eqb_prop in B.
  cbv zeta. auto.
Qed.

Lemma refresh_refresh gen8 e :
  0 <= gen8 < 256 -> Z.land gen8 7 = 0 ->
  refresh gen8 (refresh gen8 e) = refresh gen8 e.
Proof.
  intros Hg H7. destruct (refresh_low_bits gen8 e Hg H7) as [H3 _].
  unfold refresh in *. cbn [key16 move16 value16 eval16 genBound8 depth8] in *.
  now rewrite H3.
Qed.

Lemma save_new_key gen8 e k v pv b d m ev :
  key16 e <> uint16_t (Z.shiftr k 48) ->
  save gen8 e k v pv b d m ev
  = mkTTEntry (uint16_t (Z.shiftr k 48)) (uint16_t m) (int16_t v) (int16_t ev)
      (uint8_t (Z.lor (Z.lor gen8 (Z.shiftl (uint8_t (of_bool pv)) 2))
                      (Bound_code b)))
      (int8_t d).
Proof.
  intros Hk. unfold save. set (newKey := uint16_t (Z.shiftr k 48)) in *.
  destruct (Z.eqb_spec newKey (key16 e)) as [E|E]; [congruence|].
  rewrite orb_true_r. cbn [key16 move16 negb orb].
  destruct (Z.eqb_spec newKey (key16 e)) as [E'|E']; [congruence|].
  reflexivity.
Qed.

(** An entry that a probe has refreshed, or that holds another key, is in
    the current generation once [save] has run on it. *)
Lemma save_fresh gen8 e k v pv b d m ev :
  0 <= gen8 < 256 -> Z.land gen8 7 = 0 ->
  refresh gen8 e = e \/ key16 e <> uint16_t (Z.shiftr k 48) ->
  refresh gen8 (save gen8 e k v pv b d m ev) = save gen8 e k v pv b d m ev.
Proof.
  intros Hg H7 [Hf|Hk].
  - destruct (genBound8_packing gen8 pv b Hg H7) as (_ & _ & _ & Hp).
    cbv zeta in Hp.
    destruct e as [ky mv vl evl gb dp]. unfold refresh in Hf.
    cbn [key16 move16 value16 eval16 genBound8 depth8] in Hf.
    injection Hf as Hgb.
    unfold save, refresh. cbn [key16 move16 value16 eval16 genBound8 depth8].
    destruct (to_bool m || negb (uint16_t (Z.shiftr k 48) =? ky));
      cbn [key16 move16 value16 eval16 genBound8 depth8];
      destruct (negb (uint16_t (Z.shiftr k 48) =? ky) || (d >? dp - 4)
                || Bound_eqb b BOUND_EXACT);
      cbn [key16 move16 value16 eval16 genBound8 depth8];
      congruence.
  - rewrite (save_new_key gen8 e k v pv b d m ev Hk).
    destruct (genBound8_packing gen8 pv b Hg H7) as (_ & _ & _ & Hp).
    cbv zeta in Hp. unfold refresh.
    cbn [key16 move16 value16 eval16 genBound8 depth8]. now rewrite Hp.
Qed.

Lemma probe_cluster_again gen8 k16 tte found i tte1 :
  length tte = ClusterSize ->
  0 <= gen8 < 256 -> Z.land gen8 7 = 0 ->
  probe_cluster gen8 k16 tte = (found, i, tte1) ->
  probe_cluster gen8 k16 tte1 = (found, i, tte1).
Proof.
  intros Hlen Hg H7 Hp.
  pose proof (probe_cluster_spec gen8 k16 tte Hlen Hg H7) as H.
  rewrite Hp in H. destruct H as [Hi [(Hm & Hfirst & Hf & Ht) | (_ & _ & Ht & _)]].
  - assert (Hil : (i < length tte)%nat) by (rewrite Hlen; exact Hi).
    rewrite (probe_cluster_hit gen8 k16 tte1 i).
    + subst tte1. rewrite (nth_upd_eq TTEntry_zero) by exact Hil.
      rewrite refresh_refresh, upd_upd by assumption.
      cbn [refresh key16]. now rewrite Hf.
    + subst tte1. now rewrite length_upd.
    + exact Hi.
    + subst tte1. rewrite (nth_upd_eq TTEntry_zero) by exact Hil. exact Hm.
    + intros j Hj. subst tte1. rewrite nth_upd_ne by lia. now apply Hfirst.
  - subst tte1. exact Hp.
Qed.

Lemma probe_save_probe_cluster gen8 k tte v pv b d m ev found i tte1 :
  let k16 := uint16_t (Z.shiftr k 48) in
  length tte = ClusterSize ->
  0 <= gen8 < 256 -> Z.land gen8 7 = 0 ->
  probe_cluster gen8 k16 tte = (found, i, tte1) ->
  let e2 := save gen8 (nth i tte1 TTEntry_zero) k v pv b d m ev in
  let tte2 := upd tte1 i e2 in
  (i < ClusterSize)%nat /\ length tte1 = ClusterSize
  /\ nth i tte2 TTEntry_zero = e2
  /\ probe_cluster gen8 k16 tte2 = (negb (k16 =? 0), i, tte2)
  /\ (found = false -> k16 <> 0 ->
      e2 = mkTTEntry k16 (uint16_t m) (int16_t v) (int16_t ev)
             (uint8_t (Z.lor (Z.lor gen8 (Z.shiftl (uint8_t (of_bool pv)) 2))
                             (Bound_code b)))
             (int8_t d)).
Proof.
  intros k16 Hlen Hg H7 Hp e2 tte2.
  pose proof (probe_cluster_spec gen8 k16 tte Hlen Hg H7) as H.
  rewrite Hp in H. destruct H as [Hi H].
  assert (Hil : (i < length tte)%nat) by (rewrite Hlen; exact Hi).
  assert (Hl1 : length tte1 = ClusterSize).
  { destruct H as [(_ & _ & _ & Ht) | (_ & _ & Ht & _)]; subst tte1;
      [now rewrite length_upd|exact Hlen]. }
  assert (Hbefore : forall j, (j < i)%nat ->
            ~ tt_match k16 (nth j tte1 TTEntry_zero)).
  { intros j Hj.
    destruct H as [(_ & Hfirst & _ & Ht) | (Hn & _ & Ht & _)]; subst tte1.
    - rewrite nth_upd_ne by lia. now apply Hfirst.
    - apply Hn. lia. }
  assert (Hfresh : refresh gen8 e2 = e2).
  { unfold e2. apply save_fresh; try assumption.
    destruct H as [(_ & _ & _ & Ht) | (Hn & _ & Ht & _)]; subst tte1.
    - left. rewrite (nth_upd_eq TTEntry_zero) by exact Hil.
      now apply refresh_refresh.
    - right. intros E. apply (Hn i Hi). right. exact E. }
  assert (He2 : nth i tte2 TTEntry_zero = e2).
  { unfold tte2. apply nth_upd_eq. now rewrite Hl1. }
  split; [exact Hi|]. split; [exact Hl1|]. split; [exact He2|]. split.
  - rewrite (probe_cluster_hit gen8 k16 tte2 i).
    + rewrite He2, Hfresh.
      replace (upd tte2 i e2) with tte2 by (unfold tte2; now rewrite upd_upd).
      unfold e2 at 1. rewrite save_key16. reflexivity.
    + unfold tte2. now rewrite length_upd.
    + exact Hi.
    + rewrite He2. right. unfold e2. apply save_key16.
    + intros j Hj. unfold tte2. rewrite nth_upd_ne by lia. now apply Hbefore.
  - intros Hfalse Hk. unfold e2. apply save_new_key. fold k16.
    destruct H as [(Hm & _ & Hf & Ht) | (Hn & _ & Ht & _)]; subst tte1.
    + rewrite (nth_upd_eq TTEntry_zero) by exact Hil. cbn [refresh key16].
      rewrite Hfalse in Hf. symmetry in Hf. apply negb_false_iff in Hf.
      apply Z.eqb_eq in Hf. lia.
    + intros E. apply (Hn i Hi). right. exact E.
Qed.

Lemma probe_inv (tt : TranspositionTable) (key : Z) found p tt1 :
  probe tt key = (found, p, tt1) ->
  exists i tte1,
    probe_cluster (generation8 tt) (uint16_t (Z.shiftr key 48))
      (entry (nth (first_entry tt key) (table tt) Cluster_zero))
    = (found, i, tte1)
    /\ p = (first_entry tt key, i)
    /\ tt1 = mkTT (clusterCount tt)
                  (upd (table tt) (first_entry tt key) (mkCluster tte1))
                  (generation8 tt).
Proof.
  unfold probe.
  destruct (probe_cluster _ _ _) as [[f i] tte1]. intros H.
  injection H as <- <- <-. now exists i, tte1.
Qed.

(** [probe] on a table whose addressed cluster is [tte]. *)
Lemma probe_at (tt : TranspositionTable) (key : Z) (c : nat) tte found i tte1 :
  first_entry tt key = c ->
  entry (nth c (table tt) Cluster_zero) = tte ->
  probe_cluster (generation8 tt) (uint16_t (Z.shiftr key 48)) tte
  = (found, i, tte1) ->
  probe tt key
  = (found, (c, i),
     mkTT (clusterCount tt) (upd (table tt) c (mkCluster tte1)) (generation8 tt)).
Proof.
  intros Hc Ht Hp. unfold probe. rewrite Hc, Ht, Hp. reflexivity.
Qed.

Lemma table_ok_upd (tt : TranspositionTable) (c : nat) tte :
  table_ok tt -> length tte = ClusterSize ->
  table_ok (mkTT (clusterCount tt) (upd (table tt) c (mkCluster tte))
                 (generation8 tt)).
Proof.
  intros (Hcc & Hlen & Hall & Hg) Hl. unfold table_ok.
  cbn [clusterCount table generation8]. rewrite length_upd.
  repeat split; try tauto; try lia.
  intros x Hx. apply (In_nth _ _ Cluster_zero) in Hx.
  destruct Hx as (n & Hn & <-). rewrite length_upd in Hn.
  destruct (Nat.eq_dec c n) as [->|Hne].
  - rewrite (nth_upd_eq Cluster_zero) by exact Hn. exact Hl.
  - rewrite nth_upd_ne by exact Hne. apply Hall. now apply nth_In.
Qed.

(** X5. probing the same key a second time changes nothing more: the second
    probe returns the same entry with the same [found] and leaves the table
    as the first one left it, which is a well-formed table again. *)
Theorem probe_idempotent (tt : TranspositionTable) (key : Z) found p tt1 :
  table_ok tt ->
  probe tt key = (found, p, tt1) ->
  probe tt1 key = (found, p, tt1) /\ table_ok tt1.
Proof.
  intros Hok Hp.
  destruct (probe_inv tt key found p tt1 Hp) as (i & tte1 & Hc & -> & ->).
  pose proof (first_entry_in_table tt key Hok) as Hin.
  pose proof (table_ok_cluster tt _ Hok Hin) as Hlen.
  destruct Hok as (Hcc & Hl & Hall & Hg & H7).
  set (c := first_entry tt key) in *.
  set (tte := entry (nth c (table tt) Cluster_zero)) in *.
  pose proof (probe_cluster_again _ _ _ _ _ _ Hlen Hg H7 Hc) as Hagain.
  assert (Hl1 : length tte1 = ClusterSize).
  { pose proof (probe_cluster_spec (generation8 tt) (uint16_t (Z.shiftr key 48))
                  tte Hlen Hg H7) as H.
    rewrite Hc in H. destruct H as [_ [(_ & _ & _ & Ht) | (_ & _ & Ht & _)]];
      subst tte1; [now rewrite length_upd|exact Hlen]. }
  split.
  - rewrite (probe_at _ key c tte1 found i tte1); cbn [clusterCount table generation8].
    + now rewrite upd_upd.
    + reflexivity.
    + now rewrite (nth_upd_eq Cluster_zero) by exact Hin.
    + exact Hagain.
  - apply table_ok_upd;
      [exact (conj Hcc (conj Hl (conj Hall (conj Hg H7))))|exact Hl1].
Qed.

(** A table of one cluster holding key [3 * 2^48] in its second entry. *)
Lemma probe_idempotent_witness :
  let tt := mkTT 1 [mkCluster [mkTTEntry 7 0 0 0 1 0;
                               mkTTEntry 3 9 0 0 2 5; TTEntry_zero]] 16 in
  probe (snd (probe tt (3 * 2 ^ 48))) (3 * 2 ^ 48)
  = probe tt (3 * 2 ^ 48).
Proof.
  intros tt.
  destruct (probe tt (3 * 2 ^ 48)) as [[found p] tt1] eqn:Hp.
  refine (proj1 (probe_idempotent tt (3 * 2 ^ 48) found p tt1 _ Hp)).
  unfold table_ok, tt. cbn [clusterCount table generation8 length].
  repeat split; try lia; try reflexivity.
  intros c [<- | []]. reflexivity.
Defined.

(** X6. what [save] stores through the pointer of a [probe] is found again:
    after [probe(key)] and [save(key, ...)] on the entry it returned, a second
    [probe(key)] returns that same entry, changes nothing, and reports found
    unless the high 16 bits of the key are zero.  When the first probe was a
    miss for such a key, the entry holds exactly the saved move, value,
    evaluation and depth, truncated to their fields, with the packed
    generation, PV flag and bound. *)
Theorem probe_save_probe (tt : TranspositionTable) (key v : Z) (pv : bool)
        (b : Bound) (d m ev : Z) found p tt1 :
  table_ok tt ->
  probe tt key = (found, p, tt1) ->
  let k16 := uint16_t (Z.shiftr key 48) in
  let tt2 := TT_save tt1 p key v pv b d m ev in
  probe tt2 key = (negb (k16 =? 0), p, tt2)
  /\ key16 (entry_at tt2 p) = k16
  /\ (found = false -> k16 <> 0 ->
      entry_at tt2 p
      = mkTTEntry k16 (uint16_t m) (int16_t v) (int16_t ev)
          (uint8_t (Z.lor (Z.lor (generation8 tt)
                                 (Z.shiftl (uint8_t (of_bool pv)) 2))
                          (Bound_code b)))
          (int8_t d)).
Proof.
  intros Hok Hp k16 tt2.
  destruct (probe_inv tt key found p tt1 Hp) as (i & tte1 & Hc & -> & ->).
  pose proof (first_entry_in_table tt key Hok) as Hin.
  pose proof (table_ok_cluster tt _ Hok Hin) as Hlen.
  destruct Hok as (Hcc & Hl & Hall & Hg & H7).
  set (c := first_entry tt key) in *.
  set (tte := entry (nth c (table tt) Cluster_zero)) in *.
  destruct (probe_save_probe_cluster (generation8 tt) key tte v pv b d m ev
              found i tte1 Hlen Hg H7 Hc) as (Hi & Hl1 & He2 & Hprobe & Hdata).
  set (e2 := save (generation8 tt) (nth i tte1 TTEntry_zero) key v pv b d m ev) in *.
  set (tte2 := upd tte1 i e2) in *.
  assert (Htt2 : tt2 = mkTT (clusterCount tt) (upd (table tt) c (mkCluster tte2))
                            (generation8 tt)).
  { unfold tt2, TT_save. cbn [fst snd clusterCount table generation8].
    rewrite (nth_upd_eq Cluster_zero) by exact Hin. cbn [entry].
    rewrite upd_upd. reflexivity. }
  assert (Hent : entry_at tt2 (c, i) = e2).
  { rewrite Htt2. unfold entry_at. cbn [fst snd table].
    rewrite (nth_upd_eq Cluster_zero) by exact Hin. cbn [entry]. exact He2. }
  split; [|split].
  - rewrite Htt2.
    rewrite (probe_at _ key c tte2 (negb (k16 =? 0)) i tte2);
      cbn [clusterCount table generation8].
    + now rewrite upd_upd.
    + reflexivity.
    + now rewrite (nth_upd_eq Cluster_zero) by exact Hin.
    + exact Hprobe.
  - rewrite Hent. unfold e2. apply save_key16.
  - intros Hf Hk. rewrite Hent. now apply Hdata.
Qed.

(** A miss in a full cluster: the least valuable entry is replaced and the
    key is found afterwards. *)
Lemma probe_save_probe_witness :
  let tt := mkTT 1 [mkCluster [mkTTEntry 7 0 0 0 17 9;
                               mkTTEntry 3 9 0 0 18 5;
                               mkTTEntry 4 0 0 0 16 7]] 16 in
  let key := 5 * 2 ^ 48 in
  fst (fst (probe (TT_save (snd (probe tt key)) (snd (fst (probe tt key)))
                           key 100 true BOUND_LOWER 3 77 50) key)) = true.
Proof.
  intros tt key.
  destruct (probe tt key) as [[found p] tt1] eqn:Hp. cbn [fst snd].
  assert (Hok : table_ok tt).
  { unfold table_ok, tt. cbn [clusterCount table generation8 length].
    repeat split; try lia; try reflexivity.
    intros c [<- | []]. reflexivity. }
  pose proof (probe_save_probe tt key 100 true BOUND_LOWER 3 77 50
                found p tt1 Hok Hp) as H.
  cbv zeta in H. destruct H as [H _]. rewrite H. reflexivity.
Defined.

(** X7. on a table that [clear] has zeroed every probe is a miss that returns
    the first entry of the addressed cluster, and the only trace it leaves
    is the current generation stamped on that empty entry. *)
Theorem probe_after_clear (tt : TranspositionTable) (threadCount key : Z) :
  table_ok tt -> 1 <= threadCount ->
  let tt0 := TranspositionTable_clear tt threadCount in
  let c := first_entry tt key in
  probe tt0 key
  = (false, (c, 0%nat),
     mkTT (clusterCount tt)
          (upd (table tt0) c
               (mkCluster [mkTTEntry 0 0 0 0 (generation8 tt) 0;
                           TTEntry_zero; TTEntry_zero]))
          (generation8 tt)).
Proof.
  intros Hok Hn tt0 c.
  pose proof (first_entry_in_table tt key Hok) as Hin.
  destruct Hok as (Hcc & Hl & Hall & Hg & H7).
  assert (Ht0 : table tt0 = repeat Cluster_zero (length (table tt)))
    by (apply clear_table; assumption).
  apply (probe_at tt0 key c (entry Cluster_zero)).
  - reflexivity.
  - rewrite Ht0. now rewrite nth_repeat_lt by exact Hin.
  - unfold tt0, TranspositionTable_clear. cbn [generation8].
    unfold probe_cluster, Cluster_zero, ClusterSize.
    cbn [entry repeat firstn probe_scan TTEntry_zero key16 to_bool Z.eqb negb orb nth upd].
    unfold refresh, TTEntry_zero.
    cbn [key16 move16 value16 eval16 genBound8 depth8].
    change (Z.land 0 7) with 0. rewrite Z.lor_0_r.
    unfold uint8_t. rewrite Z.mod_small by lia. reflexivity.
Qed.

(** A table of four clusters in its second search. *)
Lemma probe_after_clear_witness :
  fst (fst (probe (TranspositionTable_clear
                     (mkTT 4 (repeat (mkCluster (repeat (mkTTEntry 1 2 3 4 5 6) 3)) 4) 16)
                     2) 12345)) = false.
Proof.
  set (tt := mkTT 4 (repeat (mkCluster (repeat (mkTTEntry 1 2 3 4 5 6) 3)) 4) 16).
  assert (Hok : table_ok tt).
  { unfold table_ok, tt. cbn [clusterCount table generation8 length repeat].
    repeat split; try lia; try reflexivity.
    intros c Hc. cbn in Hc. decompose [or] Hc; subst; try reflexivity; tauto. }
  pose proof (probe_after_clear tt 2 12345 Hok ltac:(lia)) as H.
  cbv zeta in H. rewrite H. reflexivity.
Defined.

(** X8. what [save] writes over an entry that holds another key can be read
    back: the two low bits of [genBound8] are the bound, bit 2 is the PV
    flag, the five high bits are the generation, and move, value,
    evaluation and depth come back unchanged whenever they fit their
    16-bit and 8-bit fields. *)
Theorem save_fields_read_back (gen8 : Z) (e : TTEntry) (k v : Z) (pv : bool)
        (b : Bound) (d m ev : Z) :
  0 <= gen8 < 256 -> Z.land gen8 7 = 0 ->
  key16 e <> uint16_t (Z.shiftr k 48) ->
  let e' := save gen8 e k v pv b d m ev in
  Z.land (genBound8 e') 3 = Bound_code b
  /\ Z.testbit (genBound8 e') 2 = pv
  /\ Z.land (genBound8 e') 248 = gen8
  /\ (0 <= m < 65536 -> move16 e' = m)
  /\ (-32768 <= v < 32768 -> value16 e' = v)
  /\ (-32768 <= ev < 32768 -> eval16 e' = ev)
  /\ (-128 <= d < 128 -> depth8 e' = d).
Proof.
  intros Hg H7 Hk e'. unfold e'. rewrite (save_new_key gen8 e k v pv b d m ev Hk).
  cbn [key16 move16 value16 eval16 genBound8 depth8].
  destruct (genBound8_packing gen8 pv b Hg H7) as (A & B & C & _).
  cbv zeta in A, B, C.
  repeat split; try assumption; intros H.
  - unfold uint16_t. apply Z.mod_small. lia.
  - unfold int16_t. rewrite Z.mod_small; lia.
  - unfold int16_t. rewrite Z.mod_small; lia.
  - unfold int8_t. rewrite Z.mod_small; lia.
Qed.

(** A losing score of a PV node stored with an upper bound over an empty
    entry. *)
Lemma save_fields_read_back_witness :
  let e' := save 24 TTEntry_zero (9 * 2 ^ 48) (-250) true BOUND_UPPER (-3) 796 (-31) in
  Z.land (genBound8 e') 3 = 1 /\ Z.testbit (genBound8 e') 2 = true
  /\ value16 e' = -250 /\ depth8 e' = -3.
Proof.
  pose proof (save_fields_read_back 24 TTEntry_zero (9 * 2 ^ 48) (-250) true
                BOUND_UPPER (-3) 796 (-31) ltac:(lia) eq_refl
                ltac:(vm_compute; discriminate)) as H.
  cbv zeta in *. destruct H as (A & B & _ & _ & V & _ & D).
  split; [exact A|]. split; [exact B|]. split; [apply V; lia|apply D; lia].
Defined.


(* ===================================================================== *)
(** * Null moves *)
(* ===================================================================== *)

Lemma flip_color_involutive c : flip_color (flip_color c) = c.
Proof.
  unfold flip_color. rewrite Z.lxor_assoc, Z.lxor_nilpotent. apply Z.lxor_0_r.
Qed.

(** [set_check_info] writes the three check arrays and nothing else. *)
Lemma set_check_info_fields p si :
  exists b pn cs, set_check_info p si = set_checkInfo b pn cs si.
Proof.
  unfold set_check_info.
  destruct (slider_blockers p (pieces_c p BLACK) (square_of p KING WHITE)) as [bw pb].
  destruct (slider_blockers p (pieces_c p WHITE) (square_of p KING BLACK)) as [bb pw].
  eauto.
Qed.

Lemma previous_set_check_info p si :
  previous (set_check_info p si) = previous si.
Proof. destruct (set_check_info_fields p si) as (b & pn & cs & ->). reflexivity. Qed.

Lemma with_st_set_st f s p : with_st f (set_st s p) = set_st (f s) p.
Proof. reflexivity. Qed.

Lemma with_st_set_sideToMove f c s p :
  with_st f (set_sideToMove c (set_st s p)) = set_sideToMove c (set_st (f s) p).
Proof. reflexivity. Qed.

Lemma set_sideToMove_twice c c' s p :
  set_sideToMove c (set_st s (set_sideToMove c' p)) = set_sideToMove c (set_st s p).
Proof. reflexivity. Qed.

(** A null move touches the state and the side to move only. *)
Lemma do_null_move_shape (p : Position) (newSt : StateInfo) :
  exists s', do_null_move p newSt
             = set_sideToMove (flip_color (sideToMove p)) (set_st s' p)
          /\ previous s' = Some (st p)
          /\ epSquare s' = SQ_NONE
          /\ key s' = Z.lxor (Z.lxor (key (st p))
                                (if negb (epSquare (st p) =? SQ_NONE)
                                 then Zobrist_enpassant (file_of (epSquare (st p)))
                                 else 0))
                             Zobrist_side
          /\ pawnKey s' = pawnKey (st p)
          /\ materialKey s' = materialKey (st p)
          /\ castlingRights s' = castlingRights (st p)
          /\ rule50 s' = rule50 (st p) + 1
          /\ pliesFromNull s' = 0
          /\ repetition s' = 0.
Proof.
  unfold do_null_move.
  set (s0 := set_previous (Some (st p)) (st p)).
  change (st (set_st s0 p)) with s0.
  set (f := fun s => set_epSquare SQ_NONE
                       (set_key (Z.lxor (key s) (Zobrist_enpassant (file_of (epSquare s)))) s)).
  set (s1 := if negb (epSquare s0 =? SQ_NONE) then f s0 else s0).
  assert (E1 : (if negb (epSquare s0 =? SQ_NONE) then with_st f (set_st s0 p)
                else set_st s0 p) = set_st s1 p).
  { unfold s1. now destruct (negb (epSquare s0 =? SQ_NONE)). }
  cbv zeta. rewrite E1. rewrite !with_st_set_st.
  change (sideToMove (set_st ?s p)) with (sideToMove p).
  rewrite !with_st_set_sideToMove.
  eexists. split; [reflexivity|].
  assert (Hs1 : previous s1 = Some (st p) /\ epSquare s1 = SQ_NONE
                /\ key s1 = Z.lxor (key (st p))
                                (if negb (epSquare (st p) =? SQ_NONE)
                                 then Zobrist_enpassant (file_of (epSquare (st p)))
                                 else 0)
                /\ pawnKey s1 = pawnKey (st p)
                /\ materialKey s1 = materialKey (st p)
                /\ castlingRights s1 = castlingRights (st p)
                /\ rule50 s1 = rule50 (st p)).
  { unfold s1, s0, f. change (epSquare (set_previous ?a ?b)) with (epSquare b).
    destruct (Z.eqb_spec (epSquare (st p)) SQ_NONE) as [E|E]; cbn [negb].
    - repeat split; try reflexivity. exact E. cbn [key set_previous].
      now rewrite Z.lxor_0_r.
    - repeat split; reflexivity. }
  destruct Hs1 as (A & B & C & D & E & F & G).
  match goal with |- context [set_check_info ?q ?s] =>
    destruct (set_check_info_fields q s) as (b & pn & cs & ->) end.
  repeat split; cbn; assumption || (try (f_equal; assumption)).
Qed.

(** X9. a null move is taken back exactly: [undo_null_move] after
    [do_null_move] gives the position as it was, state included, whatever
    the storage handed to [do_null_move] held. *)
Theorem undo_null_move_do_null_move (p : Position) (newSt : StateInfo) :
  undo_null_move (do_null_move p newSt) = p.
Proof.
  destruct (do_null_move_shape p newSt) as (s' & -> & Hprev & _).
  unfold undo_null_move.
  change (st (set_sideToMove ?c (set_st s' p))) with s'.
  rewrite Hprev.
  destruct p as [bd bt bc pcnt pl ix crm crs cpath gp stm s c960].
  unfold set_st, set_sideToMove.
  cbn [board byTypeBB byColorBB pieceCount pieceList index castlingRightsMask
       castlingRookSquare castlingPath gamePly sideToMove st chess960].
  now rewrite flip_color_involutive.
Qed.

(** ** Hash keys from scratch *)

Lemma set_state_piece_fields p si s :
  key (set_state_piece p si s)
  = Z.lxor (key si) (Zobrist_psq (piece_on p s) s)
  /\ pawnKey (set_state_piece p si s)
     = (if type_of (piece_on p s) =? PAWN
        then Z.lxor (pawnKey si) (Zobrist_psq (piece_on p s) s)
        else pawnKey si)
  /\ materialKey (set_state_piece p si s) = materialKey si
  /\ epSquare (set_state_piece p si s) = epSquare si
  /\ castlingRights (set_state_piece p si s) = castlingRights si.
Proof.
  unfold set_state_piece.
  destruct (type_of (piece_on p s) =? PAWN);
    [|destruct (negb (type_of (piece_on p s) =? KING))];
    repeat split; reflexivity.
Qed.

Lemma fold_set_state_piece p l : forall si,
  key (fold_left (set_state_piece p) l si)
  = fold_left (fun k s => Z.lxor k (Zobrist_psq (piece_on p s) s)) l (key si)
  /\ pawnKey (fold_left (set_state_piece p) l si)
     = fold_left (fun k s => if type_of (piece_on p s) =? PAWN
                             then Z.lxor k (Zobrist_psq (piece_on p s) s) else k)
                 l (pawnKey si)
  /\ materialKey (fold_left (set_state_piece p) l si) = materialKey si
  /\ epSquare (fold_left (set_state_piece p) l si) = epSquare si
  /\ castlingRights (fold_left (set_state_piece p) l si) = castlingRights si.
Proof.
  induction l as [|s l IH]; intros si; cbn [fold_left].
  - repeat split; reflexivity.
  - destruct (IH (set_state_piece p si s)) as (A & B & C & D & E).
    destruct (set_state_piece_fields p si s) as (A' & B' & C' & D' & E').
    rewrite A, B, C, D, E, A', B', C', D', E'. repeat split; reflexivity.
Qed.

(** The three keys [set_state] computes, as functions of the board, the side
    to move, and the en-passant square and castling rights of the state it
    is given. *)
Lemma set_state_keys p si :
  key (set_state p si)
  = Z.lxor (Z.lxor (Z.lxor
      (fold_left (fun k s => Z.lxor k (Zobrist_psq (piece_on p s) s))
                 (bitboard_squares 64 (pieces p)) 0)
      (if negb (epSquare si =? SQ_NONE)
       then Zobrist_enpassant (file_of (epSquare si)) else 0))
      (if sideToMove p =? BLACK then Zobrist_side else 0))
      (Zobrist_castling (castlingRights si))
  /\ pawnKey (set_state p si)
     = fold_left (fun k s => if type_of (piece_on p s) =? PAWN
                             then Z.lxor k (Zobrist_psq (piece_on p s) s) else k)
                 (bitboard_squares 64 (pieces p)) Zobrist_noPawns
  /\ materialKey (set_state p si)
     = fold_left (set_state_material p) Pieces 0.
Proof.
  unfold set_state. cbv zeta.
  match goal with |- context [set_check_info p ?s] =>
    destruct (set_check_info_fields p s) as (b & pn & cs & ->);
    set (s5 := set_checkInfo b pn cs s) end.
  destruct (fold_set_state_piece p (bitboard_squares 64 (pieces p)) s5)
    as (A & B & C & D & E).
  set (s6 := fold_left (set_state_piece p) (bitboard_squares 64 (pieces p)) s5) in *.
  change (key s5) with 0 in A. change (pawnKey s5) with Zobrist_noPawns in B.
  change (materialKey s5) with 0 in C. change (epSquare s5) with (epSquare si) in D.
  change (castlingRights s5) with (castlingRights si) in E.
  rewrite D.
  destruct (negb (epSquare si =? SQ_NONE)); destruct (sideToMove p =? BLACK);
    cbn [key pawnKey materialKey castlingRights set_key set_materialKey];
    rewrite ?A, ?B, ?C, ?E, ?Z.lxor_0_r; repeat split; reflexivity.
Qed.

Ltac xor_solve :=
  apply Z.bits_inj'; intros ?n ?Hn; rewrite ?Z.lxor_spec, ?Z.bits_0;
  repeat match goal with
         | |- context [Z.testbit ?a ?n] => destruct (Z.testbit a n)
         end; reflexivity.

(** X10. a null move keeps the hash keys right: if key, pawn key and material
    key of the current state are those [set_state] computes from scratch,
    they still are after [do_null_move]. *)
Theorem do_null_move_keys_consistent (p : Position) (newSt : StateInfo) :
  sideToMove p = WHITE \/ sideToMove p = BLACK ->
  keys_consistent p ->
  keys_consistent (do_null_move p newSt).
Proof.
  intros Hside (Hk & Hp & Hm).
  destruct (do_null_move_shape p newSt)
    as (s' & -> & _ & Hep & Hkey & Hpk & Hmk & Hcr & _).
  destruct (set_state_keys p (st p)) as (K & P & M).
  destruct (set_state_keys (set_sideToMove (flip_color (sideToMove p)) (set_st s' p)) s')
    as (K' & P' & M').
  unfold keys_consistent.
  change (st (set_sideToMove ?c (set_st s' p))) with s'.
  rewrite K', P', M'. clear K' P' M'.
  change (piece_on (set_sideToMove ?c (set_st s' p))) with (piece_on p).
  change (pieces (set_sideToMove ?c (set_st s' p))) with (pieces p).
  change (set_state_material (set_sideToMove ?c (set_st s' p)))
    with (set_state_material p).
  change (sideToMove (set_sideToMove ?c (set_st s' p))) with c.
  rewrite Hkey, Hpk, Hmk, Hcr, Hep, Hk, Hp, Hm, K, P, M.
  split; [|split; reflexivity].
  rewrite Z.eqb_refl. cbn [negb].
  destruct Hside as [-> | ->]; cbn [flip_color WHITE BLACK Z.lxor Pos.lxor Z.eqb Pos.eqb];
    xor_solve.
Qed.

(** The starting position. *)
Lemma do_null_move_keys_consistent_witness :
  keys_consistent (do_null_move StartPos StateInfo_zero).
Proof.
  apply do_null_move_keys_consistent.
  - left. reflexivity.
  - unfold keys_consistent. vm_compute. auto.
Defined.

(* ===================================================================== *)
(** * Repetitions *)
(* ===================================================================== *)

Lemma nth_previous_SS n s :
  nth_previous (S (S n)) s
  = match previous2 s with Some s' => nth_previous n s' | None => None end.
Proof.
  cbn [nth_previous]. unfold previous2. destruct (previous s); reflexivity.
Qed.

(** The search loop of [do_move], started at the state [stp] with the
    counter at [i]: it stops at the first state, two plies at a time, that
    carries the key looked for. *)
Lemma repetition_loop_spec k end_ : forall n stp i,
  0 < i -> end_ - i < 2 * Z.of_nat n ->
  let r := repetition_loop n stp i end_ k in
  (r = 0
   /\ forall m t, (1 <= m)%nat -> i + 2 * (Z.of_nat m - 1) <= end_ ->
        nth_previous (2 * m) stp = Some t -> key t <> k)
  \/ (exists m t, (1 <= m)%nat /\ i + 2 * (Z.of_nat m - 1) <= end_
        /\ nth_previous (2 * m) stp = Some t /\ key t = k
        /\ r = (if repetition t =? 0 then i + 2 * (Z.of_nat m - 1)
                else - (i + 2 * (Z.of_nat m - 1)))
        /\ forall m' t', (1 <= m' < m)%nat ->
             nth_previous (2 * m') stp = Some t' -> key t' <> k).
Proof.
  induction n as [|n IH]; intros stp i Hi Hfuel r.
  - left. split; [reflexivity|]. intros m t Hm Hle. lia.
  - subst r. cbn [repetition_loop].
    destruct (Z.leb_spec i end_) as [Hle|Hgt].
    2:{ left. split; [reflexivity|]. intros m t Hm Hb. lia. }
    destruct (previous2 stp) as [stp'|] eqn:Hp2.
    2:{ left. split; [reflexivity|]. intros m t Hm Hb Hn.
        destruct m as [|m]; [lia|].
        replace (2 * S m)%nat with (S (S (2 * m))) in Hn by lia.
        rewrite nth_previous_SS, Hp2 in Hn. discriminate. }
    destruct (Z.eqb_spec (key stp') k) as [Hk|Hk].
    + right. exists 1%nat, stp'. split; [lia|]. split; [lia|].
      split; [change (2 * 1)%nat with 2%nat; rewrite nth_previous_SS, Hp2;
              reflexivity|].
      split; [exact Hk|]. split.
      * unfold to_bool. replace (i + 2 * (Z.of_nat 1 - 1)) with i by lia.
        destruct (repetition stp' =? 0); reflexivity.
      * intros m' t' Hm'. lia.
    + specialize (IH stp' (i + 2) ltac:(lia) ltac:(lia)). cbv zeta in IH.
      destruct IH as [(Hr & Hnone) | (m & t & Hm & Hb & Hn & Hkt & Hr & Hfirst)].
      * left. split; [exact Hr|]. intros m t Hm Hb Hn.
        destruct m as [|m]; [lia|].
        replace (2 * S m)%nat with (S (S (2 * m))) in Hn by lia.
        rewrite nth_previous_SS, Hp2 in Hn.
        destruct m as [|m].
        -- cbn in Hn. injection Hn as <-. exact Hk.
        -- apply (Hnone (S m) t); [lia|lia|exact Hn].
      * right. exists (S m), t. split; [lia|]. split; [lia|]. split.
        { replace (2 * S m)%nat with (S (S (2 * m))) by lia.
          now rewrite nth_previous_SS, Hp2. }
        split; [exact Hkt|]. split.
        { rewrite Hr.
          replace (i + 2 + 2 * (Z.of_nat m - 1)) with (i + 2 * (Z.of_nat (S m) - 1))
            by lia. reflexivity. }
        intros m' t' Hm' Hn'. destruct m' as [|m']; [lia|].
        replace (2 * S m')%nat with (S (S (2 * m'))) in Hn' by lia.
        rewrite nth_previous_SS, Hp2 in Hn'.
        destruct m' as [|m'].
        -- cbn in Hn'. injection Hn' as <-. exact Hk.
        -- apply (Hfirst (S m') t'); [lia|exact Hn'].
Qed.

(** X11. the repetition block that closes [do_move] records the nearest
    earlier occurrence of the current key.  It looks at the states 4, 6,
    8, ... plies back, up to [min(rule50, pliesFromNull)]; if one carries the
    current key, [repetition] becomes the distance [n] to the nearest such
    state, negated when that state was itself a repetition; otherwise, and
    in particular whenever fewer than 4 reversible plies were played,
    [repetition] is 0.  Nothing else in the state changes. *)
Theorem do_move_repetition_spec (s : StateInfo) :
  let s' := do_move_repetition s in
  let end_ := Z.min (rule50 s) (pliesFromNull s) in
  s' = set_repetition (repetition s') s
  /\ ((repetition s' = 0
       /\ forall n t, 4 <= Z.of_nat n <= end_ -> Nat.even n = true ->
            nth_previous n s = Some t -> key t <> key s)
      \/ (exists n t, 4 <= Z.of_nat n <= end_ /\ Nat.even n = true
            /\ nth_previous n s = Some t /\ key t = key s
            /\ repetition s' = (if repetition t =? 0 then Z.of_nat n
                                else - Z.of_nat n)
            /\ forall n' t', 4 <= Z.of_nat n' < Z.of_nat n -> Nat.even n' = true ->
                 nth_previous n' s = Some t' -> key t' <> key s)).
Proof.
  intros s' end_. subst s'. unfold do_move_repetition.
  change (rule50 (set_repetition 0 s)) with (rule50 s).
  change (pliesFromNull (set_repetition 0 s)) with (pliesFromNull s).
  change (previous2 (set_repetition 0 s)) with (previous2 s).
  change (key (set_repetition 0 s)) with (key s).
  fold end_.
  assert (Heven : forall n, Nat.even n = true -> exists m, n = (2 * m)%nat).
  { intros n Hn. apply Nat.even_spec in Hn. destruct Hn as [m ->]. now exists m. }
  destruct (Z.geb_spec end_ 4) as [Hge|Hlt].
  2:{ split; [reflexivity|]. left. split; [reflexivity|]. intros n t Hn. lia. }
  destruct (previous2 s) as [stp|] eqn:Hp2.
  2:{ split; [reflexivity|]. left. split; [reflexivity|].
      intros n t Hn He Hnth. destruct (Heven n He) as [m ->].
      destruct m as [|m]; [lia|].
      replace (2 * S m)%nat with (S (S (2 * m))) in Hnth by lia.
      rewrite nth_previous_SS, Hp2 in Hnth. discriminate. }
  split; [reflexivity|].
  cbn [repetition set_repetition].
  pose proof (repetition_loop_spec (key s) end_ (Z.to_nat end_) stp 4
                ltac:(lia) ltac:(lia)) as H.
  cbv zeta in H.
  assert (Hshift : forall m, nth_previous (2 * S m) s = nth_previous (2 * m) stp).
  { intros m. replace (2 * S m)%nat with (S (S (2 * m))) by lia.
    now rewrite nth_previous_SS, Hp2. }
  destruct H as [(Hr & Hnone) | (m & t & Hm & Hb & Hn & Hkt & Hr & Hfirst)].
  - left. split; [exact Hr|]. intros n t Hn He Hnth.
    destruct (Heven n He) as [m ->]. destruct m as [|m]; [lia|].
    rewrite Hshift in Hnth. apply (Hnone m t); [lia|lia|exact Hnth].
  - right. exists (2 * S m)%nat, t.
    split; [lia|]. split; [rewrite Nat.even_mul; reflexivity|].
    split; [now rewrite Hshift|]. split; [exact Hkt|]. split.
    + rewrite Hr. replace (4 + 2 * (Z.of_nat m - 1)) with (Z.of_nat (2 * S m)) by lia.
      reflexivity.
    + intros n' t' Hn' He' Hnth'. destruct (Heven n' He') as [m' ->].
      destruct m' as [|m']; [lia|].
      rewrite Hshift in Hnth'. apply (Hfirst m' t'); [lia|exact Hnth'].
Qed.

(** The loop of [has_repeated] answers whether one of the states it visits
    is marked as a repetition. *)
Lemma has_repeated_loop_spec : forall n stc e,
  e - 3 <= Z.of_nat n ->
  has_repeated_loop n stc e = true
  <-> exists k t, Z.of_nat k + 4 <= e /\ nth_previous k stc = Some t
                  /\ repetition t <> 0.
Proof.
  induction n as [|n IH]; intros stc e Hfuel.
  - cbn. split; [discriminate|]. intros (k & t & Hk & _). lia.
  - cbn [has_repeated_loop].
    destruct (Z.geb_spec e 4) as [Hge|Hlt].
    2:{ split; [discriminate|]. intros (k & t & Hk & _). lia. }
    unfold to_bool. destruct (Z.eqb_spec (repetition stc) 0) as [Hz|Hnz]; cbn [negb].
    + destruct (previous stc) as [s1|] eqn:Hp.
      * rewrite (IH s1 (e - 1)) by lia. split.
        -- intros (k & t & Hk & Hn & Hr). exists (S k), t.
           split; [lia|]. cbn [nth_previous]. now rewrite Hp.
        -- intros (k & t & Hk & Hn & Hr). destruct k as [|k].
           ++ cbn in Hn. injection Hn as <-. contradiction.
           ++ cbn [nth_previous] in Hn. rewrite Hp in Hn.
              exists k, t. split; [lia|]. now split.
      * split; [discriminate|]. intros (k & t & Hk & Hn & Hr).
        destruct k as [|k].
        -- cbn in Hn. injection Hn as <-. contradiction.
        -- cbn [nth_previous] in Hn. rewrite Hp in Hn. discriminate.
    + split; [|reflexivity]. intros _. exists 0%nat, stc.
      split; [lia|]. now split.
Qed.

(** X12. [has_repeated] is true exactly when one of the states from the
    current one back to [min(rule50, pliesFromNull) - 4] plies ago is marked
    as a repetition; with fewer than 4 reversible plies it is false. *)
Theorem has_repeated_spec (p : Position) :
  let end_ := Z.min (rule50 (st p)) (pliesFromNull (st p)) in
  has_repeated p = true
  <-> exists k t, Z.of_nat k + 4 <= end_ /\ nth_previous k (st p) = Some t
                  /\ repetition t <> 0.
Proof.
  intros end_. unfold has_repeated. fold end_.
  apply has_repeated_loop_spec. lia.
Qed.


(* ===================================================================== *)
(** * Popping squares off a bitboard *)
(* ===================================================================== *)

Lemma square_bb_succ l : 0 <= l -> square_bb (1 + l) = 2 * square_bb l.
Proof.
  intros Hl. unfold square_bb. rewrite !Z.shiftl_1_l.
  replace (1 + l) with (Z.succ l) by lia. now rewrite Z.pow_succ_r.
Qed.

(** [b & (b - 1)] clears the lowest square of [b]. *)
Lemma land_pred b : 0 < b -> Z.land b (b - 1) = Z.lxor b (square_bb (lsb b)).
Proof.
  destruct b as [|q|q]; try lia. intros _. cbn [lsb].
  induction q as [q IH|q IH|].
  - cbn [ctz]. change (Zpos q~1) with (2 * Zpos q + 1).
    replace (2 * Zpos q + 1 - 1) with (2 * Zpos q) by lia.
    apply Z.bits_inj'. intros n Hn. rewrite Z.land_spec, Z.lxor_spec.
    destruct (Z.eq_dec n 0) as [->|Hne].
    + rewrite Z.testbit_odd_0, Z.testbit_even_0. reflexivity.
    + replace n with (Z.succ (n - 1)) by lia.
      rewrite Z.testbit_odd_succ, Z.testbit_even_succ by lia.
      rewrite testbit_square_bb by lia.
      destruct (Z.eqb_spec 0 (Z.succ (n - 1))); [lia|].
      rewrite andb_diag, xorb_false_r. reflexivity.
  - cbn [ctz]. destruct (ctz_spec q) as [Hc _].
    rewrite square_bb_succ by exact Hc.
    change (Zpos q~0) with (2 * Zpos q).
    replace (2 * Zpos q - 1) with (2 * (Zpos q - 1) + 1) by lia.
    apply Z.bits_inj'. intros n Hn. rewrite Z.land_spec, Z.lxor_spec.
    destruct (Z.eq_dec n 0) as [->|Hne].
    + rewrite !Z.testbit_even_0. reflexivity.
    + replace n with (Z.succ (n - 1)) by lia.
      rewrite Z.testbit_odd_succ, !Z.testbit_even_succ by lia.
      rewrite <- Z.land_spec, IH, Z.lxor_spec. reflexivity.
  - reflexivity.
Qed.

Lemma lsb_lt_64 b : 0 < b -> hi_clear b -> 0 <= lsb b < 64.
Proof.
  intros Hb Hh. destruct (lsb_spec b Hb) as [H0 H1]. split; [exact H0|].
  destruct (Z.lt_ge_cases (lsb b) 64) as [H|H]; [exact H|].
  rewrite (Hh _ H) in H1. discriminate.
Qed.

Lemma square_bb_inj x y : 0 <= x -> 0 <= y -> square_bb x = square_bb y -> x = y.
Proof.
  intros Hx Hy H.
  assert (Hb : Z.testbit (square_bb x) y = Z.testbit (square_bb y) y) by now rewrite H.
  rewrite !testbit_square_bb, Z.eqb_refl in Hb by assumption.
  now apply Z.eqb_eq.
Qed.

Lemma square_bb_pos x : 0 <= x -> 0 < square_bb x.
Proof. intros Hx. unfold square_bb. rewrite Z.shiftl_1_l. now apply Z.pow_pos_nonneg. Qed.

(** [b && !more_than_one(b)]: the set holds exactly one square. *)
Lemma single_square_iff b :
  0 <= b ->
  to_bool b && negb (more_than_one b) = true
  <-> exists x, 0 <= x /\ b = square_bb x.
Proof.
  intros Hb. unfold more_than_one.
  rewrite andb_true_iff, negb_true_iff, to_bool_true, to_bool_false. split.
  - intros [Hnz Hone]. assert (Hpos : 0 < b) by lia.
    rewrite land_pred in Hone by exact Hpos.
    apply Z.lxor_eq in Hone.
    exists (lsb b). split; [apply (lsb_spec b Hpos)|exact Hone].
  - intros (x & Hx & ->). pose proof (square_bb_pos x Hx) as Hp.
    split; [lia|]. rewrite land_pred by exact Hp.
    assert (E : lsb (square_bb x) = x).
    { destruct (lsb_spec _ Hp) as [H0 H1].
      rewrite testbit_square_bb in H1 by exact Hx. apply Z.eqb_eq in H1. lia. }
    rewrite E. apply Z.lxor_nilpotent.
Qed.

Lemma bb_size_0 b : hi_clear b -> bb_size b = 0%nat -> b = 0.
Proof.
  intros Hh Hs. apply Z.bits_inj'. intros n Hn. rewrite Z.bits_0.
  destruct (Z.lt_ge_cases n 64) as [Hlt|Hge]; [|now apply Hh].
  destruct (Z.testbit b n) eqn:E; [|reflexivity].
  pose proof (bb_size_remove b n ltac:(lia) E). lia.
Qed.

(** What [pop_lsb] hands out and what it leaves. *)
Lemma pop_lsb_spec b :
  b <> 0 -> hi_clear b ->
  let '(sq, rest) := pop_lsb b in
  0 <= sq < 64 /\ Z.testbit b sq = true
  /\ rest = Z.lxor b (square_bb sq)
  /\ hi_clear rest /\ (bb_size rest < bb_size b)%nat
  /\ forall i, Z.testbit rest i = Z.testbit b i && negb (i =? sq).
Proof.
  intros Hnz Hh. pose proof (hi_clear_nonneg b Hh) as H0.
  assert (Hpos : 0 < b) by lia. unfold pop_lsb.
  pose proof (lsb_lt_64 b Hpos Hh) as Hl.
  destruct (lsb_spec b Hpos) as [_ Hbit].
  rewrite land_pred by exact Hpos.
  repeat split; try lia; try assumption.
  - now apply hi_clear_remove.
  - now apply bb_size_remove.
  - intros i. rewrite Z.lxor_spec, testbit_square_bb by lia.
    rewrite (Z.eqb_sym i). destruct (Z.eqb_spec (lsb b) i) as [<-|Hne]; cbn [negb].
    + rewrite Hbit. reflexivity.
    + rewrite xorb_false_r, andb_true_r. reflexivity.
Qed.

(* ===================================================================== *)
(** * Blockers and pinners *)
(* ===================================================================== *)

Lemma to_bool_land_square_bb a x :
  0 <= x -> to_bool (Z.land (square_bb x) a) = Z.testbit a x.
Proof.
  intros Hx. destruct (Z.testbit a x) eqn:E.
  - apply to_bool_true. intros H.
    assert (Hb : Z.testbit (Z.land (square_bb x) a) x = true).
    { rewrite Z.land_spec, testbit_square_bb, Z.eqb_refl, E by exact Hx. reflexivity. }
    rewrite H, Z.bits_0 in Hb. discriminate.
  - apply to_bool_false. apply Z.bits_inj'. intros n Hn.
    rewrite Z.land_spec, Z.bits_0, testbit_square_bb by exact Hx.
    destruct (Z.eqb_spec x n) as [<-|Hne]; [now rewrite E|reflexivity].
Qed.

Section SliderBlockers.

Variable p : Position.
Variable s : Z.
Variable occupancy : Z.
Hypothesis occupancy_nonneg : 0 <= occupancy.


Lemma slider_blockers_loop_spec : forall n snipers blockers pinners B Pn,
  hi_clear snipers -> (bb_size snipers <= n)%nat ->
  slider_blockers_loop n p s occupancy snipers blockers pinners = (B, Pn) ->
  (forall x, 0 <= x ->
     (Z.testbit B x = true
      <-> Z.testbit blockers x = true
          \/ exists sq, Z.testbit snipers sq = true /\ sole_blocker s occupancy sq x))
  /\ (forall q,
        (Z.testbit Pn q = true
         <-> Z.testbit pinners q = true
             \/ (Z.testbit snipers q = true
                 /\ exists x, 0 <= x /\ sole_blocker s occupancy q x
                      /\ Z.testbit (pieces_c p (color_of (piece_on p s))) x
                         = true))).
Proof.
  induction n as [|n IH]; intros snipers blockers pinners B Pn Hh Hsz Hrun.
  - assert (snipers = 0) by (apply bb_size_0; [exact Hh|lia]). subst snipers.
    cbn in Hrun. injection Hrun as <- <-.
    split; [intros x Hx|intros q]; (split; [auto|]);
      (intros [H|H]; [exact H|]);
      [destruct H as (sq & H & _)|destruct H as (H & _)];
      rewrite Z.bits_0 in H; discriminate.
  - cbn [slider_blockers_loop] in Hrun.
    destruct (Z.eqb_spec snipers 0) as [->|Hnz].
    { injection Hrun as <- <-.
      split; [intros x Hx|intros q]; (split; [auto|]);
        (intros [H|H]; [exact H|]);
        [destruct H as (sq & H & _)|destruct H as (H & _)];
        rewrite Z.bits_0 in H; discriminate. }
    pose proof (pop_lsb_spec snipers Hnz Hh) as Hpop.
    destruct (pop_lsb snipers) as [sq0 rest].
    destruct Hpop as (Hsq0 & Hbit & _ & Hhr & Hszr & Hrest).
    assert (Hsplit : forall sq, Z.testbit snipers sq = true
                       <-> sq = sq0 \/ Z.testbit rest sq = true).
    { intros sq. rewrite Hrest. destruct (Z.eqb_spec sq sq0) as [->|Hne].
      - rewrite Hbit. cbn. split; [auto|intros _; reflexivity].
      - rewrite andb_true_r. split; [auto|]. intros [H|H]; [contradiction|exact H]. }
    set (b := Z.land (between_bb s sq0) occupancy) in *.
    assert (Hb0 : 0 <= b) by (apply Z.land_nonneg; right; exact occupancy_nonneg).
    destruct (to_bool b && negb (more_than_one b)) eqn:Hc.
    + apply (single_square_iff b Hb0) in Hc. destruct Hc as (x0 & Hx0 & Hbx).
      assert (Hone : forall x, 0 <= x -> sole_blocker s occupancy sq0 x <-> x = x0).
      { intros x Hx. unfold sole_blocker. fold b. rewrite Hbx. split.
        - intros H. symmetry. now apply square_bb_inj.
        - now intros ->. }
      rewrite Hbx in Hrun. rewrite to_bool_land_square_bb in Hrun by exact Hx0.
      apply IH in Hrun; [|exact Hhr|lia]. destruct Hrun as [HB HP].
      split.
      * intros x Hx. rewrite (HB x Hx), Z.lor_spec, orb_true_iff.
        rewrite testbit_square_bb by exact Hx0. split.
        -- intros [[H|H]|(sq & Hsq & Hs)].
           ++ now left.
           ++ right. exists sq0. split; [exact Hbit|].
              apply Hone; [exact Hx|]. apply Z.eqb_eq in H. lia.
           ++ right. exists sq. split; [apply Hsplit; now right|exact Hs].
        -- intros [H|(sq & Hsq & Hs)]; [now left; left|].
           apply Hsplit in Hsq. destruct Hsq as [->|Hsq].
           ++ left; right. apply Z.eqb_eq. symmetry. now apply Hone.
           ++ right. now exists sq.
      * intros q. rewrite (HP q). split.
        -- intros [H|(Hq & x & Hx & Hs & Ho)].
           ++ destruct (Z.testbit (pieces_c p (color_of (piece_on p s))) x0) eqn:Eo; [|now left].
              rewrite Z.lor_spec, orb_true_iff in H. destruct H as [H|H]; [now left|].
              rewrite testbit_square_bb in H by lia. apply Z.eqb_eq in H. subst q.
              right. split; [exact Hbit|]. exists x0.
              split; [exact Hx0|]. split; [now apply Hone|exact Eo].
           ++ right. split; [apply Hsplit; now right|]. now exists x.
        -- intros [H|(Hq & x & Hx & Hs & Ho)].
           ++ left. destruct (Z.testbit (pieces_c p (color_of (piece_on p s))) x0); [|exact H].
              rewrite Z.lor_spec, H. reflexivity.
           ++ apply Hsplit in Hq. destruct Hq as [->|Hq].
              ** left. apply Hone in Hs; [|exact Hx]. subst x. rewrite Ho.
                 rewrite Z.lor_spec, testbit_square_bb, Z.eqb_refl by lia.
                 apply orb_true_r.
              ** right. split; [exact Hq|]. now exists x.
    + assert (Hnone : forall x, 0 <= x -> ~ sole_blocker s occupancy sq0 x).
      { intros x Hx Hs.
        assert (Ht : to_bool b && negb (more_than_one b) = true)
          by (apply (single_square_iff b Hb0); now exists x).
        rewrite Ht in Hc. discriminate. }
      apply IH in Hrun; [|exact Hhr|lia]. destruct Hrun as [HB HP].
      split.
      * intros x Hx. rewrite (HB x Hx). split.
        -- intros [H|(sq & Hsq & Hs)]; [now left|].
           right. exists sq. split; [apply Hsplit; now right|exact Hs].
        -- intros [H|(sq & Hsq & Hs)]; [now left|].
           apply Hsplit in Hsq. destruct Hsq as [->|Hsq].
           ++ exfalso. now apply (Hnone x Hx).
           ++ right. now exists sq.
      * intros q. rewrite (HP q). split.
        -- intros [H|(Hq & x & Hx & Hs & Ho)]; [now left|].
           right. split; [apply Hsplit; now right|]. now exists x.
        -- intros [H|(Hq & x & Hx & Hs & Ho)]; [now left|].
           apply Hsplit in Hq. destruct Hq as [->|Hq].
           ++ exfalso. now apply (Hnone x Hx).
           ++ right. split; [exact Hq|]. now exists x.
Qed.

End SliderBlockers.

(** X15. [slider_blockers] finds exactly the pieces that stand alone between
    the square [s] and a sniper, and exactly the snipers whose lone blocker
    has the colour of the piece on [s].  A sniper is a rook, bishop or queen
    among [sliders] on a line with [s]; the occupancy is that of the board
    with the snipers taken off.  A square is in the returned blockers iff it
    is the only occupied square between [s] and some sniper; a square is in
    [pinners] iff it holds a sniper whose only blocker belongs to the side
    of the piece on [s]. *)
Theorem slider_blockers_spec (p : Position) (sliders s : Z) :
  bitboard_ok sliders -> 0 <= pieces p ->
  let snipers := snipers_of p sliders s in
  let occupancy := Z.lxor (pieces p) snipers in
  let own := pieces_c p (color_of (piece_on p s)) in
  (forall x, 0 <= x ->
     (bb_has (fst (slider_blockers p sliders s)) x = true
      <-> exists sq, bb_has snipers sq = true /\ sole_blocker s occupancy sq x))
  /\ (forall sq,
        (bb_has (snd (slider_blockers p sliders s)) sq = true
         <-> bb_has snipers sq = true
             /\ exists x, 0 <= x /\ sole_blocker s occupancy sq x
                          /\ bb_has own x = true)).
Proof.
  intros Hs Hp snipers occupancy own.
  assert (Hh : hi_clear snipers)
    by (apply hi_clear_land_r, bitboard_ok_hi_clear, Hs).
  assert (Ho : 0 <= occupancy).
  { apply Z.lxor_nonneg. split; intros _; [apply hi_clear_nonneg, Hh|exact Hp]. }
  unfold slider_blockers. fold (snipers_of p sliders s). fold snipers. fold occupancy.
  destruct (slider_blockers_loop 64 p s occupancy snipers 0 0) as [B Pn] eqn:Hrun.
  destruct (slider_blockers_loop_spec p s occupancy Ho 64 snipers 0 0 B Pn Hh
              (bb_size_le_64 snipers) Hrun) as [HB HP].
  cbn [fst snd]. unfold bb_has. split.
  - intros x Hx. rewrite (HB x Hx), Z.bits_0. split.
    + intros [H|H]; [discriminate|exact H].
    + intros H. now right.
  - intros sq. rewrite (HP sq), Z.bits_0. split.
    + intros [H|H]; [discriminate|exact H].
    + intros H. now right.
Qed.

(** A rook pinned on the e-file: white king e1, white rook e2, black rook
    e8.  The rook on e2 is the blocker, the rook on e8 the pinner. *)
Lemma slider_blockers_spec_witness :
  let p := Position_set "4r1k1/8/8/8/8/8/4R3/4K3 w - - 0 1" false in
  bb_has (fst (slider_blockers p (pieces_c p BLACK) 4)) 12 = true.
Proof.
  intros p.
  assert (Hs : bitboard_ok (pieces_c p BLACK)).
  { split; [apply Z.leb_le | apply Z.ltb_lt]; vm_compute; reflexivity. }
  assert (Hp : 0 <= pieces p) by (apply Z.leb_le; vm_compute; reflexivity).
  destruct (slider_blockers_spec p (pieces_c p BLACK) 4 Hs Hp) as [HB _].
  apply (HB 12 ltac:(lia)). exists 60. split; vm_compute; reflexivity.
Defined.


(* ===================================================================== *)
(** * Making and taking back a move: what the state records *)
(* ===================================================================== *)

Lemma same_frame_refl p : same_frame p p.
Proof. unfold same_frame. tauto. Qed.

Lemma same_frame_trans p q r : same_frame p q -> same_frame q r -> same_frame p r.
Proof. unfold same_frame. intuition congruence. Qed.

Lemma same_frame_put_piece p pc s : same_frame p (put_piece p pc s).
Proof. unfold same_frame. repeat split; reflexivity. Qed.

Lemma same_frame_remove_piece p pc s : same_frame p (remove_piece p pc s).
Proof. unfold same_frame. repeat split; reflexivity. Qed.

Lemma same_frame_move_piece p pc a b : same_frame p (move_piece p pc a b).
Proof. unfold same_frame. repeat split; reflexivity. Qed.

Lemma same_frame_set_board p b : same_frame p (set_board b p).
Proof. unfold same_frame. repeat split; reflexivity. Qed.

Lemma same_frame_with_st p f : same_frame p (with_st f p).
Proof. unfold same_frame. repeat split; reflexivity. Qed.

Lemma same_frame_set_st p s : same_frame p (set_st s p).
Proof. unfold same_frame. repeat split; reflexivity. Qed.

(** Castling moves king and rook and leaves the state alone. *)
Lemma do_castling_shape Do p us from to :
  exists q,
    do_castling Do p us from to
    = (q, relative_square us (if to >? from then SQ_G1 else SQ_C1), to,
       relative_square us (if to >? from then SQ_F1 else SQ_D1))
    /\ st q = st p /\ same_frame p q
    /\ board q
       = let kto := relative_square us (if to >? from then SQ_G1 else SQ_C1) in
         let rto := relative_square us (if to >? from then SQ_F1 else SQ_D1) in
         aset (aset (aset (aset (board p) (if Do then to else rto) NO_PIECE)
                          (if Do then from else kto) NO_PIECE)
                    (if Do then kto else from) (make_piece us KING))
              (if Do then rto else to) (make_piece us ROOK).
Proof.
  unfold do_castling. eexists. split; [reflexivity|].
  split; [reflexivity|]. split; [|reflexivity].
  unfold same_frame. repeat split; reflexivity.
Qed.

(** The capture block: what it leaves in the state and in the running key. *)
Lemma do_move_capture_shape p m us them to captured k :
  let capsq := if (type_of captured =? PAWN) && (type_of_move m =? ENPASSANT)
               then to - pawn_push us else to in
  exists q,
    do_move_capture p m us them to captured k
    = (q, if to_bool captured then Z.lxor k (Zobrist_psq captured capsq) else k)
    /\ same_frame p q
    /\ castlingRights (st q) = castlingRights (st p)
    /\ pliesFromNull (st q) = pliesFromNull (st p)
    /\ epSquare (st q) = epSquare (st p)
    /\ previous (st q) = previous (st p)
    /\ rule50 (st q) = (if to_bool captured then 0 else rule50 (st p))
    /\ pawnKey (st q)
       = (if to_bool captured && (type_of captured =? PAWN)
          then Z.lxor (pawnKey (st p)) (Zobrist_psq captured capsq)
          else pawnKey (st p))
    /\ board q
       = (if to_bool captured && (type_of captured =? PAWN)
             && (type_of_move m =? ENPASSANT)
          then aset (board p) capsq NO_PIECE else board p).
Proof.
  intros capsq. subst capsq. unfold do_move_capture.
  destruct (to_bool captured); cbn [andb].
  2:{ exists p. repeat split; try reflexivity. }
  destruct (type_of captured =? PAWN); cbn [andb].
  - destruct (type_of_move m =? ENPASSANT);
      eexists; (split; [reflexivity|]); repeat split; reflexivity.
  - eexists. split; [reflexivity|]. repeat split; reflexivity.
Qed.

(** The pawn block: [e] tells whether an en-passant square was set. *)
Lemma do_move_pawn_shape p m us them from to pc k :
  let e := (type_of pc =? PAWN) && (Z.lxor to from =? 16)
           && to_bool (Z.land (attacks_from_pawn (to - pawn_push us) us)
                              (pieces_c_pt p them PAWN)) in
  let promotes := (type_of pc =? PAWN) && negb e && (type_of_move m =? PROMOTION) in
  let promotion := make_piece us (promotion_type m) in
  exists q,
    do_move_pawn p m us them from to pc k
    = (q, Z.lxor k (if e then Zobrist_enpassant (file_of (to - pawn_push us))
                    else if promotes
                         then Z.lxor (Zobrist_psq pc to) (Zobrist_psq promotion to)
                         else 0))
    /\ same_frame p q
    /\ castlingRights (st q) = castlingRights (st p)
    /\ pliesFromNull (st q) = pliesFromNull (st p)
    /\ previous (st q) = previous (st p)
    /\ epSquare (st q) = (if e then to - pawn_push us else epSquare (st p))
    /\ rule50 (st q) = (if type_of pc =? PAWN then 0 else rule50 (st p))
    /\ pawnKey (st q)
       = (if type_of pc =? PAWN
          then Z.lxor (Z.lxor (pawnKey (st p))
                              (if promotes then Zobrist_psq pc to else 0))
                      (Z.lxor (Zobrist_psq pc from) (Zobrist_psq pc to))
          else pawnKey (st p))
    /\ board q = (if promotes then aset (board p) to promotion else board p).
Proof.
  intros e promotes promotion. subst e promotes promotion. unfold do_move_pawn.
  destruct (type_of pc =? PAWN); cbn [andb].
  2:{ exists p. rewrite Z.lxor_0_r. repeat split; reflexivity. }
  destruct ((Z.lxor to from =? 16)
            && to_bool (Z.land (attacks_from_pawn (to - pawn_push us) us)
                               (pieces_c_pt p them PAWN))); cbn [negb andb].
  - eexists. split; [reflexivity|]. rewrite Z.lxor_0_r. repeat split; reflexivity.
  - destruct (type_of_move m =? PROMOTION).
    + eexists. split; [reflexivity|]. repeat split; reflexivity.
    + eexists. split; [rewrite Z.lxor_0_r; reflexivity|].
      rewrite Z.lxor_0_r. repeat split; reflexivity.
Qed.

(** [do_move] with the values it computes first given names. *)
Lemma do_move_unfold p m newSt givesCheck :
  forall p3 us them from to0 pc captured0 k0,
  k0 = Z.lxor (key (st p)) Zobrist_side ->
  p3 = with_st (fun s => set_pliesFromNull (pliesFromNull s + 1) s)
         (with_st (fun s => set_rule50 (rule50 s + 1) s)
            (set_gamePly (gamePly p + 1)
               (set_st (mkStateInfo (pawnKey (st p)) (materialKey (st p))
                          (nonPawnMaterial (st p)) (castlingRights (st p))
                          (rule50 (st p)) (pliesFromNull (st p)) (epSquare (st p))
                          (key newSt) (checkersBB newSt) (capturedPiece newSt)
                          (Some (st p)) (blockersForKing newSt) (pinners newSt)
                          (checkSquares newSt) (repetition newSt)) p))) ->
  us = sideToMove p3 -> them = flip_color us ->
  from = from_sq m -> to0 = to_sq m -> pc = piece_on p3 from ->
  captured0 = (if type_of_move m =? ENPASSANT then make_piece them PAWN
               else piece_on p3 to0) ->
  do_move p m newSt givesCheck
  = let '(p4, to, k1, captured) :=
      if type_of_move m =? CASTLING
      then
        let '(q, to', rfrom, rto) := do_castling true p3 us from to0 in
        (q, to',
         Z.lxor k0 (Z.lxor (Zobrist_psq captured0 rfrom) (Zobrist_psq captured0 rto)),
         NO_PIECE)
      else (p3, to0, k0, captured0) in
    let '(p5, k2) := do_move_capture p4 m us them to captured k1 in
    let k3 := Z.lxor k2 (Z.lxor (Zobrist_psq pc from) (Zobrist_psq pc to)) in
    let '(p6, k4) :=
      if negb (epSquare (st p5) =? SQ_NONE)
      then (with_st (set_epSquare SQ_NONE) p5,
            Z.lxor k3 (Zobrist_enpassant (file_of (epSquare (st p5)))))
      else (p5, k3) in
    let '(p7, k5) :=
      if to_bool (castlingRights (st p6))
         && to_bool (Z.lor (aget 0 (castlingRightsMask p6) from)
                           (aget 0 (castlingRightsMask p6) to))
      then
        let cr := Z.lor (aget 0 (castlingRightsMask p6) from)
                        (aget 0 (castlingRightsMask p6) to) in
        (with_st (fun s => set_castlingRights
                    (Z.land (castlingRights s) (Z.lnot cr)) s) p6,
         Z.lxor k4 (Zobrist_castling (Z.land (castlingRights (st p6)) cr)))
      else (p6, k4) in
    let p8 := if negb (type_of_move m =? CASTLING)
              then move_piece p7 pc from to else p7 in
    let '(p9, k6) := do_move_pawn p8 m us them from to pc k5 in
    let p10 := with_st (set_capturedPiece captured) p9 in
    let p11 := with_st (set_key k6) p10 in
    let p12 := with_st (set_checkersBB
                  (if givesCheck
                   then Z.land (attackers_to_sq p11 (square_of p11 KING them))
                               (pieces_c p11 us)
                   else 0)) p11 in
    let p13 := set_sideToMove (flip_color (sideToMove p12)) p12 in
    let p14 := with_st (set_check_info p13) p13 in
    with_st do_move_repetition p14.
Proof.
  intros p3 us them from to0 pc captured0 k0 -> -> -> -> -> -> -> ->.
  reflexivity.
Qed.

Lemma do_move_repetition_fields s :
  exists r, do_move_repetition s = set_repetition r s.
Proof.
  unfold do_move_repetition.
  destruct (_ >=? 4); [|now exists 0].
  destruct (previous2 (set_repetition 0 s)); [|now exists 0].
  eexists. reflexivity.
Qed.

(** The closing statements of [do_move], from the capture piece on. *)
Lemma do_move_finish_fields p9 captured k6 (givesCheck : bool) us them :
  let q :=
    let p10 := with_st (set_capturedPiece captured) p9 in
    let p11 := with_st (set_key k6) p10 in
    let p12 := with_st (set_checkersBB
                  (if givesCheck
                   then Z.land (attackers_to_sq p11 (square_of p11 KING them))
                               (pieces_c p11 us)
                   else 0)) p11 in
    let p13 := set_sideToMove (flip_color (sideToMove p12)) p12 in
    let p14 := with_st (set_check_info p13) p13 in
    with_st do_move_repetition p14 in
  castlingRightsMask q = castlingRightsMask p9
  /\ castlingRookSquare q = castlingRookSquare p9
  /\ castlingPath q = castlingPath p9
  /\ chess960 q = chess960 p9
  /\ gamePly q = gamePly p9
  /\ sideToMove q = flip_color (sideToMove p9)
  /\ previous (st q) = previous (st p9)
  /\ capturedPiece (st q) = captured
  /\ pliesFromNull (st q) = pliesFromNull (st p9)
  /\ rule50 (st q) = rule50 (st p9)
  /\ castlingRights (st q) = castlingRights (st p9)
  /\ epSquare (st q) = epSquare (st p9)
  /\ pawnKey (st q) = pawnKey (st p9)
  /\ key (st q) = k6
  /\ board q = board p9.
Proof.
  cbv zeta. unfold with_st.
  cbn [st set_st set_sideToMove sideToMove castlingRightsMask castlingRookSquare
       castlingPath chess960 gamePly board].
  match goal with |- context [do_move_repetition ?s] =>
    destruct (do_move_repetition_fields s) as [r ->] end.
  match goal with |- context [set_check_info ?a ?s] =>
    destruct (set_check_info_fields a s) as (b & pn & cs & ->) end.
  repeat split; reflexivity.
Qed.

(** Everything [do_move] records, in terms of the position before the move.
    [e] tells whether the move set an en-passant square. *)
Lemma do_move_shape p m newSt givesCheck :
  let us := sideToMove p in
  let them := flip_color us in
  let from := from_sq m in
  let to0 := to_sq m in
  let pc := piece_on p from in
  let castles := type_of_move m =? CASTLING in
  let to := if castles
            then relative_square us (if to0 >? from then SQ_G1 else SQ_C1)
            else to0 in
  let rto := relative_square us (if to0 >? from then SQ_F1 else SQ_D1) in
  let captured0 := if type_of_move m =? ENPASSANT then make_piece them PAWN
                   else piece_on p to0 in
  let captured := if castles then NO_PIECE else captured0 in
  let capsq := if (type_of captured =? PAWN) && (type_of_move m =? ENPASSANT)
               then to - pawn_push us else to in
  let mask := Z.lor (aget 0 (castlingRightsMask p) from)
                    (aget 0 (castlingRightsMask p) to) in
  let cr := castlingRights (st p) in
  let q := do_move p m newSt givesCheck in
  exists e : bool,
    (e = true -> type_of pc = PAWN /\ Z.lxor to from = 16)
    /\ castlingRightsMask q = castlingRightsMask p
    /\ castlingRookSquare q = castlingRookSquare p
    /\ castlingPath q = castlingPath p
    /\ chess960 q = chess960 p
    /\ gamePly q = gamePly p + 1
    /\ sideToMove q = them
    /\ previous (st q) = Some (st p)
    /\ capturedPiece (st q) = captured
    /\ pliesFromNull (st q) = pliesFromNull (st p) + 1
    /\ rule50 (st q) = (if to_bool captured || (type_of pc =? PAWN) then 0
                        else rule50 (st p) + 1)
    /\ castlingRights (st q) = Z.land cr (Z.lnot mask)
    /\ epSquare (st q) = (if e then to - pawn_push us else SQ_NONE)
    /\ pawnKey (st q)
       = Z.lxor (Z.lxor (Z.lxor (pawnKey (st p))
           (if to_bool captured && (type_of captured =? PAWN)
            then Zobrist_psq captured capsq else 0))
           (if (type_of pc =? PAWN) && negb e && (type_of_move m =? PROMOTION)
            then Zobrist_psq pc to else 0))
           (if type_of pc =? PAWN
            then Z.lxor (Zobrist_psq pc from) (Zobrist_psq pc to) else 0)
    /\ key (st q)
       = Z.lxor (Z.lxor (Z.lxor (Z.lxor (Z.lxor (Z.lxor (Z.lxor
           (Z.lxor (key (st p)) Zobrist_side)
           (if castles then Z.lxor (Zobrist_psq captured0 to0)
                                   (Zobrist_psq captured0 rto) else 0))
           (if to_bool captured then Zobrist_psq captured capsq else 0))
           (Z.lxor (Zobrist_psq pc from) (Zobrist_psq pc to)))
           (if negb (epSquare (st p) =? SQ_NONE)
            then Zobrist_enpassant (file_of (epSquare (st p))) else 0))
           (if to_bool cr && to_bool mask
            then Zobrist_castling (Z.land cr mask) else 0))
           (if e then Zobrist_enpassant (file_of (to - pawn_push us)) else 0))
           (if (type_of pc =? PAWN) && negb e && (type_of_move m =? PROMOTION)
            then Z.lxor (Zobrist_psq pc to)
                        (Zobrist_psq (make_piece us (promotion_type m)) to)
            else 0)
    /\ board q
       = (if castles
          then aset (aset (aset (aset (board p) to0 NO_PIECE) from NO_PIECE)
                          to (make_piece us KING))
                    rto (make_piece us ROOK)
          else
            let b1 := if to_bool captured && (type_of captured =? PAWN)
                         && (type_of_move m =? ENPASSANT)
                      then aset (board p) capsq NO_PIECE else board p in
            let b2 := aset (aset b1 from NO_PIECE) to pc in
            if (type_of pc =? PAWN) && negb e && (type_of_move m =? PROMOTION)
            then aset b2 to (make_piece us (promotion_type m)) else b2).
Proof.
  intros us them from to0 pc castles to rto captured0 captured capsq mask cr q.
  set (p3 := with_st (fun s => set_pliesFromNull (pliesFromNull s + 1) s)
         (with_st (fun s => set_rule50 (rule50 s + 1) s)
            (set_gamePly (gamePly p + 1)
               (set_st (mkStateInfo (pawnKey (st p)) (materialKey (st p))
                          (nonPawnMaterial (st p)) (castlingRights (st p))
                          (rule50 (st p)) (pliesFromNull (st p)) (epSquare (st p))
                          (key newSt) (checkersBB newSt) (capturedPiece newSt)
                          (Some (st p)) (blockersForKing newSt) (pinners newSt)
                          (checkSquares newSt) (repetition newSt)) p)))).
  assert (Hq : q = do_move p m newSt givesCheck) by reflexivity. clearbody q.
  rewrite (do_move_unfold p m newSt givesCheck p3 us them from to0 pc captured0
             (Z.lxor (key (st p)) Zobrist_side)
             eq_refl eq_refl eq_refl eq_refl eq_refl eq_refl eq_refl eq_refl) in Hq.
  assert (H3 : (castlingRightsMask p3 = castlingRightsMask p
                /\ castlingRookSquare p3 = castlingRookSquare p
                /\ castlingPath p3 = castlingPath p
                /\ chess960 p3 = chess960 p
                /\ gamePly p3 = gamePly p + 1
                /\ sideToMove p3 = us)
               /\ previous (st p3) = Some (st p)
               /\ pliesFromNull (st p3) = pliesFromNull (st p) + 1
               /\ rule50 (st p3) = rule50 (st p) + 1
               /\ castlingRights (st p3) = cr
               /\ epSquare (st p3) = epSquare (st p)
               /\ pawnKey (st p3) = pawnKey (st p)
               /\ board p3 = board p)
    by (repeat split; reflexivity).
  clearbody p3.
  destruct H3 as (Hf3 & Hprev3 & Hpl3 & Hr3 & Hcr3 & Hep3 & Hpk3 & Hb3).
  assert (Hcastles : castles = (type_of_move m =? CASTLING)) by reflexivity.
  clearbody castles.
  (* the castling block *)
  assert (H4 : exists p4,
             (if type_of_move m =? CASTLING
              then
                let '(q, to', rfrom, rto) := do_castling true p3 us from to0 in
                (q, to',
                 Z.lxor (Z.lxor (key (st p)) Zobrist_side)
                   (Z.lxor (Zobrist_psq captured0 rfrom) (Zobrist_psq captured0 rto)),
                 NO_PIECE)
              else (p3, to0, Z.lxor (key (st p)) Zobrist_side, captured0))
             = (p4, to,
                Z.lxor (Z.lxor (key (st p)) Zobrist_side)
                  (if castles then Z.lxor (Zobrist_psq captured0 to0)
                                          (Zobrist_psq captured0 rto) else 0),
                captured)
             /\ st p4 = st p3 /\ same_frame p3 p4
             /\ board p4
                = (if castles
                   then aset (aset (aset (aset (board p3) to0 NO_PIECE) from NO_PIECE)
                                   to (make_piece us KING))
                             rto (make_piece us ROOK)
                   else board p3)).
  { subst to captured. rewrite Hcastles.
    destruct (type_of_move m =? CASTLING).
    - destruct (do_castling_shape true p3 us from to0)
        as (p4 & E4 & Hst4 & Hfr4 & Hb4).
      exists p4. rewrite E4. split; [reflexivity|]. split; [exact Hst4|].
      split; [exact Hfr4|exact Hb4].
    - exists p3. rewrite Z.lxor_0_r. split; [reflexivity|]. split; [reflexivity|].
      split; [apply same_frame_refl|reflexivity]. }
  destruct H4 as (p4 & E4 & Hst4 & Hfr4 & Hb4). rewrite E4 in Hq. clear E4.
  cbv beta iota in Hq.
  (* the capture block *)
  match type of Hq with context [do_move_capture p4 m us them to captured ?k] =>
    destruct (do_move_capture_shape p4 m us them to captured k)
      as (p5 & E5 & Hfr5 & Hcr5 & Hpl5 & Hep5 & Hprev5 & Hr5 & Hpk5 & Hb5) end.
  rewrite E5 in Hq. clear E5. cbv beta iota in Hq.
  fold capsq in Hq.
  assert (Hep5' : epSquare (st p5) = epSquare (st p)) by congruence.
  (* reset of the en-passant square *)
  cbv zeta in Hq.
  match type of Hq with
    context [if negb (epSquare (st p5) =? SQ_NONE) then (?a, Z.lxor ?k3 ?x) else ?b] =>
    assert (H6 : exists p6,
              (if negb (epSquare (st p5) =? SQ_NONE) then (a, Z.lxor k3 x) else b)
              = (p6, Z.lxor k3 (if negb (epSquare (st p) =? SQ_NONE)
                                then Zobrist_enpassant (file_of (epSquare (st p)))
                                else 0))
              /\ same_frame p5 p6
              /\ castlingRights (st p6) = castlingRights (st p5)
              /\ pliesFromNull (st p6) = pliesFromNull (st p5)
              /\ previous (st p6) = previous (st p5)
              /\ rule50 (st p6) = rule50 (st p5)
              /\ pawnKey (st p6) = pawnKey (st p5)
              /\ board p6 = board p5
              /\ epSquare (st p6) = SQ_NONE)
  end.
  { rewrite Hep5'. destruct (Z.eqb_spec (epSquare (st p)) SQ_NONE) as [E|E]; cbn [negb].
    - exists p5. rewrite Z.lxor_0_r. split; [reflexivity|].
      split; [apply same_frame_refl|]. repeat (split; [reflexivity|]). congruence.
    - eexists. split; [reflexivity|].
      split; [apply same_frame_with_st|]. repeat (split; [reflexivity|]). reflexivity. }
  destruct H6 as (p6 & E6 & Hfr6 & Hcr6 & Hpl6 & Hprev6 & Hr6 & Hpk6 & Hb6 & Hep6).
  rewrite E6 in Hq. clear E6. cbv beta iota in Hq.
  (* castling rights *)
  assert (Hmask : Z.lor (aget 0 (castlingRightsMask p6) from)
                        (aget 0 (castlingRightsMask p6) to) = mask).
  { unfold mask. replace (castlingRightsMask p6) with (castlingRightsMask p);
      [reflexivity|].
    destruct Hf3 as (A3 & _), Hfr4 as (A4 & _), Hfr5 as (A5 & _), Hfr6 as (A6 & _).
    congruence. }
  assert (Hcr6' : castlingRights (st p6) = cr) by congruence.
  rewrite Hmask, Hcr6' in Hq.
  match type of Hq with
    context [if to_bool cr && to_bool mask then (?a, Z.lxor ?k4 ?x) else ?b] =>
    assert (H7 : exists p7,
              (if to_bool cr && to_bool mask then (a, Z.lxor k4 x) else b)
              = (p7, Z.lxor k4 (if to_bool cr && to_bool mask
                                then Zobrist_castling (Z.land cr mask) else 0))
              /\ same_frame p6 p7
              /\ castlingRights (st p7) = Z.land cr (Z.lnot mask)
              /\ pliesFromNull (st p7) = pliesFromNull (st p6)
              /\ previous (st p7) = previous (st p6)
              /\ rule50 (st p7) = rule50 (st p6)
              /\ pawnKey (st p7) = pawnKey (st p6)
              /\ board p7 = board p6
              /\ epSquare (st p7) = epSquare (st p6))
  end.
  { destruct (to_bool cr && to_bool mask) eqn:Hc.
    - eexists. split; [reflexivity|].
      split; [apply same_frame_with_st|].
      split; [cbn [st with_st set_st castlingRights set_castlingRights];
              now rewrite Hcr6'|].
      repeat (split; [reflexivity|]). reflexivity.
    - exists p6. rewrite Z.lxor_0_r. split; [reflexivity|].
      split; [apply same_frame_refl|].
      split; [|repeat (split; [reflexivity|]); reflexivity].
      rewrite Hcr6'. apply andb_false_iff in Hc.
      destruct Hc as [Hc|Hc]; apply to_bool_false in Hc; rewrite Hc.
      + reflexivity.
      + change (Z.lnot 0) with (-1). now rewrite Z.land_m1_r. }
  destruct H7 as (p7 & E7 & Hfr7 & Hcr7 & Hpl7 & Hprev7 & Hr7 & Hpk7 & Hb7 & Hep7).
  rewrite E7 in Hq. clear E7. cbv beta iota in Hq.
  (* the move itself *)
  remember (if negb (type_of_move m =? CASTLING)
            then move_piece p7 pc from to else p7) as p8 eqn:Hp8 in Hq.
  assert (H8 : st p8 = st p7 /\ same_frame p7 p8
               /\ board p8 = (if castles then board p7
                              else aset (aset (board p7) from NO_PIECE) to pc)).
  { subst p8. rewrite Hcastles. destruct (type_of_move m =? CASTLING);
      cbn [negb]; (split; [reflexivity|]); split; try reflexivity;
      [apply same_frame_refl|apply same_frame_move_piece]. }
  destruct H8 as (Hst8 & Hfr8 & Hb8). clear Hp8.
  assert (Hr8' : rule50 (st p8) = rule50 (st p5)) by congruence.
  (* the pawn block *)
  match type of Hq with
    context [do_move_pawn p8 m us them from to pc ?k5] =>
    destruct (do_move_pawn_shape p8 m us them from to pc k5)
      as (p9 & E9 & Hfr9 & Hcr9 & Hpl9 & Hprev9 & Hep9 & Hr9 & Hpk9 & Hb9)
  end.
  set (e := (type_of pc =? PAWN) && (Z.lxor to from =? 16)
            && to_bool (Z.land (attacks_from_pawn (to - pawn_push us) us)
                               (pieces_c_pt p8 them PAWN))) in *.
  rewrite E9 in Hq. clear E9. cbv beta iota in Hq.
  (* the closing statements *)
  match type of Hq with context [set_key ?k6] =>
    pose proof (do_move_finish_fields p9 captured k6 givesCheck us them) as HF
  end.
  cbv zeta in HF. rewrite <- Hq in HF. clear Hq.
  destruct HF as (F1 & F2 & F3 & F4 & F5 & F6 & F7 & F8 & F9 & F10 & F11 & F12
                  & F13 & F14 & F15).
  assert (Hfr : same_frame p3 p9).
  { apply (same_frame_trans _ p4 _ Hfr4), (same_frame_trans _ p5 _ Hfr5),
      (same_frame_trans _ p6 _ Hfr6), (same_frame_trans _ p7 _ Hfr7),
      (same_frame_trans _ p8 _ Hfr8), Hfr9. }
  destruct Hfr as (A9 & B9 & C9 & D9 & E9 & G9).
  destruct Hf3 as (A3 & B3 & C3 & D3 & E3 & G3).
  exists e. split.
  { unfold e. intros He. apply andb_true_iff in He. destruct He as [He _].
    apply andb_true_iff in He. destruct He as [He1 He2].
    split; now apply Z.eqb_eq. }
  split; [congruence|]. split; [congruence|]. split; [congruence|].
  split; [congruence|]. split; [congruence|].
  split; [rewrite F6; fold us; unfold them; congruence|].
  split; [congruence|]. split; [exact F8|]. split; [congruence|].
  split.
  { rewrite F10, Hr9, Hr8', Hr5, Hst4, Hr3.
    destruct (to_bool captured), (type_of pc =? PAWN); reflexivity. }
  split; [congruence|].
  split.
  { rewrite F12, Hep9. destruct e; [reflexivity|]. congruence. }
  split.
  { rewrite F13, Hpk9, Hst8, Hpk7, Hpk6, Hpk5, Hst4, Hpk3.
    fold capsq.
    destruct (to_bool captured && (type_of captured =? PAWN)), e,
      (type_of pc =? PAWN), (type_of_move m =? PROMOTION); cbn [negb andb];
      rewrite ?Z.lxor_0_r; reflexivity. }
  split.
  { rewrite F14.
    destruct (to_bool captured), castles, (negb (epSquare (st p) =? SQ_NONE)),
      (to_bool cr && to_bool mask), e, (type_of pc =? PAWN),
      (type_of_move m =? PROMOTION); cbn [negb andb];
      rewrite ?Z.lxor_0_r; reflexivity. }
  rewrite F15, Hb9, Hb8, Hb7, Hb6, Hb5, Hb4, Hb3. fold capsq.
  assert (Hcap : castles = true -> to_bool captured = false)
    by (intros Hc; unfold captured; rewrite Hc; reflexivity).
  assert (Hpro : castles = true -> (type_of_move m =? PROMOTION) = false).
  { intros Hc. rewrite Hcastles in Hc. apply Z.eqb_eq in Hc. rewrite Hc.
    reflexivity. }
  cbv zeta.
  destruct castles.
  - rewrite (Hcap eq_refl), (Hpro eq_refl), !andb_false_r. cbn [andb]. reflexivity.
  - reflexivity.
Qed.

(** Taking a move back: the state pointer goes back one step, side to
    move and ply counter are reverted, and the board gets its pieces back. *)
Lemma undo_move_shape q m :
  let r := undo_move q m in
  let us := flip_color (sideToMove q) in
  let from := from_sq m in
  let to := to_sq m in
  let promo := type_of_move m =? PROMOTION in
  let b1 := if promo then aset (board q) to (make_piece us PAWN) else board q in
  let pc := if promo then make_piece us PAWN else piece_on q to in
  let kto := relative_square us (if to >? from then SQ_G1 else SQ_C1) in
  let rto := relative_square us (if to >? from then SQ_F1 else SQ_D1) in
  st r = match previous (st q) with Some s => s | None => st q end
  /\ castlingRightsMask r = castlingRightsMask q
  /\ castlingRookSquare r = castlingRookSquare q
  /\ castlingPath r = castlingPath q
  /\ chess960 r = chess960 q
  /\ gamePly r = gamePly q - 1
  /\ sideToMove r = us
  /\ board r
     = (if type_of_move m =? CASTLING
        then aset (aset (aset (aset b1 rto NO_PIECE) kto NO_PIECE)
                        from (make_piece us KING))
                  to (make_piece us ROOK)
        else
          let b2 := aset (aset b1 to NO_PIECE) from pc in
          if to_bool (capturedPiece (st q))
          then aset b2 (if type_of_move m =? ENPASSANT then to - pawn_push us
                        else to)
                    (capturedPiece (st q))
          else b2).
Proof.
  cbv zeta. unfold undo_move.
  set (p0 := set_sideToMove (flip_color (sideToMove q)) q).
  change (sideToMove p0) with (flip_color (sideToMove q)).
  set (us := flip_color (sideToMove q)).
  change (piece_on p0 (to_sq m)) with (piece_on q (to_sq m)).
  assert (H1 : exists p1,
            (if type_of_move m =? PROMOTION
             then (put_piece (remove_piece p0 (piece_on q (to_sq m)) (to_sq m))
                             (make_piece us PAWN) (to_sq m),
                   make_piece us PAWN)
             else (p0, piece_on q (to_sq m)))
            = (p1, if type_of_move m =? PROMOTION then make_piece us PAWN
                   else piece_on q (to_sq m))
            /\ st p1 = st q /\ same_frame p0 p1
            /\ board p1 = (if type_of_move m =? PROMOTION
                           then aset (board q) (to_sq m) (make_piece us PAWN)
                           else board q)).
  { destruct (type_of_move m =? PROMOTION); eexists;
      (split; [reflexivity|]); (split; [reflexivity|]); (split; [|reflexivity]);
      unfold same_frame; repeat split; reflexivity. }
  destruct H1 as (p1 & E1 & Hst1 & Hfr1 & Hb1). rewrite E1. clear E1.
  cbv beta iota.
  set (pc := if type_of_move m =? PROMOTION then make_piece us PAWN
             else piece_on q (to_sq m)) in *.
  set (b1 := if type_of_move m =? PROMOTION
             then aset (board q) (to_sq m) (make_piece us PAWN) else board q) in *.
  match goal with |- context [match previous (st ?x) with _ => _ end] =>
    assert (H2 : st x = st q /\ same_frame p1 x
                 /\ board x
                    = (if type_of_move m =? CASTLING
                       then aset (aset (aset (aset b1
                              (relative_square us
                                 (if to_sq m >? from_sq m then SQ_F1 else SQ_D1))
                              NO_PIECE)
                              (relative_square us
                                 (if to_sq m >? from_sq m then SQ_G1 else SQ_C1))
                              NO_PIECE)
                              (from_sq m) (make_piece us KING))
                              (to_sq m) (make_piece us ROOK)
                       else
                         if to_bool (capturedPiece (st q))
                         then aset (aset (aset b1 (to_sq m) NO_PIECE) (from_sq m) pc)
                                   (if type_of_move m =? ENPASSANT
                                    then to_sq m - pawn_push us else to_sq m)
                                   (capturedPiece (st q))
                         else aset (aset b1 (to_sq m) NO_PIECE) (from_sq m) pc)) end.
  { destruct (type_of_move m =? CASTLING).
    - destruct (do_castling_shape false p1 us (from_sq m) (to_sq m))
        as (p2 & E2 & Hst2 & Hfr2 & Hb2).
      rewrite E2. split; [congruence|]. split; [exact Hfr2|].
      rewrite Hb2, Hb1. reflexivity.
    - cbv zeta.
      change (st (move_piece p1 pc (to_sq m) (from_sq m))) with (st p1).
      rewrite Hst1.
      destruct (to_bool (capturedPiece (st q)));
        (split; [exact Hst1|]); (split; [|cbn [board put_piece move_piece];
                                          rewrite Hb1; reflexivity]);
        unfold same_frame; repeat split; reflexivity. }
  match goal with |- context [match previous (st ?x) with _ => _ end] =>
    generalize dependent x end.
  intros p2 (Hst2 & Hfr2 & Hb2).
  destruct Hfr1 as (A1 & B1 & C1 & D1 & E1 & G1).
  destruct Hfr2 as (A2 & B2 & C2 & D2 & E2 & G2).
  change (castlingRightsMask p0) with (castlingRightsMask q) in A1.
  change (castlingRookSquare p0) with (castlingRookSquare q) in B1.
  change (castlingPath p0) with (castlingPath q) in C1.
  change (gamePly p0) with (gamePly q) in D1.
  change (sideToMove p0) with us in E1.
  change (chess960 p0) with (chess960 q) in G1.
  rewrite Hst2.
  destruct (previous (st q)) as [s|];
    cbn [st set_st set_gamePly gamePly castlingRightsMask castlingRookSquare
         castlingPath chess960 sideToMove board];
    (split; [reflexivity || exact Hst2|]); repeat (split; [congruence|]);
    rewrite Hb2; destruct (type_of_move m =? CASTLING); try reflexivity;
    destruct (to_bool (capturedPiece (st q))); reflexivity.
Qed.

Lemma Zobrist_castling_0 : Zobrist_castling 0 = 0.
Proof. vm_compute. reflexivity. Qed.

(** X16. the bookkeeping of [do_move], for every move.  The new state points
    back to the old one; ply counter and [pliesFromNull] advance by one; the
    side to move flips; the castling descriptors and the Chess960 flag are
    not touched; [capturedPiece] is the piece taken (a pawn of the other side
    for an en-passant capture, nothing for castling); [rule50] restarts at 0
    after a capture or a pawn move and advances by one otherwise; the
    castling rights lose exactly the rights that the masks of the origin and
    destination squares name (for castling the destination is the king's
    final square); and the en-passant square is [SQ_NONE] unless a pawn moved
    with [to ^ from = 16], in which case it may be the square behind the
    pawn. *)
Theorem do_move_bookkeeping (p : Position) (m : Z) (newSt : StateInfo)
        (givesCheck : bool) :
  let us := sideToMove p in
  let them := flip_color us in
  let from := from_sq m in
  let pc := piece_on p from in
  let castles := type_of_move m =? CASTLING in
  let to := if castles
            then relative_square us (if to_sq m >? from then SQ_G1 else SQ_C1)
            else to_sq m in
  let captured := if castles then NO_PIECE
                  else if type_of_move m =? ENPASSANT then make_piece them PAWN
                       else piece_on p (to_sq m) in
  let mask := Z.lor (aget 0 (castlingRightsMask p) from)
                    (aget 0 (castlingRightsMask p) to) in
  let q := do_move p m newSt givesCheck in
  previous (st q) = Some (st p)
  /\ gamePly q = gamePly p + 1
  /\ sideToMove q = them
  /\ castlingRightsMask q = castlingRightsMask p
  /\ castlingRookSquare q = castlingRookSquare p
  /\ castlingPath q = castlingPath p
  /\ chess960 q = chess960 p
  /\ capturedPiece (st q) = captured
  /\ pliesFromNull (st q) = pliesFromNull (st p) + 1
  /\ rule50 (st q) = (if to_bool captured || (type_of pc =? PAWN) then 0
                      else rule50 (st p) + 1)
  /\ castlingRights (st q) = Z.land (castlingRights (st p)) (Z.lnot mask)
  /\ (epSquare (st q) = SQ_NONE
      \/ (type_of pc = PAWN /\ Z.lxor to from = 16
          /\ epSquare (st q) = to - pawn_push us)).
Proof.
  intros us them from pc castles to captured mask q.
  destruct (do_move_shape p m newSt givesCheck)
    as (e & He & A & B & C & D & E & F & G & H & I & J & K & L & _).
  split; [exact G|]. split; [exact E|]. split; [exact F|].
  split; [exact A|]. split; [exact B|]. split; [exact C|]. split; [exact D|].
  split; [exact H|]. split; [exact I|]. split; [exact J|]. split; [exact K|].
  destruct e.
  - right. destruct (He eq_refl) as [He1 He2]. now repeat split.
  - left. exact L.
Qed.

(** X17. the hash keys [do_move] leaves, for every move.  The position key is
    the old key XOR [side], XOR the rook's two squares for castling, XOR the
    captured piece on its square, XOR the moving piece on its origin and
    destination, XOR the en-passant key of the old en-passant file if there
    was one, XOR the castling key of the rights lost, XOR the en-passant
    key of the new en-passant file if one is set ([e]), XOR pawn and
    promoted piece on the destination for a promotion.  The pawn key
    changes by the captured pawn, by the moving pawn's two squares, and by
    the pawn taken off the destination when it promotes. *)
Theorem do_move_hash_keys (p : Position) (m : Z) (newSt : StateInfo)
        (givesCheck : bool) :
  let us := sideToMove p in
  let them := flip_color us in
  let from := from_sq m in
  let pc := piece_on p from in
  let castles := type_of_move m =? CASTLING in
  let to := if castles
            then relative_square us (if to_sq m >? from then SQ_G1 else SQ_C1)
            else to_sq m in
  let rto := relative_square us (if to_sq m >? from then SQ_F1 else SQ_D1) in
  let captured0 := if type_of_move m =? ENPASSANT then make_piece them PAWN
                   else piece_on p (to_sq m) in
  let captured := if castles then NO_PIECE else captured0 in
  let capsq := if (type_of captured =? PAWN) && (type_of_move m =? ENPASSANT)
               then to - pawn_push us else to in
  let mask := Z.lor (aget 0 (castlingRightsMask p) from)
                    (aget 0 (castlingRightsMask p) to) in
  let cr := castlingRights (st p) in
  let q := do_move p m newSt givesCheck in
  exists e : bool,
    (e = true -> type_of pc = PAWN /\ Z.lxor to from = 16)
    /\ epSquare (st q) = (if e then to - pawn_push us else SQ_NONE)
    /\ key (st q)
       = Z.lxor (Z.lxor (Z.lxor (Z.lxor (Z.lxor (Z.lxor (Z.lxor
           (Z.lxor (key (st p)) Zobrist_side)
           (if castles then Z.lxor (Zobrist_psq captured0 (to_sq m))
                                   (Zobrist_psq captured0 rto) else 0))
           (if to_bool captured then Zobrist_psq captured capsq else 0))
           (Z.lxor (Zobrist_psq pc from) (Zobrist_psq pc to)))
           (if negb (epSquare (st p) =? SQ_NONE)
            then Zobrist_enpassant (file_of (epSquare (st p))) else 0))
           (if to_bool cr && to_bool mask
            then Zobrist_castling (Z.land cr mask) else 0))
           (if e then Zobrist_enpassant (file_of (to - pawn_push us)) else 0))
           (if (type_of pc =? PAWN) && negb e && (type_of_move m =? PROMOTION)
            then Z.lxor (Zobrist_psq pc to)
                        (Zobrist_psq (make_piece us (promotion_type m)) to)
            else 0)
    /\ pawnKey (st q)
       = Z.lxor (Z.lxor (Z.lxor (pawnKey (st p))
           (if to_bool captured && (type_of captured =? PAWN)
            then Zobrist_psq captured capsq else 0))
           (if (type_of pc =? PAWN) && negb e && (type_of_move m =? PROMOTION)
            then Zobrist_psq pc to else 0))
           (if type_of pc =? PAWN
            then Z.lxor (Zobrist_psq pc from) (Zobrist_psq pc to) else 0).
Proof.
  intros us them from pc castles to rto captured0 captured capsq mask cr q.
  destruct (do_move_shape p m newSt givesCheck)
    as (e & He & _ & _ & _ & _ & _ & _ & _ & _ & _ & _ & _ & L & M & N & _).
  exists e. split; [exact He|]. split; [exact L|]. split; [exact N|exact M].
Qed.

(** X18. [key_after] predicts the key of [do_move] for the moves it is meant
    for: a NORMAL move that is not a pawn move with [to ^ from = 16], made
    when no en-passant square is set and touching no castling right that is
    still held, leaves exactly the key [key_after] computes beforehand. *)
Theorem key_after_do_move (p : Position) (m : Z) (newSt : StateInfo)
        (givesCheck : bool) :
  type_of_move m = NORMAL ->
  type_of (piece_on p (from_sq m)) <> PAWN \/ Z.lxor (to_sq m) (from_sq m) <> 16 ->
  epSquare (st p) = SQ_NONE ->
  Z.land (castlingRights (st p))
         (Z.lor (aget 0 (castlingRightsMask p) (from_sq m))
                (aget 0 (castlingRightsMask p) (to_sq m))) = 0 ->
  key (st (do_move p m newSt givesCheck)) = key_after p m.
Proof.
  intros Hn Hpawn Hep Hcr.
  destruct (do_move_shape p m newSt givesCheck)
    as (e & He & _ & _ & _ & _ & _ & _ & _ & _ & _ & _ & _ & _ & _ & N & _).
  cbv zeta in He, N. rewrite N. clear N. rewrite Hn in *. rewrite Hep.
  change (NORMAL =? CASTLING) with false in *.
  change (NORMAL =? ENPASSANT) with false.
  change (NORMAL =? PROMOTION) with false.
  change (SQ_NONE =? SQ_NONE) with true.
  cbv beta iota in *. rewrite Hcr, Zobrist_castling_0.
  assert (e = false) as ->.
  { destruct e; [|reflexivity]. destruct (He eq_refl) as [H1 H2].
    destruct Hpawn; contradiction. }
  rewrite !andb_false_r. cbn [negb andb].
  unfold key_after.
  replace (if to_bool (castlingRights (st p))
              && to_bool (Z.lor (aget 0 (castlingRightsMask p) (from_sq m))
                                (aget 0 (castlingRightsMask p) (to_sq m)))
           then 0 else 0) with 0 by (now destruct (_ && _)).
  destruct (to_bool (piece_on p (to_sq m))); xor_solve.
Qed.

(** The knight move g1-f3 from the starting position. *)
Lemma key_after_do_move_witness :
  key (st (do_move StartPos (make_move SQ_G1 SQ_F3) StateInfo_zero false))
  = key_after StartPos (make_move SQ_G1 SQ_F3).
Proof.
  apply key_after_do_move.
  - reflexivity.
  - left. vm_compute. discriminate.
  - vm_compute. reflexivity.
  - vm_compute. reflexivity.
Defined.

(** State and frame after a move made and taken back. *)
Lemma undo_do_state (p : Position) (m : Z) (newSt : StateInfo)
        (givesCheck : bool) :
  let r := undo_move (do_move p m newSt givesCheck) m in
  st r = st p
  /\ sideToMove r = sideToMove p
  /\ gamePly r = gamePly p
  /\ castlingRightsMask r = castlingRightsMask p
  /\ castlingRookSquare r = castlingRookSquare p
  /\ castlingPath r = castlingPath p
  /\ chess960 r = chess960 p.
Proof.
  intros r.
  destruct (do_move_shape p m newSt givesCheck)
    as (e & _ & A & B & C & D & E & F & G & _).
  destruct (undo_move_shape (do_move p m newSt givesCheck) m)
    as (S & A' & B' & C' & D' & E' & F' & _).
  fold r in S, A', B', C', D', E', F'.
  cbv zeta in *. rewrite G in S.
  split; [exact S|]. split; [rewrite F', F; apply flip_color_involutive|].
  split; [lia|]. repeat split; congruence.
Qed.

(** X19. [undo_move] after [do_move] restores the state and the frame of the
    position, for every move: the state pointer is back at the very state
    the position had (keys, castling rights, en-passant square, counters and
    all), and side to move, ply counter, castling descriptors and Chess960
    flag are as before. *)
Theorem undo_move_do_move_state (p : Position) (m : Z) (newSt : StateInfo)
        (givesCheck : bool) :
  let r := undo_move (do_move p m newSt givesCheck) m in
  st r = st p
  /\ sideToMove r = sideToMove p
  /\ gamePly r = gamePly p
  /\ castlingRightsMask r = castlingRightsMask p
  /\ castlingRookSquare r = castlingRookSquare p
  /\ castlingPath r = castlingPath p
  /\ chess960 r = chess960 p.
Proof. exact (undo_do_state p m newSt givesCheck). Qed.


(* ===================================================================== *)
(** * Setting up a position *)
(* ===================================================================== *)









(* ===================================================================== *)
(** * The board through a move and back *)
(* ===================================================================== *)


Lemma make_piece_pawn c :
  to_bool (make_piece c PAWN) = true /\ type_of (make_piece c PAWN) = PAWN.
Proof.
  unfold make_piece, type_of, PAWN. rewrite Z.shiftl_mul_pow2 by lia.
  change (2 ^ 3) with 8. split.
  - apply to_bool_true. lia.
  - change 7 with (Z.ones 3). rewrite Z.land_ones by lia.
    change (2 ^ 3) with 8. rewrite Z.add_comm, Z.mod_add by lia. reflexivity.
Qed.

(** X20. what [do_move] does to the board, move type by move type.  A NORMAL
    move empties the origin and puts the moving piece on the destination; an
    en-passant capture also empties the square behind the destination; a
    promotion of a pawn that does not move two ranks leaves the promoted
    piece on the destination; castling empties the squares of king and rook
    and puts the king and the rook of the side to move on their final
    squares. *)
Theorem do_move_board (p : Position) (m : Z) (newSt : StateInfo)
        (givesCheck : bool) :
  let us := sideToMove p in
  let from := from_sq m in
  let to := to_sq m in
  let pc := piece_on p from in
  let kto := relative_square us (if to >? from then SQ_G1 else SQ_C1) in
  let rto := relative_square us (if to >? from then SQ_F1 else SQ_D1) in
  let b := board p in
  let b' := board (do_move p m newSt givesCheck) in
  (type_of_move m = NORMAL -> b' = aset (aset b from NO_PIECE) to pc)
  /\ (type_of_move m = ENPASSANT ->
      b' = aset (aset (aset b (to - pawn_push us) NO_PIECE) from NO_PIECE) to pc)
  /\ (type_of_move m = PROMOTION -> type_of pc = PAWN -> Z.lxor to from <> 16 ->
      b' = aset (aset (aset b from NO_PIECE) to pc)
                to (make_piece us (promotion_type m)))
  /\ (type_of_move m = CASTLING ->
      b' = aset (aset (aset (aset b to NO_PIECE) from NO_PIECE)
                      kto (make_piece us KING))
                rto (make_piece us ROOK)).
Proof.
  intros us from to pc kto rto b b'.
  destruct (do_move_shape p m newSt givesCheck)
    as (e & He & _ & _ & _ & _ & _ & _ & _ & _ & _ & _ & _ & _ & _ & _ & B).
  cbv zeta in He, B. fold us from to pc b in He, B. fold b' in B.
  repeat split.
  - intros Hn. rewrite B, Hn.
    change (NORMAL =? CASTLING) with false.
    change (NORMAL =? ENPASSANT) with false.
    change (NORMAL =? PROMOTION) with false.
    cbv beta iota. rewrite !andb_false_r. reflexivity.
  - intros Hn. rewrite B, Hn.
    change (ENPASSANT =? CASTLING) with false.
    change (ENPASSANT =? ENPASSANT) with true.
    change (ENPASSANT =? PROMOTION) with false.
    cbv beta iota.
    destruct (make_piece_pawn (flip_color us)) as [H1 H2].
    rewrite H1, H2, !andb_false_r. reflexivity.
  - intros Hn Hpawn Hx. rewrite B, Hn.
    change (PROMOTION =? CASTLING) with false.
    change (PROMOTION =? ENPASSANT) with false.
    change (PROMOTION =? PROMOTION) with true.
    cbv beta iota in *.
    assert (e = false) as ->.
    { destruct e; [|reflexivity]. rewrite Hn in He.
      change (PROMOTION =? CASTLING) with false in He. cbv beta iota in He.
      destruct (He eq_refl) as [_ H]. contradiction. }
    rewrite Hpawn, !andb_false_r. reflexivity.
  - intros Hn. rewrite B, Hn.
    change (CASTLING =? CASTLING) with true. cbv beta iota. reflexivity.
Qed.

(** The knight move g1-f3 from the starting position. *)
Lemma do_move_board_witness :
  board (do_move StartPos (make_move SQ_G1 SQ_F3) StateInfo_zero false)
  = aset (aset (board StartPos) SQ_G1 NO_PIECE) SQ_F3 W_KNIGHT.
Proof.
  exact (proj1 (do_move_board StartPos (make_move SQ_G1 SQ_F3) StateInfo_zero false)
               eq_refl).
Defined.






(** ** The FEN string *)






(* ===================================================================== *)
(** * Castling rights *)
(* ===================================================================== *)

Lemma land_lnot_covered crs mask cr :
  Z.land mask cr = cr -> Z.land (Z.land crs (Z.lnot mask)) cr = 0.
Proof.
  intros H. apply Z.bits_inj'. intros n Hn.
  assert (Hb : Z.testbit (Z.land mask cr) n = Z.testbit cr n) by now rewrite H.
  rewrite Z.land_spec in Hb.
  rewrite !Z.land_spec, Z.lnot_spec, Z.bits_0 by exact Hn.
  destruct (Z.testbit crs n), (Z.testbit mask n), (Z.testbit cr n);
    try reflexivity; discriminate.
Qed.

Lemma land_lnot_disjoint crs mask cr :
  Z.land mask cr = 0 -> Z.land (Z.land crs (Z.lnot mask)) cr = Z.land crs cr.
Proof.
  intros H. apply Z.bits_inj'. intros n Hn.
  assert (Hb : Z.testbit (Z.land mask cr) n = false) by now rewrite H, Z.bits_0.
  rewrite Z.land_spec in Hb.
  rewrite !Z.land_spec, Z.lnot_spec by exact Hn.
  destruct (Z.testbit crs n), (Z.testbit mask n), (Z.testbit cr n);
    try reflexivity; discriminate.
Qed.

Lemma land_lor_covered a b cr :
  Z.land a cr = cr \/ Z.land b cr = cr -> Z.land (Z.lor a b) cr = cr.
Proof.
  intros H. apply Z.bits_inj'. intros n Hn.
  rewrite Z.land_spec, Z.lor_spec.
  destruct H as [H|H];
    (assert (Hb : Z.testbit (Z.land a cr) n = Z.testbit cr n
                  \/ Z.testbit (Z.land b cr) n = Z.testbit cr n)
       by (rewrite H; auto));
    rewrite !Z.land_spec in Hb;
    destruct (Z.testbit a n), (Z.testbit b n), (Z.testbit cr n);
    try reflexivity; destruct Hb; discriminate.
Qed.

(** X24. which castling rights a move costs.  With [mask] the union of the
    castling masks of the origin and the destination square (the king's
    final square for castling), every right that [mask] names in full is
    gone after [do_move], and every right that [mask] does not touch is
    held after the move exactly if it was held before. *)
Theorem do_move_castling_rights (p : Position) (m : Z) (newSt : StateInfo)
        (givesCheck : bool) (cr : Z) :
  let us := sideToMove p in
  let from := from_sq m in
  let to := if type_of_move m =? CASTLING
            then relative_square us (if to_sq m >? from then SQ_G1 else SQ_C1)
            else to_sq m in
  let mask := Z.lor (aget 0 (castlingRightsMask p) from)
                    (aget 0 (castlingRightsMask p) to) in
  let q := do_move p m newSt givesCheck in
  (Z.land mask cr = cr -> can_castle q cr = false)
  /\ (Z.land mask cr = 0 -> can_castle q cr = can_castle p cr).
Proof.
  intros us from to mask q.
  destruct (do_move_shape p m newSt givesCheck)
    as (e & _ & _ & _ & _ & _ & _ & _ & _ & _ & _ & _ & K & _).
  cbv zeta in K. fold us from to mask q in K.
  unfold can_castle. rewrite K. split; intros H.
  - rewrite land_lnot_covered by exact H. reflexivity.
  - rewrite land_lnot_disjoint by exact H. reflexivity.
Qed.

Lemma land_lor_keeps x y r : Z.land x r = r -> Z.land (Z.lor x y) r = r.
Proof. intros H. apply land_lor_covered. now left. Qed.

Lemma color_castling_cases c side :
  side = KING_SIDE \/ side = QUEEN_SIDE ->
  0 < color_castling c side < 16.
Proof.
  intros [-> | ->]; unfold color_castling; destruct (c =? WHITE); cbn; lia.
Qed.

(** X25. what [set_castling_right(c, rfrom)] records, the king of [c] standing
    on [kfrom].  The right [cr] (king side if [kfrom < rfrom], queen side
    otherwise) is held afterwards and [rfrom] is its rook square; the
    castling masks of [kfrom] and of [rfrom] name it; rights held before and
    rights named by any mask before are still held and named; and the
    castling path of [cr] contains neither [kfrom] nor [rfrom]. *)
Theorem set_castling_right_spec (p : Position) (c rfrom : Z) :
  let kfrom := square_of p KING c in
  let cr := color_castling c (if kfrom <? rfrom then KING_SIDE else QUEEN_SIDE) in
  let p' := set_castling_right p c rfrom in
  length (castlingRightsMask p) = 64%nat ->
  length (castlingRookSquare p) = 16%nat ->
  length (castlingPath p) = 16%nat ->
  0 <= kfrom < 64 -> 0 <= rfrom < 64 ->
  can_castle p' cr = true
  /\ castling_rook_square p' cr = rfrom
  /\ Z.land (aget 0 (castlingRightsMask p') kfrom) cr = cr
  /\ Z.land (aget 0 (castlingRightsMask p') rfrom) cr = cr
  /\ (forall r, Z.land (castlingRights (st p)) r = r ->
                Z.land (castlingRights (st p')) r = r)
  /\ (forall s r, Z.land (aget 0 (castlingRightsMask p) s) r = r ->
                  Z.land (aget 0 (castlingRightsMask p') s) r = r)
  /\ bb_has (aget 0 (castlingPath p') cr) kfrom = false
  /\ bb_has (aget 0 (castlingPath p') cr) rfrom = false.
Proof.
  intros kfrom cr p' Hlen Hlr Hlp Hk Hr.
  assert (Hl : Z.of_nat (length (castlingRightsMask p)) = 64)
    by (rewrite Hlen; reflexivity).
  assert (Hcr : 0 < cr < 16).
  { unfold cr. apply color_castling_cases. destruct (kfrom <? rfrom); auto. }
  assert (Hor : forall x, Z.land (Z.lor x cr) cr = cr).
  { intros x. apply land_lor_covered. right. apply Z.land_diag. }
  unfold p', set_castling_right. cbv zeta. fold kfrom. fold cr.
  clearbody cr kfrom.
  unfold can_castle, castling_rook_square.
  cbn [st castlingRights set_castlingRights castlingRightsMask castlingRookSquare
       castlingPath].
  split; [rewrite Hor; apply to_bool_true; lia|].
  split; [apply aget_aset_eq; rewrite Hlr; lia|].
  split.
  { rewrite aget_aset by (rewrite length_aset; lia).
    destruct (Z.eqb_spec rfrom kfrom) as [E|E]; [apply Hor|].
    rewrite aget_aset_eq by lia. apply Hor. }
  split; [rewrite aget_aset_eq by (rewrite length_aset; lia); apply Hor|].
  split; [intros r H; now apply land_lor_keeps|].
  split.
  { intros s r H.
    rewrite aget_aset by (rewrite length_aset; lia).
    destruct (Z.eqb_spec rfrom s) as [E|E].
    - apply land_lor_keeps. rewrite aget_aset by lia.
      destruct (Z.eqb_spec kfrom rfrom) as [E'|E'].
      + apply land_lor_keeps. now rewrite E', E.
      + now rewrite E.
    - rewrite aget_aset by lia.
      destruct (Z.eqb_spec kfrom s) as [E'|E']; [|exact H].
      apply land_lor_keeps. now rewrite E'. }
  rewrite aget_aset_eq by (rewrite Hlp; lia).
  unfold bb_has.
  split; rewrite Z.land_spec, Z.lnot_spec, (Z.lor_spec (square_bb kfrom)) by lia;
    rewrite (testbit_square_bb kfrom), (testbit_square_bb rfrom) by lia;
    rewrite Z.eqb_refl, ?orb_true_r; cbn [negb orb]; apply andb_false_r.
Qed.

(** White's king-side right in the starting position: king e1, rook h1. *)
Lemma set_castling_right_spec_witness :
  let p := fst (set_placement
                  (list_ascii_of_string
                     "rnbqkbnr/pppppppp/8/8/8/8/PPPPPPPP/RNBQKBNR"%string)
                  Position_zero SQ_A8) in
  can_castle (set_castling_right p WHITE SQ_H1) WHITE_OO = true.
Proof.
  intros p.
  refine (proj1 (set_castling_right_spec p WHITE SQ_H1 _ _ _ _ _));
    vm_compute; repeat split; reflexivity || discriminate.
Defined.

